(** * EmeraBooks statement processor: extraction and classification pipeline

    A shallow embedding of [backend/excel_processor.py]
    (class [UAEBankExcelProcessor]) together with the properties of its
    date resolver, merchant normalizer, rule classifier, header locator,
    amount resolver and batch refiner.

    Modelling conventions.
    - Python [str] values are [string]s over [ascii]; the character
      functions below are those of Python on ASCII text (code points below
      128).  Python's own functions also know the letters, digits and
      white space of the rest of Unicode, which the type [ascii] cannot
      hold: a statement that depends on the kind or on the case of the
      characters of a text says with [ascii_text] that it is about ASCII
      text.
    - A Python [float] is a rational number, an infinity or nan
      ([pyfloat]); the builtin [float()] parser and the [str()] of a
      numeric cell are parameters of the development, so every statement
      holds whatever numeric grammar they implement.
    - The regular expressions of the source are kept as syntax trees and
      run by a backtracking matcher with the priorities of Python's [re]
      (leftmost match, greedy and lazy repetition, alternation in order). *)

From Stdlib Require Import String Ascii List Bool Arith ZArith QArith Qabs Lia.
From Stdlib Require Import DecimalString.
Import ListNotations.
Close Scope Q_scope.
Open Scope nat_scope.
Open Scope list_scope.
Open Scope string_scope.

(** ** Python string primitives *)

Module Py.

Definition code (c : ascii) : nat := nat_of_ascii c.

Definition between (lo hi : nat) (c : ascii) : bool :=
  (lo <=? code c)%nat && (code c <=? hi)%nat.

Definition is_digit (c : ascii) : bool := between 48 57 c.
Definition is_upper (c : ascii) : bool := between 65 90 c.
Definition is_lower (c : ascii) : bool := between 97 122 c.
Definition is_alpha (c : ascii) : bool := is_upper c || is_lower c.
Definition is_alnum (c : ascii) : bool := is_alpha c || is_digit c.

(** [str.isspace] on ASCII: TAB, LF, VT, FF, CR, the four separators
    FS, GS, RS, US, and the space. *)
Definition is_space (c : ascii) : bool :=
  between 9 13 c || between 28 32 c.

(** [\w] of [re] on ASCII *)
Definition is_word (c : ascii) : bool :=
  is_alnum c || (code c =? 95)%nat.

Definition lower_char (c : ascii) : ascii :=
  if is_upper c then ascii_of_nat (code c + 32) else c.

Definition upper_char (c : ascii) : ascii :=
  if is_lower c then ascii_of_nat (code c - 32) else c.

Fixpoint smap (f : ascii -> ascii) (s : string) : string :=
  match s with
  | EmptyString => EmptyString
  | String c s' => String (f c) (smap f s')
  end.

Definition lower (s : string) : string := smap lower_char s.
Definition upper (s : string) : string := smap upper_char s.

Fixpoint lstrip (s : string) : string :=
  match s with
  | String c s' => if is_space c then lstrip s' else s
  | EmptyString => EmptyString
  end.

Fixpoint rstrip (s : string) : string :=
  match s with
  | String c s' =>
      match rstrip s' with
      | EmptyString => if is_space c then EmptyString else String c EmptyString
      | r => String c r
      end
  | EmptyString => EmptyString
  end.

Definition strip (s : string) : string := rstrip (lstrip s).

(** [needle in haystack] *)
Fixpoint contains (needle haystack : string) : bool :=
  if prefix needle haystack then true
  else match haystack with
       | String _ h' => contains needle h'
       | EmptyString => false
       end.

Definition startswith (s p : string) : bool := prefix p s.

(** [any(kw in s for kw in kws)] *)
Definition any_in (kws : list string) (s : string) : bool :=
  existsb (fun kw => contains kw s) kws.

(** [s[:n]] *)
Fixpoint take (n : nat) (s : string) : string :=
  match n, s with
  | S n', String c s' => String c (take n' s')
  | _, _ => EmptyString
  end.

(** [s[n:]] *)
Fixpoint drop (n : nat) (s : string) : string :=
  match n, s with
  | S n', String _ s' => drop n' s'
  | _, _ => s
  end.

Fixpoint zeros (n : nat) : string :=
  match n with
  | O => EmptyString
  | S n' => String "0" (zeros n')
  end.

(** [s.zfill(w)] for a string of digits (no sign) *)
Definition zfill (w : nat) (s : string) : string :=
  zeros (w - String.length s) ++ s.

(** [str.title]: a cased character is upper-cased when the character
    before it is not cased, lower-cased otherwise. *)
Fixpoint title_from (prev_cased : bool) (s : string) : string :=
  match s with
  | EmptyString => EmptyString
  | String c s' =>
      if is_alpha c
      then String (if prev_cased then lower_char c else upper_char c)
                  (title_from true s')
      else String c (title_from false s')
  end.

Definition title (s : string) : string := title_from false s.

(** [int(s)] for a string of decimal digits *)
Fixpoint int_from (acc : nat) (s : string) : nat :=
  match s with
  | EmptyString => acc
  | String c s' => int_from (10 * acc + (code c - 48)) s'
  end.

Definition int (s : string) : nat := int_from 0 s.

(** [str(n)] for a natural number *)
Definition str_nat (n : nat) : string :=
  NilEmpty.string_of_uint (Nat.to_uint n).

Definition is_empty (s : string) : bool :=
  match s with EmptyString => true | _ => false end.

(** [all(p(c) for c in s)] *)
Fixpoint all_chars (p : ascii -> bool) (s : string) : bool :=
  match s with
  | EmptyString => true
  | String c s' => p c && all_chars p s'
  end.

(** [s.isascii()]: a text of ASCII characters, on which the functions of
    this module are those of Python. *)
Definition ascii_text (s : string) : bool :=
  all_chars (fun c => (code c <? 128)%nat) s.

End Py.

(** ** Regular expressions with Python's matching priorities *)

Module Re.

Inductive regex : Type :=
| Eps
| Chr (c : ascii)                       (* a literal character *)
| Cls (p : ascii -> bool)               (* a character class, [\d], [\s], [.] *)
| Bol                                   (* [^] *)
| Eol                                   (* [$] *)
| Wordb                                 (* [\b] *)
| Cat (r1 r2 : regex)
| Alt (r1 r2 : regex)
| Opt (r : regex)                       (* [(...)?] *)
| Rep (greedy : bool) (lo : nat) (hi : option nat) (p : ascii -> bool)
                                        (* [p{lo,hi}], [p+], [p*], lazy when not greedy *)
| Grp (n : nat) (r : regex).            (* capture group number [n] *)

Definition caps := list (nat * string).

Fixpoint group (n : nat) (cs : caps) : option string :=
  match cs with
  | [] => None
  | (m, g) :: cs' => if (n =? m)%nat then Some g else group n cs'
  end.

(** Under IGNORECASE a character matches when one of its case variants does. *)
Definition cls_ok (ic : bool) (p : ascii -> bool) (x : ascii) : bool :=
  if ic then p x || p (Py.lower_char x) || p (Py.upper_char x) else p x.

Definition chr_ok (ic : bool) (c x : ascii) : bool :=
  cls_ok ic (Ascii.eqb c) x.

(** [$] holds at the end of the text and before a final line feed. *)
Definition at_end (s : string) : bool :=
  match s with
  | EmptyString => true
  | String c EmptyString => Ascii.eqb c "010"
  | _ => false
  end.

Definition word_before (prev : option ascii) : bool :=
  match prev with Some c => Py.is_word c | None => false end.

Definition word_after (s : string) : bool :=
  match s with String c _ => Py.is_word c | EmptyString => false end.

Definition room (hi : option nat) : bool :=
  match hi with Some O => false | _ => true end.

Definition dec (hi : option nat) : option nat :=
  match hi with Some n => Some (pred n) | None => None end.

Definition orelse {A} (a b : option A) : option A :=
  match a with Some _ => a | None => b end.

(** Repetition of a one-character class: the greedy form takes as many
    characters as it can and gives them back one by one, the lazy form
    takes as few as it can. *)
Fixpoint rep {A} (ic g : bool) (lo : nat) (hi : option nat) (p : ascii -> bool)
    (prev : option ascii) (s : string)
    (k : option ascii -> string -> option A) : option A :=
  let stop := match lo with O => k prev s | S _ => None end in
  let more :=
    match s with
    | String x s' =>
        if cls_ok ic p x && room hi
        then rep ic g (pred lo) (dec hi) p (Some x) s' k
        else None
    | EmptyString => None
    end in
  if g then orelse more stop else orelse stop more.

(** [run ic r prev s cs k]: match [r] at the head of [s], [prev] being the
    character just before it (none at the start of the text), then hand the
    rest of the text and the captures to the continuation [k]; a failing
    continuation makes the matcher backtrack. *)
Fixpoint run {A} (ic : bool) (r : regex) (prev : option ascii) (s : string)
    (cs : caps) (k : option ascii -> string -> caps -> option A) : option A :=
  match r with
  | Eps => k prev s cs
  | Chr c =>
      match s with
      | String x s' => if chr_ok ic c x then k (Some x) s' cs else None
      | EmptyString => None
      end
  | Cls p =>
      match s with
      | String x s' => if cls_ok ic p x then k (Some x) s' cs else None
      | EmptyString => None
      end
  | Bol => match prev with None => k prev s cs | Some _ => None end
  | Eol => if at_end s then k prev s cs else None
  | Wordb => if xorb (word_before prev) (word_after s) then k prev s cs else None
  | Cat r1 r2 => run ic r1 prev s cs (fun p' s' cs' => run ic r2 p' s' cs' k)
  | Alt r1 r2 => orelse (run ic r1 prev s cs k) (run ic r2 prev s cs k)
  | Opt r1 => orelse (run ic r1 prev s cs k) (k prev s cs)
  | Rep g lo hi p => rep ic g lo hi p prev s (fun p' s' => k p' s' cs)
  | Grp n r1 =>
      run ic r1 prev s cs
        (fun p' s' cs' => k p' s' ((n, Py.take (String.length s - String.length s') s) :: cs'))
  end.

(** The match found at one position: what is left of the text, and the groups. *)
Definition here (ic : bool) (r : regex) (prev : option ascii) (s : string)
  : option (string * caps) :=
  run ic r prev s [] (fun _ s' cs' => Some (s', cs')).

(** [re.match(r, s)] *)
Definition re_match (ic : bool) (r : regex) (s : string) : option caps :=
  option_map snd (here ic r None s).

(** [re.sub(r, repl, s)]: leftmost matches, not overlapping, each replaced.
    [skip] counts the characters of the current match still to be dropped.
    No pattern of this program matches the empty string; an empty match is
    replaced and the scan moves on by one character. *)
Fixpoint sub_from (ic : bool) (r : regex) (repl : caps -> string)
    (prev : option ascii) (s : string) (skip : nat) : string :=
  match skip with
  | S n =>
      match s with
      | String c s' => sub_from ic r repl (Some c) s' n
      | EmptyString => EmptyString
      end
  | O =>
      match here ic r prev s with
      | Some (rest, cs) =>
          match s with
          | String c s' =>
              match String.length s - String.length rest with
              | O => repl cs ++ String c (sub_from ic r repl (Some c) s' 0)
              | S n => repl cs ++ sub_from ic r repl (Some c) s' n
              end
          | EmptyString => repl cs
          end
      | None =>
          match s with
          | String c s' => String c (sub_from ic r repl (Some c) s' 0)
          | EmptyString => EmptyString
          end
      end
  end.

Definition sub (ic : bool) (r : regex) (repl : caps -> string) (s : string) : string :=
  sub_from ic r repl None s 0.

(** [re.sub(r, '', s)] *)
Definition remove (ic : bool) (r : regex) (s : string) : string :=
  sub ic r (fun _ => EmptyString) s.

(** *** What a match is

    [matches ic r prev s cs prev' s' cs']: the pattern [r] can consume a
    prefix of [s] and leave [s'], turning the captures [cs] into [cs'].
    The matcher is sound for this relation ([run_sound] below). *)

Definition within (hi : option nat) (n : nat) : Prop :=
  match hi with Some h => n <= h | None => True end.

Fixpoint last_char (prev : option ascii) (w : string) : option ascii :=
  match w with
  | EmptyString => prev
  | String c w' => last_char (Some c) w'
  end.

Inductive matches (ic : bool) :
  regex -> option ascii -> string -> caps -> option ascii -> string -> caps -> Prop :=
| M_eps prev s cs : matches ic Eps prev s cs prev s cs
| M_chr c x prev s cs :
    chr_ok ic c x = true -> matches ic (Chr c) prev (String x s) cs (Some x) s cs
| M_cls p x prev s cs :
    cls_ok ic p x = true -> matches ic (Cls p) prev (String x s) cs (Some x) s cs
| M_bol s cs : matches ic Bol None s cs None s cs
| M_eol prev s cs : at_end s = true -> matches ic Eol prev s cs prev s cs
| M_wordb prev s cs :
    xorb (word_before prev) (word_after s) = true -> matches ic Wordb prev s cs prev s cs
| M_cat r1 r2 p s cs p1 s1 cs1 p2 s2 cs2 :
    matches ic r1 p s cs p1 s1 cs1 -> matches ic r2 p1 s1 cs1 p2 s2 cs2 ->
    matches ic (Cat r1 r2) p s cs p2 s2 cs2
| M_alt_l r1 r2 p s cs p' s' cs' :
    matches ic r1 p s cs p' s' cs' -> matches ic (Alt r1 r2) p s cs p' s' cs'
| M_alt_r r1 r2 p s cs p' s' cs' :
    matches ic r2 p s cs p' s' cs' -> matches ic (Alt r1 r2) p s cs p' s' cs'
| M_opt_some r p s cs p' s' cs' :
    matches ic r p s cs p' s' cs' -> matches ic (Opt r) p s cs p' s' cs'
| M_opt_none r p s cs : matches ic (Opt r) p s cs p s cs
| M_rep g lo hi p prev w s cs :
    Py.all_chars (cls_ok ic p) w = true -> lo <= String.length w ->
    within hi (String.length w) ->
    matches ic (Rep g lo hi p) prev (w ++ s) cs (last_char prev w) s cs
| M_grp n r p s cs p' s' cs' :
    matches ic r p s cs p' s' cs' ->
    matches ic (Grp n r) p s cs p' s'
      ((n, Py.take (String.length s - String.length s') s) :: cs').

(** No group is longer than the text the match started on. *)
Definition caps_le (N : nat) (cs : caps) : Prop :=
  Forall (fun ng => String.length (snd ng) <= N) cs.

(** *** Pattern syntax *)

Fixpoint lit (s : string) : regex :=
  match s with
  | EmptyString => Eps
  | String c s' => Cat (Chr c) (lit s')
  end.

Fixpoint cat (rs : list regex) : regex :=
  match rs with
  | [] => Eps
  | r :: rs' => Cat r (cat rs')
  end.

Definition plus (p : ascii -> bool) : regex := Rep true 1 None p.
Definition star (p : ascii -> bool) : regex := Rep true 0 None p.
Definition times (n : nat) (p : ascii -> bool) : regex := Rep true n (Some n) p.
Definition upto (lo hi : nat) (p : ascii -> bool) : regex := Rep true lo (Some hi) p.
Definition atleast (lo : nat) (p : ascii -> bool) : regex := Rep true lo None p.

Definition digit : ascii -> bool := Py.is_digit.            (* [\d] *)
Definition space : ascii -> bool := Py.is_space.            (* [\s] *)
Definition word : ascii -> bool := Py.is_word.              (* [\w] *)
Definition any : ascii -> bool := fun c => negb (Ascii.eqb c "010").   (* [.] *)
Definition capital : ascii -> bool := Py.is_upper.            (* [[A-Z]] *)
Definition one (c : ascii) : ascii -> bool := Ascii.eqb c.
Definition hexdigit : ascii -> bool :=                      (* [[0-9A-Fa-f]] *)
  fun c => Py.is_digit c || Py.between 65 70 c || Py.between 97 102 c.
Definition hexupper : ascii -> bool :=                      (* [[0-9A-F]] *)
  fun c => Py.is_digit c || Py.between 65 70 c.
Definition hexlower : ascii -> bool :=                      (* [[0-9a-f]] *)
  fun c => Py.is_digit c || Py.between 97 102 c.

End Re.

Import Py Re.

(** ** Cell values of a worksheet *)

(** A native [datetime] value. *)
Record datetime : Type := mkDate {
  year : nat; month : nat; day : nat;
  hour : nat; minute : nat; second : nat
}.

(** What [worksheet.cell(row, col).value] can hold: nothing, text, a number
    or a native date. *)
Inductive cell : Type :=
| VNone
| VStr (s : string)
| VNum (q : Q)
| VDate (d : datetime).

(** Python truthiness of a cell value *)
Definition truthy (v : cell) : bool :=
  match v with
  | VNone => false
  | VStr s => negb (is_empty s)
  | VNum q => negb (Qnum q =? 0)%Z
  | VDate _ => true
  end.

(** [d.strftime('%Y-%m-%d')].  The C library prints [%Y] without filling:
    a year below 1000 comes out with fewer than four digits. *)
Definition strftime_ymd (d : datetime) : string :=
  str_nat (year d) ++ "-" ++ zfill 2 (str_nat (month d)) ++ "-"
    ++ zfill 2 (str_nat (day d)).

(** [str(d)] of a [datetime]: the ISO format, the year filled to four digits *)
Definition str_datetime (d : datetime) : string :=
  zfill 4 (str_nat (year d)) ++ "-" ++ zfill 2 (str_nat (month d)) ++ "-"
    ++ zfill 2 (str_nat (day d)) ++ " " ++ zfill 2 (str_nat (hour d)) ++ ":"
    ++ zfill 2 (str_nat (minute d)) ++ ":" ++ zfill 2 (str_nat (second d)).

(** ** Floating point values *)

(** A Python [float]: a number, an infinity or nan. *)
Inductive pyfloat : Type :=
| Finite (q : Q)
| Infinite (negative : bool)
| NaN.

(** [abs(x)] *)
Definition fabs (x : pyfloat) : pyfloat :=
  match x with
  | Finite q => Finite (Qabs q)
  | Infinite _ => Infinite false
  | NaN => NaN
  end.

(** [-x] *)
Definition fneg (x : pyfloat) : pyfloat :=
  match x with
  | Finite q => Finite (Qopp q)
  | Infinite negative => Infinite (negb negative)
  | NaN => NaN
  end.

(** [x == 0]: false of nan *)
Definition is_zero (x : pyfloat) : bool :=
  match x with
  | Finite q => (Qnum q =? 0)%Z
  | _ => false
  end.

(** [x < 0]: false of nan *)
Definition is_negative (x : pyfloat) : bool :=
  match x with
  | Finite q => (Qnum q <? 0)%Z
  | Infinite negative => negative
  | NaN => false
  end.

(** [x > 0]: false of nan *)
Definition is_positive (x : pyfloat) : bool :=
  match x with
  | Finite q => (0 <? Qnum q)%Z
  | Infinite negative => negb negative
  | NaN => false
  end.

Definition is_nan (x : pyfloat) : bool :=
  match x with NaN => true | _ => false end.

Definition grp (n : nat) (m : caps) : string :=
  match group n m with Some g => g | None => EmptyString end.

(** ** The patterns of the source *)

(** [\s+] *)
Definition gap : regex := plus space.

(** [^(\d{1,2})/(\d{1,2})/(\d{2})$] *)
Definition re_mdy_short : regex :=
  cat [Bol; Grp 1 (upto 1 2 digit); Chr "/"; Grp 2 (upto 1 2 digit); Chr "/";
       Grp 3 (times 2 digit); Eol].

(** [^(\d{4})-(\d{1,2})-(\d{1,2})$] *)
Definition re_iso : regex :=
  cat [Bol; Grp 1 (times 4 digit); Chr "-"; Grp 2 (upto 1 2 digit); Chr "-";
       Grp 3 (upto 1 2 digit); Eol].

(** [^(\d{1,2})/(\d{1,2})/(\d{4})$] *)
Definition re_slash_long : regex :=
  cat [Bol; Grp 1 (upto 1 2 digit); Chr "/"; Grp 2 (upto 1 2 digit); Chr "/";
       Grp 3 (times 4 digit); Eol].

(** The three date patterns have one form: three fields of digits between
    two separators, from the start of the text to its end. *)
Definition three_fields (lo1 hi1 : nat) (c1 : ascii) (lo2 hi2 : nat) (c2 : ascii)
    (lo3 hi3 : nat) : regex :=
  cat [Bol; Grp 1 (Rep true lo1 (Some hi1) digit); Chr c1;
       Grp 2 (Rep true lo2 (Some hi2) digit); Chr c2;
       Grp 3 (Rep true lo3 (Some hi3) digit); Eol].

(** [\s*[-–]\s*\w{0,5}\s*$]; the en dash of the class is not an ASCII
    character, which leaves the hyphen. *)
Definition re_ref_suffix : regex :=
  cat [star space; Chr "-"; star space; upto 0 5 word; star space; Eol].

(** [self._ibft_ref_pattern], compiled with IGNORECASE in [__init__]:
    [^[0-9a-f]{6,}[0-9a-f\-]*$|^[0-9]{3}[a-z][0-9a-f]{8,}] *)
Definition _ibft_ref_pattern : regex :=
  Alt (cat [Bol; atleast 6 hexlower; star (fun c => hexlower c || one "-" c); Eol])
      (cat [Bol; times 3 digit; Cls is_lower; atleast 8 hexlower]).

(** [^[0-9A-F]{8,}$], used with IGNORECASE *)
Definition re_hex_ref : regex :=
  cat [Bol; atleast 8 hexupper; Eol].

Definition prefix_patterns : list regex :=
  [ cat [Bol; lit "CHECKCARD"; gap; times 4 digit; gap];
    cat [Bol; lit "MOBILE"; gap; lit "PURCHASE"; gap; times 4 digit; gap];
    cat [Bol; lit "POS"; gap; lit "PURCHASE"; gap; times 4 digit; gap];
    cat [Bol; lit "RECURRING"; gap; lit "PURCHASE"; gap; times 4 digit; gap];
    cat [Bol; lit "ONLINE"; gap; lit "PURCHASE"; gap; times 4 digit; gap];
    cat [Bol; lit "DEBIT"; gap; lit "CARD"; gap; lit "PURCHASE"; gap; times 4 digit; gap];
    cat [Bol; lit "DEBIT"; gap; lit "PURCHASE"; gap; times 4 digit; gap];
    cat [Bol; lit "ACH"; gap; lit "DEBIT"; gap];
    cat [Bol; lit "ACH"; gap; lit "CREDIT"; gap];
    cat [Bol; lit "WIRE"; gap; lit "TRANSFER"; gap; Grp 1 (Alt (lit "TO") (lit "FROM")); gap];
    cat [Bol; lit "WIRE"; gap; Grp 1 (Alt (lit "TO") (lit "FROM")); gap];
    cat [Bol; lit "ZELLE"; gap;
         Grp 1 (Alt (lit "TO") (Alt (lit "FROM") (lit "PAYMENT"))); gap];
    cat [Bol; lit "VENMO"; gap; lit "PAYMENT"; gap];
    cat [Bol; lit "PAYPAL"; gap; Opt (Grp 1 (cat [lit "TRANSFER"; gap]))];
    cat [Bol; lit "DIRECT"; gap; Grp 1 (Alt (lit "DEBIT") (lit "DEPOSIT")); gap];
    cat [Bol; lit "ATM"; gap; lit "WITHDRAWAL"; gap];
    cat [Bol; lit "CHECKCARD"; gap];
    cat [Bol; lit "MOBILE"; gap; lit "PURCHASE"; gap];
    cat [Bol; lit "POS"; gap; lit "PURCHASE"; gap] ].

(** [^SQ\s*\*\s*(.+)] (IGNORECASE in the normalizer, applied to lower-cased
    text in the classifier) *)
Definition re_square (name : string) : regex :=
  cat [Bol; lit name; star space; Chr "*"; star space; Grp 1 (plus any)].

(** [\s+[A-Z]{2}\s+\d{5}(-\d{4})?$] *)
Definition re_state_zip : regex :=
  cat [gap; times 2 capital; gap; times 5 digit;
       Opt (Grp 1 (cat [Chr "-"; times 4 digit])); Eol].

(** [\s+[A-Z]{2}$] *)
Definition re_state : regex := cat [gap; times 2 capital; Eol].

(** [\s+\d{8,}] *)
Definition re_long_number : regex := cat [gap; atleast 8 digit].

(** [\b[0-9A-Fa-f]{10,}\b] *)
Definition re_hex_code : regex := cat [Wordb; atleast 10 hexdigit; Wordb].

(** [\s+RECURRING(\s+CHARGE)?$] *)
Definition re_recurring : regex :=
  cat [gap; lit "RECURRING"; Opt (Grp 1 (cat [gap; lit "CHARGE"])); Eol].

(** [\s+#\d+.*$] *)
Definition re_store_number : regex :=
  cat [gap; Chr "#"; plus digit; star any; Eol].

(** [[A-Za-z0-9\s\.\&\'\-]] *)
Definition junk_body : ascii -> bool :=
  fun c => is_alnum c || is_space c || one "." c || one "&" c || one "'" c || one "-" c.

(** [^([A-Za-z][A-Za-z0-9\s\.\&\'\-]{1,40}?)\s+\d+\s+[A-Z].*$] *)
Definition re_junk_tail : regex :=
  cat [Bol; Grp 1 (cat [Cls is_alpha; Rep false 1 (Some 40) junk_body]);
       gap; plus digit; gap; Cls capital; star any; Eol].

(** ** [_is_ibft_reference] *)

Definition _is_ibft_reference (description : string) : bool :=
  let clean := remove false re_ref_suffix (strip description) in
  match re_match true re_hex_ref clean with
  | Some _ => true
  | None => false
  end.

(** ** [extract_merchant_name] *)

(** Steps 1 to 7: the ordered structural strips. *)
Definition strip_stages (description : string) : string :=
  let s := strip description in
  let s := fold_left (fun s pattern => strip (remove true pattern s)) prefix_patterns s in
  let s := match re_match true (re_square "SQ") s with
           | Some sq_match => strip (grp 1 sq_match)
           | None => s
           end in
  let s := strip (remove false re_state_zip s) in
  let s := strip (remove false re_state s) in
  let s := strip (remove false re_long_number s) in
  let s := strip (remove false re_hex_code s) in
  let s := strip (remove true re_recurring s) in
  let s := strip (remove false re_store_number s) in
  let s := strip (sub false re_junk_tail (grp 1) s) in
  s.

(** Step 8 and the fallback to the raw text. *)
Definition extract_merchant_name (description : string) : string :=
  let result := strip (title (strip_stages description)) in
  if negb (is_empty result) then take 60 result else take 60 description.

(** ** The category tables ([self.categories], in insertion order) *)

Definition categories : list (string * list string) :=
  [ ("Internal Transfer",
     [ "mobn transfer"; "mobn"; "internal transfer"; "own account transfer";
       "self transfer"; "ibft"; "neft"; "rtgs"; "imps"; "upi transfer";
       "between accounts"; "acc transfer"; "account transfer";
       "transfer from"; "transfer to"; "online transfer"; "mobile transfer";
       "internet banking transfer"; "e-transfer"; "wire to self";
       "salary transfer own"; "al ansari"; "uae exchange transfer to self" ]);
    ("Salary & Income",
     [ "salary"; "payroll"; "wages"; "income"; "direct deposit"; "paycheck";
       "pay slip"; "bonus"; "commission"; "stipend"; "allowance";
       "reimbursement"; "refund"; "credit from"; "deposit from"; "payment from";
       "received from"; "dividend"; "interest credit"; "profit share" ]);
    ("Food & Beverage",
     [ "carrefour"; "lulu"; "spinneys"; "choithrams"; "union coop"; "waitrose";
       "restaurant"; "cafe"; "kfc"; "mcdonald"; "pizza"; "subway"; "dominos";
       "starbucks"; "costa"; "dunkin"; "burger"; "food"; "dining"; "eat";
       "grocery"; "supermarket"; "hypermarket"; "bakery"; "deli"; "bistro";
       "catering"; "takeaway"; "delivery"; "zomato"; "talabat"; "deliveroo";
       "doordash"; "grubhub"; "uber eats"; "postmates"; "chipotle"; "panera";
       "whole foods"; "trader joe"; "safeway"; "kroger";
       "donuts"; "coffee"; "espresso"; "bacio di latte"; "butchery"; "zinque";
       "ralphs"; "albertsons"; "vons"; "pavilions"; "publix"; "wegmans"; "harris teeter";
       "noon food"; "kcal"; "just eat"; "hunger station"; "marsool"; "mrsool";
       "jahez"; "tikka"; "shawarma"; "manoushe"; "falafel"; "hummus";
       "baqala"; "chaat"; "karak"; "cafetera";
       "moongoat"; "dutch bros"; "peet's coffee"; "peets coffee"; "blue bottle";
       "instacart"; "fresh direct"; "imperfect foods"; "misfit market";
       "chick-fil-a"; "chickfila"; "taco bell"; "five guys"; "shake shack";
       "in-n-out"; "whataburger"; "sonic drive"; "dairy queen"; "popeyes";
       "olive garden"; "red lobster"; "applebees"; "chilis"; "ihop"; "dennys";
       "wingstop"; "buffalo wild wings"; "raising canes"; "culvers" ]);
    ("Transportation & Logistics",
     [ "adnoc"; "eppco"; "enoc"; "petrol"; "fuel"; "gas"; "gasoline";
       "taxi"; "uber"; "careem"; "metro"; "bus"; "rta"; "parking";
       "salik"; "toll"; "car wash"; "transport"; "emirates"; "etihad";
       "flydubai"; "air arabia"; "airline"; "flight"; "airport";
       "chevron"; "shell"; "bp"; "76"; "exxon"; "mobil"; "lyft";
       "parking services"; "toll roads"; "valet"; "bolt"; "indrive"; "yango";
       "aramex"; "dhl"; "fedex"; "ups"; "courier"; "shipping"; "freight" ]);
    ("Retail & Shopping",
     [ "mall"; "centrepoint"; "max"; "home centre"; "ikea"; "ace";
       "sharaf dg"; "jumbo"; "electronics"; "clothing"; "fashion";
       "shop"; "store"; "retail"; "amazon"; "noon"; "souq"; "namshi";
       "h&m"; "zara"; "nike"; "adidas"; "apple store"; "samsung"; "virgin";
       "uniqlo"; "target"; "walmart"; "costco"; "best buy"; "macy";
       "nordstrom"; "kohls"; "tj maxx"; "ross"; "marshalls";
       "shein"; "bosta" ]);
    ("Healthcare",
     [ "hospital"; "clinic"; "pharmacy"; "medical"; "doctor"; "health";
       "dental"; "medicare"; "aster"; "nmc"; "mediclinic"; "life pharmacy";
       "boots"; "aster pharmacy"; "day today pharmacy";
       "seha"; "dha"; "nmc healthcare"; "thumbay"; "daman";
       "salon"; "spa"; "barbershop"; "beauty"; "cosmetics"; "skincare";
       "haircut"; "manicure"; "pedicure"; "massage"; "gym"; "fitness";
       "24hourfitness"; "planet fitness"; "la fitness"; "crunch"; "equinox";
       "flex fitness"; "orangetheory" ]);
    ("Utilities",
     [ "dewa"; "addc"; "sewa"; "fewa"; "etisalat"; "du"; "internet";
       "mobile"; "telecom"; "electricity"; "water"; "utility"; "bill";
       "wifi"; "broadband"; "phone bill"; "electric bill" ]);
    ("Entertainment & Media",
     [ "cinema"; "movie"; "vox"; "reel"; "osn"; "gaming";
       "entertainment"; "park"; "beach"; "attraction"; "ticket"; "event";
       "youtube"; "disney"; "hulu"; "shahid";
       "disneyland"; "balloon museum"; "sawdust festival"; "museum"; "amusement" ]);
    ("Technology",
     [ "netflix"; "spotify"; "youtube premium"; "amazon prime"; "disney+";
       "adobe"; "microsoft"; "google"; "icloud"; "dropbox"; "zoom";
       "subscription"; "monthly"; "annual"; "recurring"; "saas";
       "software"; "app store"; "play store"; "itunes"; "office 365";
       "hbo"; "peacock"; "paramount+"; "apple tv"; "apple one";
       "slack"; "github"; "figma"; "notion"; "canva"; "grammarly";
       "dashlane"; "1password"; "nordvpn"; "expressvpn"; "duolingo";
       "headspace"; "calm"; "audible"; "kindle unlimited" ]);
    ("Finance & Banking",
     [ "atm"; "cash withdrawal"; "withdrawal"; "atm withdrawal";
       "cash advance"; "atm fee"; "withdrawal fee";
       "bank fee"; "service charge"; "maintenance fee"; "overdraft"; "annual fee";
       "interest charge"; "finance charge"; "late payment fee";
       "wire transfer"; "remittance"; "foreign exchange"; "forex"; "currency exchange";
       "uae exchange"; "al ansari exchange"; "lulu exchange"; "wall street exchange";
       "zelle"; "venmo"; "paypal"; "western union"; "moneygram";
       "loan repayment"; "emi payment"; "credit card payment"; "insurance premium";
       "ach debit"; "ach credit"; "direct debit"; "direct deposit";
       "pos purchase"; "checkcard"; "wire to"; "wire from";
       "cash app"; "apple pay"; "google pay"; "samsung pay";
       "tabby"; "spotii"; "cashew"; "tamara" ]) ].

(** [self.categories.get(category, [])] *)
Fixpoint keywords_of (tbl : list (string * list string)) (category : string) : list string :=
  match tbl with
  | [] => []
  | (c, kws) :: tbl' => if c =? category then kws else keywords_of tbl' category
  end.

Definition category_priority : list string :=
  [ "Internal Transfer"; "Salary & Income"; "Finance & Banking"; "Technology";
    "Food & Beverage"; "Transportation & Logistics"; "Healthcare"; "Utilities";
    "Entertainment & Media"; "Retail & Shopping" ].

Definition salary_signals : list string :=
  [ "salary"; "payroll"; "paycheck"; "direct deposit";
    "wages"; "commission payment"; "bonus credit" ].

Definition finance_terms : list string :=
  [ "atm"; "withdrawal"; "cash"; "fee";
    "charge"; "interest"; "maintenance"; "remittance"; "exchange";
    "zelle"; "venmo"; "paypal"; "western union"; "forex"; "overdraft";
    "tabby"; "spotii"; "tamara" ].

Definition technology_terms : list string :=
  [ "subscription"; "monthly"; "netflix";
    "spotify"; "prime"; "office"; "adobe"; "google"; "microsoft"; "icloud" ].

Definition merchant_patterns : list (string * string) :=
  [ ("careem", "Transportation & Logistics");
    ("talabat", "Food & Beverage");
    ("zomato", "Food & Beverage");
    ("mrsool", "Food & Beverage");
    ("marsool", "Food & Beverage");
    ("netflix", "Technology");
    ("spotify", "Technology");
    ("amazon", "Retail & Shopping");
    ("noon", "Retail & Shopping");
    ("namshi", "Retail & Shopping");
    ("adnoc", "Transportation & Logistics");
    ("enoc", "Transportation & Logistics");
    ("eppco", "Transportation & Logistics");
    ("salik", "Transportation & Logistics");
    ("rta", "Transportation & Logistics");
    ("dewa", "Utilities");
    ("etisalat", "Utilities");
    ("e&", "Utilities");
    ("du telecom", "Utilities");
    ("addc", "Utilities");
    ("sewa", "Utilities");
    ("tabby", "Finance & Banking");
    ("spotii", "Finance & Banking");
    ("tamara", "Finance & Banking") ].

(** ** [categorize_transaction] *)

(** The inner loop over the keywords of one category. *)
Fixpoint scan_keywords (category desc_lower : string) (keywords : list string)
  : option string :=
  match keywords with
  | [] => None
  | keyword :: rest =>
      if contains keyword desc_lower then
        if category =? "Finance & Banking" then
          if any_in finance_terms desc_lower then Some category
          else scan_keywords category desc_lower rest
        else if category =? "Technology" then
          if any_in technology_terms desc_lower then Some category
          else scan_keywords category desc_lower rest
        else Some category
      else scan_keywords category desc_lower rest
  end.

(** The outer loop over the priority list. *)
Fixpoint scan_categories (desc_lower : string) (priority : list string) : option string :=
  match priority with
  | [] => None
  | category :: rest =>
      match scan_keywords category desc_lower (keywords_of categories category) with
      | Some c => Some c
      | None => scan_categories desc_lower rest
      end
  end.

Fixpoint scan_merchants (desc_lower : string) (tbl : list (string * string)) : option string :=
  match tbl with
  | [] => None
  | (merchant, cat) :: rest =>
      if contains merchant desc_lower then Some cat else scan_merchants desc_lower rest
  end.

(** Everything after the Square special case. *)
Definition categorize_plain (description desc_lower : string) : string :=
  if contains "mobn" desc_lower || startswith desc_lower "mobn transfer"
     || _is_ibft_reference description
  then "Internal Transfer"
  else if any_in salary_signals desc_lower then "Salary & Income"
  else
    match scan_categories desc_lower category_priority with
    | Some category => category
    | None =>
        if any_in ["taxi"; "uber"; "careem"; "rta"; "bolt"; "indrive"; "yango"] desc_lower
        then "Transportation & Logistics"
        else if any_in ["restaurant"; "cafe"; "food"; "dining"; "eat";
                        "talabat"; "zomato"; "deliveroo"; "mrsool"; "marsool"] desc_lower
        then "Food & Beverage"
        else if any_in ["mall"; "shop"; "store"; "retail"; "noon"; "amazon"] desc_lower
        then "Retail & Shopping"
        else
          match scan_merchants desc_lower merchant_patterns with
          | Some cat => cat
          | None => "Other"
          end
    end.

(** The classifier calls itself on the merchant that follows [SQ *].
    [depth] is the number of calls, one inside the other, that the
    interpreter still allows; [None] is the RecursionError raised when
    they are used up. *)
Fixpoint categorize_depth (depth : nat) (description : string) : option string :=
  match depth with
  | O => None
  | S depth' =>
      let desc_lower := strip (lower description) in
      match re_match false (re_square "sq") desc_lower with
      | Some sq_match =>
          let merchant_after_sq := strip (grp 1 sq_match) in
          match categorize_depth depth' merchant_after_sq with
          | Some cat =>
              if negb (cat =? "Other") then Some cat else Some "Retail & Shopping"
          | None => None
          end
      | None => Some (categorize_plain description desc_lower)
      end
  end.

(** The classifier when the limit of the interpreter is not reached: each
    nested call works on a strictly shorter text, so a depth of one more
    than the length of the description is never exhausted
    ([categorize_transaction_total] below). *)
Definition categorize_transaction (description : string) : option string :=
  categorize_depth (S (String.length description)) description.

(** ** Worksheets, column maps and transaction records *)

Record worksheet : Type := mkSheet {
  max_row : nat;
  max_column : nat;
  cell_at : nat -> nat -> cell          (* [worksheet.cell(row, col).value] *)
}.

(** The keys of the dictionary returned by [find_data_headers]. *)
Inductive key : Type :=
| header_row | date_col | description_col | type_col | reference_col
| debit_col | credit_col | amount_col.

Definition key_eqb (a b : key) : bool :=
  match a, b with
  | header_row, header_row | date_col, date_col
  | description_col, description_col | type_col, type_col
  | reference_col, reference_col | debit_col, debit_col
  | credit_col, credit_col | amount_col, amount_col => true
  | _, _ => false
  end.

Definition column_map : Type := key -> option nat.

Definition no_columns : column_map := fun _ => None.

(** [row_data[k] = v] *)
Definition set_key (k : key) (v : nat) (d : column_map) : column_map :=
  fun k' => if key_eqb k k' then Some v else d k'.

(** [column_map.get(k, default)] *)
Definition get_or (d : column_map) (k : key) (default : nat) : nat :=
  match d k with Some v => v | None => default end.

(** A parsed JSON value, also the type of what a record's category can
    hold once the classifier's answer has been written into it. *)
#[local] Unset Elimination Schemes.
Inductive json : Type :=
| JNull
| JBool (b : bool)
| JNum (q : Q)
| JStr (s : string)
| JArr (items : list json)
| JObj (members : list (string * json)).
#[local] Set Elimination Schemes.

(** The dictionary built for each row of a statement. *)
Record transaction : Type := mkTx {
  Date : string;
  Amount : pyfloat;
  Description : string;
  MerchantName : string;
  Type_ : string;
  Category : json;
  Subcategory : json
}.

(** [range(a, b)] *)
Definition range (a b : nat) : list nat := seq a (b - a).

(** [s.replace(',', '')] *)
Fixpoint remove_commas (s : string) : string :=
  match s with
  | EmptyString => EmptyString
  | String c s' => if Ascii.eqb c "," then remove_commas s' else String c (remove_commas s')
  end.

Definition header_keywords : list string :=
  [ "date"; "amount"; "description"; "particular"; "narration"; "debit";
    "credit"; "balance"; "type"; "reference" ].

(** The [if/elif] chain that gives a header cell its role. *)
Definition header_role (cell_value : string) : option key :=
  if contains "date" cell_value then Some date_col
  else if contains "description" cell_value || contains "particular" cell_value
          || contains "narration" cell_value then Some description_col
  else if contains "type" cell_value then Some type_col
  else if contains "reference" cell_value || contains "ref" cell_value then Some reference_col
  else if contains "debit" cell_value then Some debit_col
  else if contains "credit" cell_value then Some credit_col
  else if contains "amount" cell_value then Some amount_col
  else None.

Definition default_columns : column_map :=
  set_key header_row 1 (set_key date_col 1 (set_key description_col 2
    (set_key debit_col 4 (set_key credit_col 5 no_columns)))).

(** ** [ai_categorize_transactions] *)

(** The closed list of category names given to the external classifier. *)
Definition taxonomy : list string :=
  [ "Internal Transfer"; "Salary & Income"; "Food & Beverage";
    "Transportation & Logistics"; "Retail & Shopping"; "Healthcare";
    "Utilities"; "Entertainment & Media"; "Technology"; "Finance & Banking";
    "Travel & Tourism"; "Professional Services"; "Real Estate"; "Education";
    "Other" ].

(** What one request to the external classifier comes to: an exception
    (transport error, timeout, missing content, text that [json.loads]
    rejects) or the value [json.loads] returns. *)
Inductive outcome : Type :=
| Raised
| Parsed (v : json).

Definition batch_size : nat := 50.

(** [l[a:b]] *)
Definition slice {A} (a b : nat) (l : list A) : list A := firstn (b - a) (skipn a l).

(** The starts of the first [k] batches. *)
Definition starts (k : nat) : list nat := map (fun k => k * batch_size) (seq 0 k).

(** [range(0, n, batch_size)] *)
Definition batch_starts (n : nat) : list nat :=
  map (fun k => k * batch_size) (seq 0 ((n + (batch_size - 1)) / batch_size)).

(** The [while] loop that pads a short answer with the categories the
    records already have; it runs at most [len(batch)] times. *)
Fixpoint pad (turns : nat) (ai_categories : list json) (batch : list transaction)
  : list json :=
  match turns with
  | O => ai_categories
  | S turns' =>
      if (List.length ai_categories <? List.length batch)%nat then
        match nth_error batch (List.length ai_categories) with
        | Some tx => pad turns' (ai_categories ++ [Category tx])%list batch
        | None => ai_categories
        end
      else ai_categories
  end.

(** [tx['Category'] = c; tx['Subcategory'] = c] *)
Definition set_category (tx : transaction) (c : json) : transaction :=
  {| Date := Date tx; Amount := Amount tx; Description := Description tx;
     MerchantName := MerchantName tx; Type_ := Type_ tx;
     Category := c; Subcategory := c |}.

(** The [for idx, tx in enumerate(batch)] loop. *)
Fixpoint apply_from (idx : nat) (ai_categories : list json) (batch : list transaction)
  : list transaction :=
  match batch with
  | [] => []
  | tx :: rest =>
      match nth_error ai_categories idx with
      | Some c => set_category tx c
      | None => tx
      end :: apply_from (S idx) ai_categories rest
  end.

(** The items of a JSON string under indexing: its characters. *)
Definition chars (s : string) : list json :=
  map (fun c => JStr (String c EmptyString)) (list_ascii_of_string s).

(** The body of the inner [try] for one batch.  A JSON array is padded and
    applied.  A JSON string can be indexed but not appended to, so it is
    applied when long enough and raises AttributeError otherwise.  A JSON
    object raises (AttributeError on [append], KeyError on [[0]]), the
    other values have no [len]: in these cases the handler keeps the batch. *)
Definition refine_batch (o : outcome) (batch : list transaction) : list transaction :=
  match o with
  | Raised => batch
  | Parsed (JArr items) => apply_from 0 (pad (List.length batch) items batch) batch
  | Parsed (JStr s) =>
      if (String.length s <? List.length batch)%nat then batch
      else apply_from 0 (chars s) batch
  | Parsed _ => batch
  end.

(** [api_key] tells whether [openai.api_key] is set; [classify i batch] is
    the outcome of the request made for the batch that starts at index [i].
    The records are dictionaries changed in place; [process_excel_file]
    builds a new one for each row, so no two positions of the list share a
    record and the list of values below stands for the list of objects.
    Nothing outside the inner [try] can raise, so the outer handler is
    never entered. *)
Definition ai_categorize_transactions (api_key : bool)
    (classify : nat -> list transaction -> outcome)
    (transactions : list transaction) : list transaction :=
  if negb api_key || (List.length transactions =? 0)%nat then transactions
  else
    flat_map
      (fun i =>
         let batch := slice i (i + batch_size) transactions in
         refine_batch (classify i batch) batch)
      (batch_starts (List.length transactions)).

Section Pipeline.

(** [float(s)] on text, [None] standing for ValueError. *)
Variable float : string -> option pyfloat.
(** [str(x)] of a numeric cell value. *)
Variable str_num : Q -> string.
(** [datetime.now()] at the time of the call. *)
Variable now : datetime.

(** [str(v)] *)
Definition str (v : cell) : string :=
  match v with
  | VNone => "None"
  | VStr s => s
  | VNum q => str_num q
  | VDate d => str_datetime d
  end.

(** [v or default] *)
Definition or_else (v : cell) (default : string) : cell :=
  if truthy v then v else VStr default.

(** ** [detect_date_format] *)

Definition detect_date_format (date_string : cell) (currency : string) : string :=
  match date_string with
  | VDate d => strftime_ymd d
  | _ =>
      let date_str := strip (str date_string) in
      match re_match false re_mdy_short date_str with
      | Some m =>
          let month := grp 1 m in
          let day := grp 2 m in
          let year := grp 3 m in
          let full_year := if (int year <? 50)%nat then "20" ++ year else "19" ++ year in
          full_year ++ "-" ++ zfill 2 month ++ "-" ++ zfill 2 day
      | None =>
      match re_match false re_iso date_str with
      | Some m => grp 1 m ++ "-" ++ zfill 2 (grp 2 m) ++ "-" ++ zfill 2 (grp 3 m)
      | None =>
      match re_match false re_slash_long date_str with
      | Some m =>
          let first := int (grp 1 m) in
          let second := int (grp 2 m) in
          let year := grp 3 m in
          if (12 <? first)%nat then year ++ "-" ++ zfill 2 (grp 2 m) ++ "-" ++ zfill 2 (grp 1 m)
          else if (12 <? second)%nat then year ++ "-" ++ zfill 2 (grp 1 m) ++ "-" ++ zfill 2 (grp 2 m)
          else if currency =? "USD"
               then year ++ "-" ++ zfill 2 (grp 1 m) ++ "-" ++ zfill 2 (grp 2 m)
               else year ++ "-" ++ zfill 2 (grp 2 m) ++ "-" ++ zfill 2 (grp 1 m)
      | None => strftime_ymd now
      end end end
  end.

(** ** [find_data_headers] *)

(** The text the header scan looks at in one cell. *)
Definition header_text (ws : worksheet) (row col : nat) : string :=
  strip (lower (str (or_else (cell_at ws row col) ""))).

(** [cell_value and any(keyword in cell_value for keyword in header_keywords)] *)
Definition is_header_cell (cell_value : string) : bool :=
  negb (is_empty cell_value) && any_in header_keywords cell_value.

(** One turn of the inner loop: the state is [(row_data, header_count)]. *)
Definition scan_cell (ws : worksheet) (row : nat) (st : column_map * nat) (col : nat)
  : column_map * nat :=
  let cell_value := header_text ws row col in
  if is_header_cell cell_value then
    (match header_role cell_value with
     | Some k => set_key k col (fst st)
     | None => fst st
     end, S (snd st))
  else st.

Definition scanned_columns (ws : worksheet) : list nat :=
  range 1 (Nat.min (max_column ws + 1) 10).

Definition scanned_rows (ws : worksheet) : list nat :=
  range 1 (Nat.min 20 (max_row ws + 1)).

Definition scan_row (ws : worksheet) (row : nat) : column_map * nat :=
  fold_left (scan_cell ws row) (scanned_columns ws) (no_columns, 0).

Fixpoint find_in_rows (ws : worksheet) (rows : list nat) : option column_map :=
  match rows with
  | [] => None
  | row :: rest =>
      let (row_data, header_count) := scan_row ws row in
      if (3 <=? header_count)%nat then Some (set_key header_row row row_data)
      else find_in_rows ws rest
  end.

Definition find_data_headers (ws : worksheet) : column_map :=
  match find_in_rows ws (scanned_rows ws) with
  | Some row_data => row_data
  | None => default_columns
  end.

(** ** The row loop of [process_excel_file] *)

(** A column index under [if col:] *)
Definition given (col : option nat) : option nat :=
  match col with
  | Some c => if (c =? 0)%nat then None else Some c
  | None => None
  end.

(** [worksheet.cell(row, col).value if col else None] *)
Definition read (ws : worksheet) (row : nat) (col : option nat) : cell :=
  match given col with
  | Some c => cell_at ws row c
  | None => VNone
  end.

Definition mem (s : string) (l : list string) : bool :=
  existsb (String.eqb s) l.

(** A debit or credit cell that holds something to parse. *)
Definition filled (v : cell) : bool :=
  truthy v && negb (is_empty (strip (str v)))
    && negb (mem (strip (str v)) [""; "-"; "None"]).

(** The amount read from the columns, before the type cell is looked at;
    [None] stands for the ValueError that makes the loop skip the row. *)
Definition column_amount (ws : worksheet) (row : nat) (amount_c : option nat)
    (debit_cell credit_cell : cell) : option pyfloat :=
  match given amount_c with
  | Some c => float (remove_commas (str (or_else (cell_at ws row c) "0")))
  | None =>
      if filled debit_cell
      then option_map (fun x => fneg (fabs x)) (float (remove_commas (str debit_cell)))
      else if filled credit_cell
      then option_map fabs (float (remove_commas (str credit_cell)))
      else Some (Finite 0)
  end.

(** The correction of the sign by the type cell. *)
Definition apply_type (type_cell : cell) (amount : pyfloat) : pyfloat :=
  if truthy type_cell then
    let type_val := lower (strip (str type_cell)) in
    if mem type_val ["withdrawal"; "debit"; "dr"; "debit card purchase"]
    then fneg (fabs amount)
    else if mem type_val ["deposit"; "credit"; "cr"]
    then fabs amount
    else amount
  else amount.

(** The columns a sheet is read with. *)
Record columns : Type := mkCols {
  c_header : nat; c_date : nat; c_desc : nat; c_type : option nat;
  c_debit : nat; c_credit : nat; c_amount : option nat
}.

Definition columns_of (cm : column_map) : columns :=
  {| c_header := get_or cm header_row 1;
     c_date := get_or cm date_col 1;
     c_desc := get_or cm description_col 2;
     c_type := cm type_col;
     c_debit := get_or cm debit_col 4;
     c_credit := get_or cm credit_col 5;
     c_amount := cm amount_col |}.

(** The body of the row loop; [None] is a skipped row ([continue]), [count]
    is [len(all_transactions)] when the row is reached.  The classifier is
    [categorize_transaction], the calls below the limit of the interpreter,
    which always answers ([categorize_transaction_total] below), so the two
    [None] branches after it are never taken. *)
Definition process_row (ws : worksheet) (cols : columns) (currency : string)
    (count : nat) (row : nat) : option transaction :=
  let date_cell := read ws row (Some (c_date cols)) in
  let description_cell := read ws row (Some (c_desc cols)) in
  let type_cell := read ws row (c_type cols) in
  let debit_cell := read ws row (Some (c_debit cols)) in
  let credit_cell := read ws row (Some (c_credit cols)) in
  if negb (truthy date_cell) then None
  else if any_in ["TOTAL"; "SUMMARY"; "BALANCE"; "OPENING"; "CLOSING"; "NET"; "FLOW"]
            (upper (str date_cell)) then None
  else if truthy description_cell
          && any_in ["TOTAL"; "SUMMARY"; "MONTHLY"; "NET FLOW"; "NET DEBIT"; "NET CREDIT"]
               (upper (str description_cell)) then None
  else
    let date_str := detect_date_format date_cell currency in
    match column_amount ws row (c_amount cols) debit_cell credit_cell with
    | None => None
    | Some amount =>
        let amount := apply_type type_cell amount in
        if is_zero amount then None
        else
          let raw_description :=
            if truthy description_cell then strip (str description_cell)
            else "Transaction " ++ str_nat (count + 1) in
          let merchant_name := extract_merchant_name raw_description in
          match categorize_transaction merchant_name with
          | None => None
          | Some category =>
              match (if category =? "Other"
                     then categorize_transaction raw_description
                     else Some category) with
              | None => None
              | Some category =>
                  let transaction_type :=
                    if truthy type_cell then strip (str type_cell)
                    else if is_negative amount then "Withdrawal" else "Deposit" in
                  Some {| Date := date_str;
                          Amount := amount;
                          Description := raw_description;
                          MerchantName := merchant_name;
                          Type_ := transaction_type;
                          Category := JStr category;
                          Subcategory := JStr category |}
              end
          end
    end.

(** The row loop, appending to [all_transactions]. *)
Definition scan_rows (ws : worksheet) (cols : columns) (currency : string)
    (rows : list nat) (all_transactions : list transaction) : list transaction :=
  fold_left
    (fun all_transactions row =>
       match process_row ws cols currency (List.length all_transactions) row with
       | Some transaction => (all_transactions ++ [transaction])%list
       | None => all_transactions
       end)
    rows all_transactions.

(** The scan of one sheet: the headers, then the rows below them. *)
Definition process_sheet (currency : string) (all_transactions : list transaction)
    (ws : worksheet) : list transaction :=
  let cols := columns_of (find_data_headers ws) in
  scan_rows ws cols currency (range (c_header cols + 1) (max_row ws + 1)) all_transactions.

(** The transaction sheets of a workbook, then the refiner over all records. *)
Definition process_sheets (currency : string) (sheets : list worksheet)
    (api_key : bool) (classify : nat -> list transaction -> outcome)
  : list transaction :=
  let all_transactions := fold_left (process_sheet currency) sheets [] in
  if (0 <? List.length all_transactions)%nat
  then ai_categorize_transactions api_key classify all_transactions
  else all_transactions.

End Pipeline.

(** ** Vocabulary of the statements *)

(** A string of decimal digits *)
Definition digits (s : string) : bool := all_chars is_digit s.

(** A name of the closed taxonomy *)
Definition is_category (s : string) : bool := existsb (String.eqb s) taxonomy.

(** A category field that holds a name of the closed taxonomy *)
Definition in_taxonomy (v : json) : bool :=
  match v with JStr s => is_category s | _ => false end.

(** Four digits, a hyphen, two digits, a hyphen, two digits *)
Definition iso_shape (s : string) : bool :=
  match s with
  | String y1 (String y2 (String y3 (String y4 (String h1
      (String m1 (String m2 (String h2 (String d1 (String d2 EmptyString))))))))) =>
      is_digit y1 && is_digit y2 && is_digit y3 && is_digit y4 && Ascii.eqb h1 "-"
      && is_digit m1 && is_digit m2 && Ascii.eqb h2 "-" && is_digit d1 && is_digit d2
  | _ => false
  end.

Definition is_leap (y : nat) : bool :=
  (y mod 4 =? 0)%nat && (negb (y mod 100 =? 0)%nat || (y mod 400 =? 0)%nat).

Definition days_in_month (y m : nat) : nat :=
  match m with
  | 1 | 3 | 5 | 7 | 8 | 10 | 12 => 31
  | 4 | 6 | 9 | 11 => 30
  | 2 => if is_leap y then 29 else 28
  | _ => 0
  end.

(** A text [YYYY-MM-DD] that names a day of the calendar *)
Definition valid_iso_date (s : string) : bool :=
  iso_shape s &&
  (let y := int (take 4 s) in
   let m := int (take 2 (drop 5 s)) in
   let d := int (drop 8 s) in
   (1 <=? y)%nat && (1 <=? m)%nat && (m <=? 12)%nat
   && (1 <=? d)%nat && (d <=? days_in_month y m)%nat).

(** A [datetime] with a year of four digits; the month and the day within
    the bounds the type enforces. *)
Definition well_formed (d : datetime) : Prop :=
  1000 <= year d < 100 * 100 /\ 1 <= month d <= 12 /\ 1 <= day d <= 31.

(** A header cell: a cell the header scan counts. *)
Definition is_hit (str_num : Q -> string) (ws : worksheet) (row col : nat) : bool :=
  is_header_cell (header_text str_num ws row col).

(** The value [header_count] reaches on a row. *)
Definition hits (str_num : Q -> string) (ws : worksheet) (row : nat) : nat :=
  List.length (filter (is_hit str_num ws row) (scanned_columns ws)).

(** The header cell in column [col] is given the role [k] by the [if/elif] chain. *)
Definition assigned (str_num : Q -> string) (ws : worksheet) (row : nat) (k : key)
    (col : nat) : bool :=
  is_hit str_num ws row col
  && match header_role (header_text str_num ws row col) with
     | Some k' => key_eqb k' k
     | None => false
     end.

(** The category names an answer of the classifier supplies. *)
Definition answer_items (o : outcome) : list json :=
  match o with
  | Parsed (JArr items) => items
  | Parsed (JStr s) => chars s
  | _ => []
  end.

(** [tx'] is the record [tx], possibly with another category: either the
    one it had, or one the answer [o] supplies. *)
Definition refined (o : outcome) (tx tx' : transaction) : Prop :=
  tx' = tx
  \/ exists c, tx' = set_category tx c /\ (c = Category tx \/ In c (answer_items o)).

(** The same with the place [j] of the record in its batch: the category
    the answer supplies is its entry number [j]. *)
Definition refined_in_place (o : outcome) (j : nat) (tx tx' : transaction) : Prop :=
  tx' = tx
  \/ exists c, tx' = set_category tx c
               /\ (c = Category tx \/ nth_error (answer_items o) j = Some c).

(** Everything but the category fields is the same. *)
Definition same_identity (tx tx' : transaction) : Prop :=
  Date tx' = Date tx /\ Amount tx' = Amount tx /\ Description tx' = Description tx
  /\ MerchantName tx' = MerchantName tx /\ Type_ tx' = Type_ tx.


(** The text the date patterns are tried on. *)
Definition date_text (str_num : Q -> string) (v : cell) : string :=
  strip (str str_num v).

(** None of the three date formats applies. *)
Definition unparseable (str_num : Q -> string) (v : cell) : Prop :=
  (forall d, v <> VDate d)
  /\ re_match false re_mdy_short (date_text str_num v) = None
  /\ re_match false re_iso (date_text str_num v) = None
  /\ re_match false re_slash_long (date_text str_num v) = None.

(** The last element of a list that satisfies [f], after [init]. *)
Definition last_where (f : nat -> bool) (l : list nat) (init : option nat) : option nat :=
  fold_left (fun acc c => if f c then Some c else acc) l init.

Section RowVocabulary.

Variable float : string -> option pyfloat.
Variable str_num : Q -> string.
Variable ws : worksheet.
Variable cols : columns.

(** The cells the loop reads in a row. *)
Definition date_cell (row : nat) : cell := read ws row (Some (c_date cols)).
Definition description_cell (row : nat) : cell := read ws row (Some (c_desc cols)).
Definition type_cell (row : nat) : cell := read ws row (c_type cols).
Definition debit_cell (row : nat) : cell := read ws row (Some (c_debit cols)).
Definition credit_cell (row : nat) : cell := read ws row (Some (c_credit cols)).

(** The amount the columns give for a row. *)
Definition amount_of_columns (row : nat) : option pyfloat :=
  column_amount float str_num ws row (c_amount cols) (debit_cell row) (credit_cell row).

(** The type cell as the sign correction reads it. *)
Definition type_val (row : nat) : string := lower (strip (str str_num (type_cell row))).

(** The row is not dropped as empty or as a summary line. *)
Definition passes_filters (row : nat) : bool :=
  truthy (date_cell row)
  && negb (any_in ["TOTAL"; "SUMMARY"; "BALANCE"; "OPENING"; "CLOSING"; "NET"; "FLOW"]
             (Py.upper (str str_num (date_cell row))))
  && negb (truthy (description_cell row)
           && any_in ["TOTAL"; "SUMMARY"; "MONTHLY"; "NET FLOW"; "NET DEBIT"; "NET CREDIT"]
                (Py.upper (str str_num (description_cell row)))).

(** The text kept as description. *)
Definition raw_description_of (count row : nat) : string :=
  if truthy (description_cell row) then strip (str str_num (description_cell row))
  else "Transaction " ++ str_nat (count + 1).

End RowVocabulary.

Section BatchVocabulary.

Variable api_key : bool.
Variable classify : nat -> list transaction -> outcome.
Variable transactions : list transaction.

(** The batch that starts at [i], and what the refiner makes of it. *)
Definition batch_at (i : nat) : list transaction :=
  slice i (i + batch_size) transactions.

Definition refined_at (i : nat) : list transaction :=
  if api_key then refine_batch (classify i (batch_at i)) (batch_at i) else batch_at i.

End BatchVocabulary.

(** *** An instance of the parameters, for the examples

    [decimal] reads an optional sign and then nan, inf, infinity or a plain
    decimal numeral, digits and an optional fraction; [show_number] prints
    the integer part of a number. *)

Fixpoint split_dot (s : string) : string * option string :=
  match s with
  | EmptyString => (EmptyString, None)
  | String c s' =>
      if Ascii.eqb c "." then (EmptyString, Some s')
      else let (a, b) := split_dot s' in (String c a, b)
  end.

Definition decimal (s : string) : option pyfloat :=
  let s := strip s in
  let (negative, body) :=
    match s with
    | String "-" r => (true, r)
    | String "+" r => (false, r)
    | _ => (false, s)
    end in
  if lower body =? "nan" then Some NaN
  else if existsb (String.eqb (lower body)) ["inf"; "infinity"]
  then Some (Infinite negative)
  else
    let (whole, rest) := split_dot body in
    let frac := match rest with Some f => f | None => EmptyString end in
    if digits whole && digits frac && negb (is_empty (whole ++ frac)) then
      let n := Z.of_nat (int (whole ++ frac)) in
      Some (Finite (Qmake (if negative then - n else n)%Z
                          (Pos.of_nat (10 ^ String.length frac))))
    else None.

Definition show_number (q : Q) : string :=
  let whole := (Z.abs (Qnum q) / Zpos (Qden q))%Z in
  (if (Qnum q <? 0)%Z then "-" else "") ++ str_nat (Z.to_nat whole).

Definition example_now : datetime := mkDate 2026 11 3 9 30 0.

(** A sheet given by its rows, cells numbered from 1. *)
Definition sheet_of (rows : list (list cell)) : worksheet :=
  {| max_row := List.length rows;
     max_column := fold_right (fun r n => Nat.max (List.length r) n) 0 rows;
     cell_at := fun row col =>
       match row, col with
       | S r, S c => nth c (nth r rows []) VNone
       | _, _ => VNone
       end |}.

(** A header row with two date columns. *)
Definition two_dates_sheet : worksheet :=
  sheet_of [ [VStr "Date"; VStr "Value Date"; VStr "Description"; VStr "Amount"];
             [VStr "15/01/2025"; VStr "16/01/2025"; VStr "SALARY - ACME LLC"; VStr "5000.00"] ].

(** A statement with a row that has no description. *)
Definition missing_description_sheet : worksheet :=
  sheet_of [ [VStr "Date"; VStr "Description"; VStr "Debit"; VStr "Credit"];
             [VStr "15/01/2025"; VNone; VNone; VStr "5000.00"];
             [VStr "16/01/2025"; VStr "CHECKCARD 1205 CARREFOUR DXB"; VStr "150.00"; VNone] ].

(** A statement with a description made of white space. *)
Definition blank_description_sheet : worksheet :=
  sheet_of [ [VStr "Date"; VStr "Description"; VStr "Debit"; VStr "Credit"];
             [VStr "15/01/2025"; VStr "   "; VNone; VStr "5000.00"] ].

(** A statement with a type column and a single amount column. *)
Definition typed_sheet : worksheet :=
  sheet_of [ [VStr "Date"; VStr "Description"; VStr "Type"; VStr "Amount"];
             [VStr "15/01/2025"; VStr "CARREFOUR DXB"; VStr " Debit "; VStr "150.00"];
             [VStr "16/01/2025"; VStr "SALARY - ACME LLC"; VStr "CR"; VStr "-5000.00"];
             [VStr "17/01/2025"; VStr "NOON.COM"; VStr "POS Purchase"; VStr "-80.00"];
             [VStr "18/01/2025"; VStr "DEWA"; VNone; VStr "-120.50"] ].


(** A statement whose type cell holds a text that is none of the listed
    words, with white space around it. *)
Definition spaced_type_sheet : worksheet :=
  sheet_of [ [VStr "Date"; VStr "Description"; VStr "Type"; VStr "Amount"];
             [VStr "15/01/2025"; VStr "CARREFOUR DXB"; VStr " POS Purchase ";
              VStr "-80.00"] ].

(** A statement whose debit cell holds the text [nan]. *)
Definition nan_debit_sheet : worksheet :=
  sheet_of [ [VStr "Date"; VStr "Description"; VStr "Debit"; VStr "Credit"];
             [VStr "15/01/2025"; VStr "CARREFOUR DXB"; VStr "nan"; VNone] ].

(** Two records as the row loop builds them, and answers of the classifier. *)
Definition example_records : list transaction :=
  [ mkTx "2025-01-15" (Finite (-15000 # 100)) "CARREFOUR DXB" "Carrefour Dxb" "Withdrawal"
      (JStr "Food & Beverage") (JStr "Food & Beverage");
    mkTx "2025-01-18" (Finite (-12050 # 100)) "DEWA" "Dewa" "Withdrawal"
      (JStr "Utilities") (JStr "Utilities") ].

(** An answer shorter than the batch. *)
Definition short_answer : nat -> list transaction -> outcome :=
  fun _ _ => Parsed (JArr [JStr "Retail & Shopping"]).

(** An answer with a name that is not in the taxonomy. *)
Definition foreign_answer : nat -> list transaction -> outcome :=
  fun _ _ => Parsed (JArr [JStr "Groceries"; JStr "Utilities"]).

(** The columns found in the example sheets. *)
Definition typed_columns : columns :=
  columns_of (find_data_headers show_number typed_sheet).

Definition missing_description_columns : columns :=
  columns_of (find_data_headers show_number missing_description_sheet).


Definition spaced_type_columns : columns :=
  columns_of (find_data_headers show_number spaced_type_sheet).

Definition nan_debit_columns : columns :=
  columns_of (find_data_headers show_number nan_debit_sheet).

(** ** Vocabulary of the matcher *)

(** The text does not go on with a character of the class. *)
Definition stops (ic : bool) (p : ascii -> bool) (s : string) : Prop :=
  match s with
  | EmptyString => True
  | String x _ => cls_ok ic p x = false
  end.

(** A map of characters the matcher cannot tell from the identity on the
    pattern [r]: every class and every literal of the pattern takes a
    character and its image alike. *)
Fixpoint blind (ic : bool) (f : ascii -> ascii) (r : regex) : Prop :=
  match r with
  | Eps | Bol | Eol | Wordb => True
  | Chr c => forall x, chr_ok ic c (f x) = chr_ok ic c x
  | Cls p => forall x, cls_ok ic p (f x) = cls_ok ic p x
  | Rep _ _ _ p => forall x, cls_ok ic p (f x) = cls_ok ic p x
  | Cat r1 r2 | Alt r1 r2 => blind ic f r1 /\ blind ic f r2
  | Opt r1 | Grp _ r1 => blind ic f r1
  end.

(** A map that keeps word characters, white space and line feeds what they
    are, as the change of case does. *)
Definition keeps_kinds (f : ascii -> ascii) : Prop :=
  (forall c, is_word (f c) = is_word c)
  /\ (forall c, is_space (f c) = is_space c)
  /\ (forall c, Ascii.eqb (f c) "010" = Ascii.eqb c "010").

(** The groups of a match on the mapped text. *)
Definition cmap (f : ascii -> ascii) (cs : caps) : caps :=
  map (fun ng => (fst ng, smap f (snd ng))) cs.

(** [a] occurs in [b]. *)
Definition part_of (a b : string) : Prop :=
  exists pre post, b = pre ++ a ++ post.

(** Every match of the pattern takes a character of the class [P]. *)
Fixpoint needs (ic : bool) (P : ascii -> bool) (r : regex) : Prop :=
  match r with
  | Eps | Bol | Eol | Wordb | Opt _ => False
  | Chr c => forall x, chr_ok ic c x = true -> P x = true
  | Cls p => forall x, cls_ok ic p x = true -> P x = true
  | Rep _ lo _ p => 1 <= lo /\ forall x, cls_ok ic p x = true -> P x = true
  | Cat r1 r2 => needs ic P r1 \/ needs ic P r2
  | Alt r1 r2 => needs ic P r1 /\ needs ic P r2
  | Grp _ r1 => needs ic P r1
  end.

(** ** Names the normalizer leaves as they are *)

(** The first words of the prefix patterns of step 1. *)
Definition prefix_words : list string :=
  [ "CHECKCARD"; "MOBILE"; "POS"; "RECURRING"; "ONLINE"; "DEBIT"; "ACH"; "WIRE";
    "ZELLE"; "VENMO"; "PAYPAL"; "DIRECT"; "ATM" ].

(** The text begins, in any letter case, with the word [w] and white space
    after it. *)
Definition begins_word (w s : string) : bool :=
  prefix w (upper s)
  && match drop (String.length w) s with
     | String c _ => is_space c
     | EmptyString => false
     end.

(** The first [n] characters of the text are of the class [p]. *)
Fixpoint begins_run (p : ascii -> bool) (n : nat) (s : string) : bool :=
  match n with
  | O => true
  | S n' =>
      match s with
      | String c s' => p c && begins_run p n' s'
      | EmptyString => false
      end
  end.

(** The text has [n] characters of the class [p] in a row. *)
Fixpoint has_run (p : ascii -> bool) (n : nat) (s : string) : bool :=
  begins_run p n s
  || match s with
     | String _ s' => has_run p n s'
     | EmptyString => false
     end.

(** The characters steps 2, 3, 4, 6 and 7 of the normalizer look for: a
    digit, the number sign of a store number, the star of a Square payment. *)
Definition marker (c : ascii) : bool :=
  is_digit c || one "#" c || one "*" c.

(** A plain name: ASCII text, not empty, of at most 60 characters, with no
    white space around it, title-cased, without digit, number sign or star,
    that does not begin with one of the prefix words and white space, does
    not hold the word RECURRING in any letter case, and has no ten
    hexadecimal digits in a row. *)
Definition plain_name (r : string) : bool :=
  ascii_text r && negb (is_empty r) && (String.length r <=? 60)%nat
  && (strip r =? r) && (title r =? r)
  && all_chars (fun c => negb (marker c)) r
  && forallb (fun w => negb (begins_word w r)) prefix_words
  && negb (contains "RECURRING" (upper r))
  && negb (has_run hexdigit 10 r).

(** ** [detect_bank] *)

(** [self.bank_patterns], in insertion order *)
Definition bank_patterns : list (string * list string) :=
  [ ("ADCB", ["abu dhabi commercial bank"; "adcb"]);
    ("FAB", ["first abu dhabi bank"; "fab"]);
    ("ENBD", ["emirates nbd"; "enbd"]);
    ("MASHREQ", ["mashreq bank"; "mashreq"]);
    ("CBD", ["commercial bank of dubai"; "cbd"]);
    ("HSBC", ["hsbc"]);
    ("RAKBANK", ["rak bank"; "rakbank"]);
    ("ADIB", ["abu dhabi islamic bank"; "adib"]);
    ("BOA", ["bank of america"; "bofa"; "boa"; "b of a"]);
    ("CHASE", ["chase"; "jp morgan chase"; "jpmorgan"]);
    ("WELLS", ["wells fargo"; "wells"]);
    ("CITI", ["citibank"; "citi"]) ].

(** The dictionary of full names inside [detect_bank] *)
Definition bank_names : list (string * string) :=
  [ ("ADCB", "Abu Dhabi Commercial Bank");
    ("FAB", "First Abu Dhabi Bank");
    ("ENBD", "Emirates NBD");
    ("MASHREQ", "Mashreq Bank");
    ("CBD", "Commercial Bank of Dubai");
    ("HSBC", "HSBC Bank Middle East");
    ("RAKBANK", "RAKBank");
    ("ADIB", "Abu Dhabi Islamic Bank");
    ("BOA", "Bank of America");
    ("CHASE", "Chase Bank");
    ("WELLS", "Wells Fargo");
    ("CITI", "Citibank") ].

(** [d.get(k)] on a dictionary with string keys, kept in insertion order *)
Fixpoint lookup {A : Type} (k : string) (d : list (string * A)) : option A :=
  match d with
  | [] => None
  | (k', v) :: d' => if k =? k' then Some v else lookup k d'
  end.

(** [names.get(bank_code, f'{bank_code} Bank')] *)
Definition full_name (bank_code : string) : string :=
  match lookup bank_code bank_names with
  | Some name => name
  | None => bank_code ++ " Bank"
  end.

(** The two loops of [detect_bank]: the first bank of the table one of
    whose patterns occurs in the text. *)
Fixpoint detect_bank_in (banks : list (string * list string)) (text_lower : string)
  : string :=
  match banks with
  | [] => "Unknown Bank"
  | (bank_code, patterns) :: rest =>
      if any_in patterns text_lower then full_name bank_code
      else detect_bank_in rest text_lower
  end.

Definition detect_bank (text : string) : string :=
  detect_bank_in bank_patterns (lower text).

(** ** Bank details *)

(** The dictionary [bank_info] *)
Record bank_details : Type := mkBank {
  bank_name : string;
  account_holder : string;
  account_number : string;
  currency : string
}.

(** [len(s.split())]: the number of runs of characters that are not white space *)
Fixpoint count_words (in_word : bool) (s : string) : nat :=
  match s with
  | EmptyString => 0
  | String c s' =>
      if is_space c then count_words false s'
      else (if in_word then 0 else 1) + count_words true s'
  end.

(** [s.replace(c, '')] for a single character *)
Fixpoint remove_char (c : ascii) (s : string) : string :=
  match s with
  | EmptyString => EmptyString
  | String x s' => if Ascii.eqb x c then remove_char c s' else String x (remove_char c s')
  end.

(** [s.split(sep)] for a separator of one character *)
Fixpoint split_char (sep : ascii) (s : string) : list string :=
  match s with
  | EmptyString => [EmptyString]
  | String c s' =>
      if Ascii.eqb c sep then EmptyString :: split_char sep s'
      else match split_char sep s' with
           | part :: parts => String c part :: parts
           | [] => [String c EmptyString]
           end
  end.

(** [any(p(c) for c in s)] *)
Fixpoint any_char (p : ascii -> bool) (s : string) : bool :=
  match s with
  | EmptyString => false
  | String c s' => p c || any_char p s'
  end.

(** [s[-n:]] for [n > 0] *)
Definition last_chars (n : nat) (s : string) : string :=
  drop (String.length s - n) s.

(** [^\d{10,16}$] *)
Definition re_account_number : regex := cat [Bol; upto 10 16 digit; Eol].

(** [cell_value[:4] + '-' + '*' * 4 + '-' + cell_value[-4:]] *)
Definition masked (cell_value : string) : string :=
  take 4 cell_value ++ "-" ++ "****" ++ "-" ++ last_chars 4 cell_value.

Section BankInfo.

Variable float : string -> option pyfloat.
Variable str_num : Q -> string.
Variable now : datetime.

(** ** [extract_bank_info] *)

(** The body of the inner loop for one cell. *)
Definition extract_cell (ws : worksheet) (row : nat) (bank_info : bank_details)
    (col : nat) : bank_details :=
  let cell_value := upper (str str_num (or_else (cell_at ws row col) "")) in
  let name := detect_bank cell_value in
  let bank_info :=
    if negb (mem name ["UAE Bank"; "Unknown Bank"])
    then {| bank_name := name;
            account_holder := account_holder bank_info;
            account_number := account_number bank_info;
            currency := currency bank_info |}
    else bank_info in
  let bank_info :=
    if (2 <=? count_words false cell_value)%nat && (count_words false cell_value <=? 4)%nat
       && negb (any_char is_digit cell_value)
       && any_in ["mr"; "ms"; "mrs"; "dr"] (lower cell_value)
    then {| bank_name := bank_name bank_info;
            account_holder := title cell_value;
            account_number := account_number bank_info;
            currency := currency bank_info |}
    else bank_info in
  match re_match false re_account_number
          (remove_char "-" (remove_char " " cell_value)) with
  | Some _ => {| bank_name := bank_name bank_info;
                 account_holder := account_holder bank_info;
                 account_number := masked cell_value;
                 currency := currency bank_info |}
  | None => bank_info
  end.

Definition extract_row (ws : worksheet) (bank_info : bank_details) (row : nat)
  : bank_details :=
  fold_left (extract_cell ws row) (range 1 (Nat.min 10 (max_column ws + 1))) bank_info.

Definition extract_bank_info (ws : worksheet) : bank_details :=
  fold_left (extract_row ws) (range 1 (Nat.min 21 (max_row ws + 1)))
    (mkBank "UAE Bank" "Account Holder" "XXXX-XXXX-XXXX" "AED").

(** ** The head and the tail of [process_excel_file] *)

(** The currency the dates of a bank's statements are read with. *)
Definition currency_of_bank (detected_bank : string) : string :=
  if contains "America" detected_bank || contains "Chase" detected_bank
     || contains "Wells" detected_bank || contains "Citi" detected_bank
  then "USD" else "AED".

(** One row of the sheet [Account Info]. *)
Definition account_info_row (info_sheet : worksheet) (bank_info : bank_details)
    (row : nat) : bank_details :=
  let field := lower (str str_num (or_else (cell_at info_sheet row 1) "")) in
  let value := str str_num (or_else (cell_at info_sheet row 2) "") in
  if contains "account holder" field && negb (is_empty value) then
    {| bank_name := bank_name bank_info;
       account_holder := value;
       account_number := account_number bank_info;
       currency := currency bank_info |}
  else if contains "account number" field && negb (is_empty value) then
    {| bank_name := bank_name bank_info;
       account_holder := account_holder bank_info;
       account_number := value;
       currency := currency bank_info |}
  else if contains "bank name" field && negb (is_empty value) then
    let detected_bank := detect_bank value in
    if negb (detected_bank =? "Unknown Bank") then
      {| bank_name := detected_bank;
         account_holder := account_holder bank_info;
         account_number := account_number bank_info;
         currency := currency_of_bank detected_bank |}
    else bank_info
  else bank_info.

(** A loaded workbook: its sheets by name, in the order of [sheetnames]. *)
Definition workbook : Type := list (string * worksheet).

Definition read_account_info (wb : workbook) : bank_details :=
  let bank_info := mkBank "Unknown Bank" "Account Holder" "XXXX-XXXX-XXXX" "USD" in
  match lookup "Account Info" wb with
  | Some info_sheet =>
      fold_left (account_info_row info_sheet) (range 1 (max_row info_sheet + 1)) bank_info
  | None => bank_info
  end.

(** What [process_excel_file] returns for a workbook it could load. *)
Record result : Type := mkResult {
  transactions : list transaction;
  bank_info : bank_details;
  total_rows : nat;
  processing_mode : string
}.

Definition transaction_sheets (wb : workbook) : list worksheet :=
  map snd (filter (fun sheet => negb (fst sheet =? "Account Info")) wb).

Definition process_excel_file (wb : workbook) (api_key : bool)
    (classify : nat -> list transaction -> outcome) : result :=
  let bank_info := read_account_info wb in
  let all_transactions :=
    process_sheets float str_num now (currency bank_info) (transaction_sheets wb)
      api_key classify in
  {| transactions := all_transactions;
     bank_info := bank_info;
     total_rows := List.length all_transactions;
     processing_mode := "Dynamic Excel Processing with AI Categorization" |}.

End BankInfo.

(** The bank and the currency of the details go together: no bank and
    dollars, or a bank of the dictionary and the currency chosen for it. *)
Definition paired (bank_info : bank_details) : Prop :=
  (bank_name bank_info = "Unknown Bank" /\ currency bank_info = "USD")
  \/ (exists bank_code, In (bank_code, bank_name bank_info) bank_names)
     /\ currency bank_info = currency_of_bank (bank_name bank_info).

(** What [extract_bank_info] keeps true of the details it builds. *)
Definition masked_number (s : string) : Prop :=
  s = "XXXX-XXXX-XXXX"
  \/ exists cell_value,
       s = masked cell_value /\ 10 <= String.length cell_value
       /\ String.length s = 14.

Definition extracted (bank_info : bank_details) : Prop :=
  currency bank_info = "AED"
  /\ (bank_name bank_info = "UAE Bank"
      \/ exists bank_code, In (bank_code, bank_name bank_info) bank_names)
  /\ any_char is_digit (account_holder bank_info) = false
  /\ masked_number (account_number bank_info).

(** What holds of a record whatever the sheets and the classifier: an
    amount other than zero, a date of ISO shape, the merchant name taken from
    the description and at most sixty characters long, the subcategory
    equal to the category. *)
Definition well_built (tx : transaction) : Prop :=
  is_zero (Amount tx) = false
  /\ iso_shape (Date tx) = true
  /\ MerchantName tx = extract_merchant_name (Description tx)
  /\ String.length (MerchantName tx) <= 60
  /\ Subcategory tx = Category tx.

(** Every native date of the workbook is a date of the calendar type. *)
Definition dates_well_formed (wb : workbook) : Prop :=
  forall name ws row col d,
    In (name, ws) wb -> cell_at ws row col = VDate d -> well_formed d.

(** Every cell of the sheet prints as ASCII text. *)
Definition ascii_sheet (str_num : Q -> string) (ws : worksheet) : Prop :=
  forall row col, ascii_text (str str_num (cell_at ws row col)) = true.

(** Every cell of the workbook prints as ASCII text. *)
Definition ascii_cells (str_num : Q -> string) (wb : workbook) : Prop :=
  forall name ws row col,
    In (name, ws) wb -> ascii_text (date_text str_num (cell_at ws row col)) = true.

(** ** The upload handler of [app.py] *)

Module App.

Record config : Type := mkConfig {
  country : string; currency : string; code : string
}.

Definition GLOBAL_BANK_CONFIG : list (string * config) :=
  [ ("abu dhabi commercial bank", mkConfig "UAE" "AED" "ADCB");
    ("adcb", mkConfig "UAE" "AED" "ADCB");
    ("first abu dhabi bank", mkConfig "UAE" "AED" "FAB");
    ("fab", mkConfig "UAE" "AED" "FAB");
    ("emirates nbd", mkConfig "UAE" "AED" "ENBD");
    ("enbd", mkConfig "UAE" "AED" "ENBD");
    ("mashreq bank", mkConfig "UAE" "AED" "MASHREQ");
    ("mashreq", mkConfig "UAE" "AED" "MASHREQ");
    ("commercial bank of dubai", mkConfig "UAE" "AED" "CBD");
    ("cbd", mkConfig "UAE" "AED" "CBD");
    ("hsbc uae", mkConfig "UAE" "AED" "HSBC");
    ("hsbc middle east", mkConfig "UAE" "AED" "HSBC");
    ("abu dhabi islamic bank", mkConfig "UAE" "AED" "ADIB");
    ("adib", mkConfig "UAE" "AED" "ADIB");
    ("bank of america", mkConfig "USA" "USD" "BOA");
    ("chase bank", mkConfig "USA" "USD" "CHASE");
    ("wells fargo", mkConfig "USA" "USD" "WF");
    ("citibank", mkConfig "USA" "USD" "CITI");
    ("barclays", mkConfig "UK" "GBP" "BARCLAYS");
    ("lloyds", mkConfig "UK" "GBP" "LLOYDS");
    ("hsbc uk", mkConfig "UK" "GBP" "HSBC");
    ("state bank of india", mkConfig "India" "INR" "SBI");
    ("hdfc bank", mkConfig "India" "INR" "HDFC");
    ("icici bank", mkConfig "India" "INR" "ICICI");
    ("deutsche bank", mkConfig "Germany" "EUR" "DB");
    ("bnp paribas", mkConfig "France" "EUR" "BNP");
    ("ing bank", mkConfig "Netherlands" "EUR" "ING") ].

(** What [detect_bank_and_currency] returns *)
Record detection : Type := mkDetection {
  detected_name : string;        (* 'bank_name' *)
  detected_country : string;     (* 'country' *)
  detected_currency : string;    (* 'currency' *)
  detected_code : string         (* 'bank_code' *)
}.

Fixpoint detect_in (banks : list (string * config)) (text_lower : string) : detection :=
  match banks with
  | [] => mkDetection "Unknown Bank" "Unknown" "USD" "UNKNOWN"
  | (bank_key, bank_info) :: rest =>
      if contains bank_key text_lower
      then mkDetection (title bank_key) (country bank_info) (currency bank_info)
             (code bank_info)
      else detect_in rest text_lower
  end.

Definition detect_bank_and_currency (text : string) : detection :=
  detect_in GLOBAL_BANK_CONFIG (lower text).

(** [file.filename.lower().split('.')[-1]] *)
Definition file_ext (filename : string) : string :=
  last (split_char "." (lower filename)) EmptyString.

(** The check of the file type: [file_ext in ['xlsx', 'xls', 'pdf']] *)
Definition accepted (filename : string) : bool :=
  mem (file_ext filename) ["xlsx"; "xls"; "pdf"].

(** [bank_info] in the response of [upload_file], after [bank_info.update]:
    the currency is replaced, the country and the bank code are added. *)
Record uploaded_bank_info : Type := mkUploaded {
  info : bank_details;
  info_country : string;
  info_bank_code : string
}.

Definition update_bank_info (bank_info : bank_details) : uploaded_bank_info :=
  let bank_detection := detect_bank_and_currency (bank_name bank_info) in
  {| info := mkBank (bank_name bank_info) (account_holder bank_info)
               (account_number bank_info) (detected_currency bank_detection);
     info_country := detected_country bank_detection;
     info_bank_code := detected_code bank_detection |}.

End App.

(** ** More examples *)

(** A workbook of one sheet of transactions. *)
Definition typed_workbook : workbook := [("Transactions", typed_sheet)].

(** The first sheet of a statement, with the bank, the holder and the number
    of the account above the table. *)
Definition cover_sheet : worksheet :=
  sheet_of [ [VStr "Emirates NBD"; VNone; VStr "Statement of account"];
             [VStr "Mr John Smith"; VNone; VNone];
             [VStr "Account"; VStr "1234 5678 9012 3456"; VNone] ].

(** A workbook whose sheet [Account Info] names RAKBank. *)
Definition rak_workbook : workbook :=
  [ ("Account Info",
     sheet_of [ [VStr "Account Holder"; VStr "John Smith"];
                [VStr "Bank Name"; VStr "RAK Bank"] ]);
    ("Transactions", typed_sheet) ].

(** A sheet without a header row: the data start in the first row, in the
    columns of the default map. *)
Definition bare_sheet : worksheet :=
  sheet_of [ [VStr "15/01/2025"; VStr "CARREFOUR DXB"; VNone; VStr "150.00"; VNone];
             [VStr "16/01/2025"; VStr "SALARY - ACME LLC"; VNone; VNone; VStr "5000.00"] ].

(** * Properties *)

(** ** Characters and strings *)

Ltac by_cases_on_char c :=
  destruct c as [[] [] [] [] [] [] [] []]; vm_compute; congruence.

Lemma digit_not_space c : is_digit c = true -> is_space c = false.
Proof. by_cases_on_char c. Qed.

Lemma digit_not_slash c : is_digit c = true -> Ascii.eqb "/" c = false.
Proof. by_cases_on_char c. Qed.

Lemma digit_not_dash c : is_digit c = true -> Ascii.eqb "-" c = false.
Proof. by_cases_on_char c. Qed.

Lemma digit_not_newline c : is_digit c = true -> Ascii.eqb c "010" = false.
Proof. by_cases_on_char c. Qed.

Lemma slash_not_digit : is_digit "/" = false.
Proof. reflexivity. Qed.

Lemma slash_not_space : is_space "/" = false.
Proof. reflexivity. Qed.

Lemma slash_is_slash : Ascii.eqb "/" "/" = true.
Proof. reflexivity. Qed.

Lemma dash_not_slash : Ascii.eqb "-" "/" = false.
Proof. reflexivity. Qed.

(** What is known of each digit of the text, put among the hypotheses. *)
Ltac digit_facts :=
  repeat match goal with
  | H : is_digit ?c = true |- _ =>
      lazymatch goal with
      | _ : Ascii.eqb "/" c = false |- _ => fail
      | _ => pose proof (digit_not_slash c H); pose proof (digit_not_dash c H);
             pose proof (digit_not_newline c H); pose proof (digit_not_space c H)
      end
  end.

Ltac use_facts :=
  repeat match goal with
  | H : ?l = true |- context [?l] => rewrite H
  | H : ?l = false |- context [?l] => rewrite H
  end;
  rewrite ?slash_not_digit, ?slash_is_slash, ?dash_not_slash, ?slash_not_space.

(** Strings of one or two digits, and of four. *)
Lemma one_or_two_digits s :
  digits s = true -> 1 <= String.length s <= 2 ->
  (exists c1, s = String c1 "" /\ is_digit c1 = true) \/
  (exists c1 c2, s = String c1 (String c2 "") /\ is_digit c1 = true /\ is_digit c2 = true).
Proof.
  destruct s as [|c1 [|c2 [|c3 s]]]; cbn; intros D L; try lia.
  - left. exists c1. rewrite andb_true_r in D. auto.
  - right. exists c1, c2. rewrite andb_true_r in D.
    apply andb_prop in D. destruct D. auto.
Qed.

Lemma four_digits s :
  digits s = true -> String.length s = 4 ->
  exists c1 c2 c3 c4,
    s = String c1 (String c2 (String c3 (String c4 ""))) /\
    is_digit c1 = true /\ is_digit c2 = true /\ is_digit c3 = true /\ is_digit c4 = true.
Proof.
  destruct s as [|c1 [|c2 [|c3 [|c4 [|c5 s]]]]]; cbn; intros D L; try lia.
  rewrite andb_true_r in D.
  do 3 (apply andb_prop in D; destruct D as [? D]).
  exists c1, c2, c3, c4. split; [reflexivity | repeat split; assumption].
Qed.

Lemma zfill_two_digits s :
  digits s = true -> 1 <= String.length s <= 2 ->
  String.length (zfill 2 s) = 2 /\ digits (zfill 2 s) = true.
Proof.
  intros D L.
  destruct (one_or_two_digits s D L) as [(c1 & -> & H1) | (c1 & c2 & -> & H1 & H2)];
    cbn; rewrite ?H1, ?H2; auto.
Qed.


(** ** Lengths *)

Lemma string_length_app (a b : string) :
  String.length (a ++ b) = String.length a + String.length b.
Proof. induction a as [|c a IH]; cbn; [reflexivity | rewrite IH; reflexivity]. Qed.

Lemma string_app_assoc (a b c : string) : (a ++ b) ++ c = a ++ (b ++ c).
Proof. induction a as [|x a IH]; cbn; [reflexivity | rewrite IH; reflexivity]. Qed.

Lemma smap_length f s : String.length (smap f s) = String.length s.
Proof. induction s; cbn; congruence. Qed.

Lemma lstrip_length s : String.length (lstrip s) <= String.length s.
Proof. induction s as [|c s IH]; cbn; [lia | destruct (is_space c); cbn; lia]. Qed.

Lemma rstrip_length s : String.length (rstrip s) <= String.length s.
Proof.
  induction s as [|c s IH]; cbn; [lia |].
  destruct (rstrip s); [destruct (is_space c) |]; cbn in *; lia.
Qed.

Lemma strip_length s : String.length (strip s) <= String.length s.
Proof.
  unfold strip. pose proof (rstrip_length (lstrip s)). pose proof (lstrip_length s). lia.
Qed.

Lemma take_length n s : String.length (take n s) <= String.length s.
Proof.
  revert s; induction n as [|n IH]; intros [|c s]; cbn; try lia.
  specialize (IH s). lia.
Qed.

Lemma take_length_le n s : String.length (take n s) <= n.
Proof.
  revert s; induction n as [|n IH]; intros [|c s]; cbn; try lia.
  specialize (IH s). lia.
Qed.

Lemma take_all n s : String.length s <= n -> take n s = s.
Proof.
  revert s; induction n as [|n IH]; intros [|c s]; cbn; intros L;
    try reflexivity; try lia.
  rewrite IH; [reflexivity | lia].
Qed.

Lemma take_app_exact (w s : string) :
  take (String.length (w ++ s) - String.length s) (w ++ s) = w.
Proof.
  rewrite string_length_app.
  replace (String.length w + String.length s - String.length s) with (String.length w) by lia.
  induction w as [|c w IH]; cbn; [destruct s; reflexivity | rewrite IH; reflexivity].
Qed.

(** ** Soundness of the matcher *)

Lemma rep_sound {A} ic g p (k : option ascii -> string -> option A) res s :
  forall lo hi prev,
  rep ic g lo hi p prev s k = Some res ->
  exists w s', s = w ++ s' /\ all_chars (cls_ok ic p) w = true /\
    lo <= String.length w /\ within hi (String.length w) /\
    k (last_char prev w) s' = Some res.
Proof.
  assert (stop : forall lo hi prev s,
    match lo with 0 => k prev s | S _ => None end = Some res ->
    exists w s', s = w ++ s' /\ all_chars (cls_ok ic p) w = true /\
      lo <= String.length w /\ within hi (String.length w) /\
      k (last_char prev w) s' = Some res).
  { intros [|lo] hi prev s0 H; [| discriminate].
    exists "", s0. cbn. repeat split; auto. destruct hi; cbn; lia. }
  assert (more : forall lo hi prev x s,
    cls_ok ic p x && room hi = true ->
    (exists w s', s = w ++ s' /\ all_chars (cls_ok ic p) w = true /\
      pred lo <= String.length w /\ within (dec hi) (String.length w) /\
      k (last_char (Some x) w) s' = Some res) ->
    exists w s', String x s = w ++ s' /\ all_chars (cls_ok ic p) w = true /\
      lo <= String.length w /\ within hi (String.length w) /\
      k (last_char prev w) s' = Some res).
  { intros lo hi prev x s0 C (w & s' & -> & W & L & H & K).
    apply andb_prop in C. destruct C as [C R].
    exists (String x w), s'. cbn. rewrite C, W. repeat split; auto; [lia |].
    destruct hi as [[|h]|]; cbn in *; try discriminate; lia. }
  induction s as [|x s IH]; intros lo hi prev; cbn [rep].
  - destruct g; cbn; intros H.
    + apply stop; assumption.
    + apply stop. destruct lo; [destruct (k prev "") |]; cbn in H; congruence.
  - destruct (cls_ok ic p x && room hi) eqn:C.
    + destruct g; cbn; intros H.
      * destruct (rep ic true (pred lo) (dec hi) p (Some x) s k) eqn:E; cbn in H.
        -- apply more; [assumption |]. apply IH. congruence.
        -- apply stop; assumption.
      * destruct (match lo with 0 => k prev (String x s) | S _ => None end) eqn:E;
          cbn in H.
        -- apply stop. congruence.
        -- apply more; [assumption |]. apply IH. assumption.
    + destruct g; cbn; intros H.
      * apply stop; assumption.
      * apply stop.
        destruct (match lo with 0 => k prev (String x s) | S _ => None end);
          cbn in H; congruence.
Qed.

Lemma orelse_inv {A} (a b : option A) res :
  orelse a b = Some res -> a = Some res \/ b = Some res.
Proof. destruct a; cbn; auto. Qed.

(** A result of the matcher comes from a match of the pattern followed by
    a successful continuation. *)
Lemma run_sound {A} ic r :
  forall prev s cs (k : option ascii -> string -> caps -> option A) res,
  run ic r prev s cs k = Some res ->
  exists prev' s' cs',
    matches ic r prev s cs prev' s' cs' /\ k prev' s' cs' = Some res.
Proof.
  induction r as [ |c|p| | | |r1 IH1 r2 IH2|r1 IH1 r2 IH2|r1 IH1|g lo hi p|n r1 IH1];
    intros prev s cs k res; cbn [run]; intros H.
  - exists prev, s, cs. split; [constructor | assumption].
  - destruct s as [|x s]; [discriminate |]. destruct (chr_ok ic c x) eqn:E; [| discriminate].
    exists (Some x), s, cs. split; [constructor; assumption | assumption].
  - destruct s as [|x s]; [discriminate |]. destruct (cls_ok ic p x) eqn:E; [| discriminate].
    exists (Some x), s, cs. split; [constructor; assumption | assumption].
  - destruct prev; [discriminate |]. exists None, s, cs. split; [constructor | assumption].
  - destruct (at_end s) eqn:E; [| discriminate].
    exists prev, s, cs. split; [constructor; assumption | assumption].
  - destruct (xorb _ _) eqn:E; [| discriminate].
    exists prev, s, cs. split; [constructor; assumption | assumption].
  - destruct (IH1 _ _ _ _ _ H) as (p1 & s1 & cs1 & M1 & H1).
    destruct (IH2 _ _ _ _ _ H1) as (p2 & s2 & cs2 & M2 & H2).
    exists p2, s2, cs2. split; [econstructor; eassumption | assumption].
  - destruct (orelse_inv _ _ _ H) as [H' | H'].
    + destruct (IH1 _ _ _ _ _ H') as (p1 & s1 & cs1 & M1 & H1).
      exists p1, s1, cs1. split; [apply M_alt_l; assumption | assumption].
    + destruct (IH2 _ _ _ _ _ H') as (p1 & s1 & cs1 & M1 & H1).
      exists p1, s1, cs1. split; [apply M_alt_r; assumption | assumption].
  - destruct (orelse_inv _ _ _ H) as [H' | H'].
    + destruct (IH1 _ _ _ _ _ H') as (p1 & s1 & cs1 & M1 & H1).
      exists p1, s1, cs1. split; [apply M_opt_some; assumption | assumption].
    + exists prev, s, cs. split; [apply M_opt_none | assumption].
  - destruct (rep_sound _ _ _ _ _ _ _ _ _ H) as (w & s' & -> & W & L & B & K).
    exists (last_char prev w), s', cs. split; [constructor; assumption | assumption].
  - destruct (IH1 _ _ _ _ _ H) as (p1 & s1 & cs1 & M1 & H1).
    eexists p1, s1, _. split; [apply M_grp; eassumption | assumption].
Qed.

Lemma re_match_sound ic r s m :
  re_match ic r s = Some m -> exists prev' s', matches ic r None s [] prev' s' m.
Proof.
  unfold re_match, here.
  destruct (run ic r None s [] _) as [[rest cs]|] eqn:E; [| discriminate].
  cbn. intros [= <-].
  destruct (run_sound _ _ _ _ _ _ _ E) as (p' & s' & cs' & M & [= <- <-]).
  eauto.
Qed.

(** A match consumes a prefix of the text. *)
Lemma matches_consumed ic r p s cs p' s' cs' :
  matches ic r p s cs p' s' cs' -> exists w, s = w ++ s'.
Proof.
  induction 1;
    try (exists ""; reflexivity);
    try (exists (String x ""); reflexivity);
    try assumption.
  - destruct IHmatches1 as (w1 & ->). destruct IHmatches2 as (w2 & ->).
    exists (w1 ++ w2). symmetry. apply string_app_assoc.
  - exists w. reflexivity.
Qed.

Lemma matches_length ic r p s cs p' s' cs' :
  matches ic r p s cs p' s' cs' -> String.length s' <= String.length s.
Proof.
  intros M. destruct (matches_consumed _ _ _ _ _ _ _ _ M) as (w & ->).
  rewrite string_length_app. lia.
Qed.

Lemma grp_le N n cs : caps_le N cs -> String.length (grp n cs) <= N.
Proof.
  unfold grp. induction 1 as [|[m g] cs H _ IH]; cbn; [lia |].
  destruct (n =? m)%nat; [exact H | exact IH].
Qed.

Lemma matches_caps ic r p s cs p' s' cs' :
  matches ic r p s cs p' s' cs' ->
  forall N, String.length s <= N -> caps_le N cs -> caps_le N cs'.
Proof.
  induction 1; intros N LN CN; try assumption.
  - apply IHmatches2; [| apply IHmatches1; assumption].
    pose proof (matches_length _ _ _ _ _ _ _ _ H). lia.
  - apply IHmatches; assumption.
  - apply IHmatches; assumption.
  - apply IHmatches; assumption.
  - constructor; [| apply IHmatches; assumption].
    cbn. pose proof (take_length (String.length s - String.length s') s). lia.
Qed.

(** A pattern that starts with [^] and a literal character captures less
    than the whole text. *)
Lemma anchored_groups_shorter ic c l r s m n :
  re_match ic (Cat Bol (Cat (Cat (Chr c) l) r)) s = Some m ->
  String.length (grp n m) < String.length s.
Proof.
  intros H. destruct (re_match_sound _ _ _ _ H) as (p' & s' & M).
  inversion M as [| | | | | |? ? ? ? ? ? ? ? ? ? ? M1 M2| | | | | |]; subst; clear M.
  inversion M1; subst; clear M1.
  inversion M2 as [| | | | | |? ? ? ? ? ? ? ? ? ? ? M3 M4| | | | | |]; subst; clear M2.
  inversion M3 as [| | | | | |? ? ? ? ? ? ? ? ? ? ? M5 M6| | | | | |]; subst; clear M3.
  inversion M5; subst; clear M5.
  match goal with
  | Ml : matches _ l _ ?t [] _ ?t' _, Mr : matches _ r _ ?t' _ _ _ m |- _ =>
      assert (C : caps_le (String.length t) m);
      [ apply (matches_caps _ _ _ _ _ _ _ _ Mr);
        [ apply (matches_length _ _ _ _ _ _ _ _ Ml)
        | apply (matches_caps _ _ _ _ _ _ _ _ Ml); [lia | constructor] ] |]
  end.
  pose proof (grp_le _ n _ C). cbn. lia.
Qed.

(** ** The rule classifier returns, and returns a name of the taxonomy *)

Lemma scan_keywords_some category d kws c :
  scan_keywords category d kws = Some c -> c = category.
Proof.
  induction kws as [|kw kws IH]; cbn [scan_keywords]; [discriminate |].
  destruct (contains kw d); [| exact IH].
  destruct (category =? "Finance & Banking").
  - destruct (any_in finance_terms d); [intros H; congruence | exact IH].
  - destruct (category =? "Technology"); [| intros H; congruence].
    destruct (any_in technology_terms d); [intros H; congruence | exact IH].
Qed.

Lemma scan_categories_in d priority c :
  scan_categories d priority = Some c -> In c priority.
Proof.
  induction priority as [|category rest IH]; cbn [scan_categories]; [discriminate |].
  destruct (scan_keywords category d _) eqn:E.
  - intros [= <-]. left. symmetry. exact (scan_keywords_some _ _ _ _ E).
  - intros H. right. exact (IH H).
Qed.

Lemma scan_merchants_in d tbl c :
  scan_merchants d tbl = Some c -> In c (map snd tbl).
Proof.
  induction tbl as [|[merchant cat] rest IH]; cbn; [discriminate |].
  destruct (contains merchant d); [intros [= <-]; auto | auto].
Qed.

Lemma listed_is_category (l : list string) c :
  forallb is_category l = true -> In c l -> is_category c = true.
Proof. intros H I. rewrite forallb_forall in H. exact (H c I). Qed.

Lemma categorize_plain_category description desc_lower :
  is_category (categorize_plain description desc_lower) = true.
Proof.
  unfold categorize_plain.
  destruct (_ || _ || _); [reflexivity |].
  destruct (any_in salary_signals desc_lower); [reflexivity |].
  destruct (scan_categories desc_lower category_priority) eqn:E.
  - apply scan_categories_in in E.
    exact (listed_is_category category_priority s eq_refl E).
  - repeat (match goal with |- context [if ?b then _ else _] => destruct b end;
            [reflexivity |]).
    destruct (scan_merchants desc_lower merchant_patterns) eqn:M; [| reflexivity].
    apply scan_merchants_in in M.
    exact (listed_is_category (map snd merchant_patterns) s eq_refl M).
Qed.

Lemma categorize_depth_total depth :
  forall description, String.length description < depth ->
  exists c, categorize_depth depth description = Some c /\ is_category c = true.
Proof.
  induction depth as [|depth IH]; intros description L; [lia |].
  cbn [categorize_depth].
  destruct (re_match false (re_square "sq") (strip (lower description))) as [m|] eqn:E.
  - assert (S : String.length (strip (grp 1 m)) < depth).
    { pose proof (anchored_groups_shorter _ _ _ _ _ _ 1 E) as G.
      pose proof (strip_length (grp 1 m)).
      pose proof (strip_length (lower description)).
      unfold lower in *. rewrite smap_length in *. lia. }
    destruct (IH _ S) as (c & -> & C).
    destruct (c =? "Other") eqn:O; cbn.
    + exists "Retail & Shopping". auto.
    + exists c. auto.
  - eexists. split; [reflexivity | apply categorize_plain_category].
Qed.

(** The depth given to the classifier is never exhausted. *)
Lemma categorize_transaction_total description :
  exists c, categorize_transaction description = Some c /\ is_category c = true.
Proof. apply categorize_depth_total. lia. Qed.

(** ** The merchant name is not empty *)

(** The name is empty only when the description is. *)
Lemma extract_merchant_name_nonempty (description : string) :
  is_empty description = false -> is_empty (extract_merchant_name description) = false.
Proof.
  unfold extract_merchant_name. intros H.
  destruct (strip (title (strip_stages description))) as [|c r]; cbn.
  - destruct description; [discriminate | reflexivity].
  - reflexivity.
Qed.

(** ** The date resolver on [A/B/YYYY] *)

Section DateResolver.

Variable str_num : Q -> string.
Variable now : datetime.

Local Opaque is_digit is_space Ascii.eqb int zfill.

(** C1. On a text [A/B/YYYY] (one or two digits, one or two digits, four
    digits) the resolver takes [A] for the day when [A > 12], whatever the
    currency; otherwise [B] for the day when [B > 12]; otherwise, both being
    at most 12, month first for the currency USD and day first for any other
    one.  The result is year, month, day, joined by hyphens, month and day
    filled with zeros to two digits. *)
Theorem detect_date_format_day_month (a b y currency : string) :
  digits a = true -> 1 <= String.length a <= 2 ->
  digits b = true -> 1 <= String.length b <= 2 ->
  digits y = true -> String.length y = 4 ->
  detect_date_format str_num now (VStr (a ++ "/" ++ b ++ "/" ++ y)) currency =
    (if (12 <? int a)%nat then y ++ "-" ++ zfill 2 b ++ "-" ++ zfill 2 a
     else if (12 <? int b)%nat then y ++ "-" ++ zfill 2 a ++ "-" ++ zfill 2 b
     else if currency =? "USD" then y ++ "-" ++ zfill 2 a ++ "-" ++ zfill 2 b
     else y ++ "-" ++ zfill 2 b ++ "-" ++ zfill 2 a)
  /\ String.length (zfill 2 a) = 2 /\ String.length (zfill 2 b) = 2.
Proof.
  intros Da La Db Lb Dy Ly.
  split; [| split; [apply (zfill_two_digits a) | apply (zfill_two_digits b)]; assumption].
  destruct (four_digits y Dy Ly) as (y1 & y2 & y3 & y4 & -> & Hy1 & Hy2 & Hy3 & Hy4).
  destruct (one_or_two_digits a Da La) as [(a1 & -> & Ha1) | (a1 & a2 & -> & Ha1 & Ha2)];
  destruct (one_or_two_digits b Db Lb) as [(b1 & -> & Hb1) | (b1 & b2 & -> & Hb1 & Hb2)];
    digit_facts;
    unfold detect_date_format, str, re_match, here,
      re_mdy_short, re_iso, re_slash_long, digit;
    repeat (cbn; use_facts); reflexivity.
Qed.

End DateResolver.

Lemma detect_date_format_day_month_witness :
  detect_date_format show_number example_now (VStr "03/04/2024") "USD" = "2024-03-04"
  /\ detect_date_format show_number example_now (VStr "03/04/2024") "AED" = "2024-04-03"
  /\ detect_date_format show_number example_now (VStr "15/01/2025") "USD" = "2025-01-15".
Proof.
  split; [| split].
  - exact (proj1 (detect_date_format_day_month show_number example_now
                    "03" "04" "2024" "USD"
                    eq_refl ltac:(cbn; lia) eq_refl ltac:(cbn; lia) eq_refl eq_refl)).
  - exact (proj1 (detect_date_format_day_month show_number example_now
                    "03" "04" "2024" "AED"
                    eq_refl ltac:(cbn; lia) eq_refl ltac:(cbn; lia) eq_refl eq_refl)).
  - exact (proj1 (detect_date_format_day_month show_number example_now
                    "15" "01" "2025" "USD"
                    eq_refl ltac:(cbn; lia) eq_refl ltac:(cbn; lia) eq_refl eq_refl)).
Defined.


(** ** The IBFT reference of the scenario *)

(** C3. The reference ["530P79B7E39A6295 - M"] has the documented shape:
    once the suffix [- M] is removed it matches [_ibft_ref_pattern], three
    digits, a letter and a run of hexadecimal digits.  [_is_ibft_reference]
    does not use that pattern: it asks for hexadecimal digits only, the
    letter [P] is none, and the classifier answers ["Other"], for the
    normalized name as for the raw text. *)
Theorem ibft_reference_classified_other :
  let description := "530P79B7E39A6295 - M" in
  let clean := remove false re_ref_suffix (strip description) in
  clean = "530P79B7E39A6295"
  /\ re_match true _ibft_ref_pattern clean <> None
  /\ _is_ibft_reference description = false
  /\ extract_merchant_name description = description
  /\ categorize_transaction description = Some "Other".
Proof.
  cbv zeta. repeat split; try (vm_compute; reflexivity).
  vm_compute. discriminate.
Qed.

(** A reference made of hexadecimal digits only is recognised. *)
Example hex_reference_is_internal_transfer :
  categorize_transaction "79B7E39A6295 - M" = Some "Internal Transfer".
Proof. vm_compute. reflexivity. Qed.


(** ** The merchant normalizer run twice *)

Lemma alpha_not_space c : is_alpha c = true -> is_space c = false.
Proof. by_cases_on_char c. Qed.

Lemma upper_char_alpha c : is_alpha c = true -> is_alpha (upper_char c) = true.
Proof. by_cases_on_char c. Qed.

Lemma lower_char_alpha c : is_alpha c = true -> is_alpha (lower_char c) = true.
Proof. by_cases_on_char c. Qed.

Lemma upper_char_idem c : upper_char (upper_char c) = upper_char c.
Proof. by_cases_on_char c. Qed.

Lemma lower_char_idem c : lower_char (lower_char c) = lower_char c.
Proof. by_cases_on_char c. Qed.

Lemma upper_char_space c : is_space (upper_char c) = is_space c.
Proof. by_cases_on_char c. Qed.

Lemma lower_char_space c : is_space (lower_char c) = is_space c.
Proof. by_cases_on_char c. Qed.

(** Title-casing a title-cased text changes nothing. *)
Lemma title_from_idem s : forall b, title_from b (title_from b s) = title_from b s.
Proof.
  induction s as [|c s IH]; intros b; cbn; [reflexivity |].
  destruct (is_alpha c) eqn:A; cbn.
  - destruct b.
    + rewrite (lower_char_alpha c A), lower_char_idem, IH. reflexivity.
    + rewrite (upper_char_alpha c A), upper_char_idem, IH. reflexivity.
  - rewrite A, IH. reflexivity.
Qed.

Lemma title_from_take n : forall b s, title_from b (take n s) = take n (title_from b s).
Proof.
  induction n as [|n IH]; intros b [|c s]; cbn; try reflexivity.
  destruct (is_alpha c); cbn; rewrite IH; reflexivity.
Qed.

Lemma title_from_empty b s : title_from b s = "" -> s = "".
Proof. destruct s as [|c s]; cbn; [reflexivity | destruct (is_alpha c); discriminate]. Qed.

Lemma title_from_rstrip s : forall b, title_from b (rstrip s) = rstrip (title_from b s).
Proof.
  induction s as [|c s IH]; intros b; cbn; [reflexivity |].
  destruct (is_alpha c) eqn:A; cbn.
  - rewrite <- IH.
    destruct (rstrip s) as [|c' r] eqn:R; cbn.
    + rewrite (alpha_not_space c A).
      destruct b; [rewrite lower_char_space | rewrite upper_char_space];
        rewrite (alpha_not_space c A); cbn; rewrite A; reflexivity.
    + rewrite A. destruct (is_alpha c'); reflexivity.
  - rewrite <- IH.
    destruct (rstrip s) as [|c' r] eqn:R; cbn.
    + destruct (is_space c); cbn; [reflexivity | rewrite A; reflexivity].
    + rewrite A. destruct (is_alpha c'); reflexivity.
Qed.

Lemma title_lstrip_title s : title (lstrip (title s)) = lstrip (title s).
Proof.
  unfold title. induction s as [|c s IH]; cbn; [reflexivity |].
  destruct (is_alpha c) eqn:A; cbn.
  - rewrite upper_char_space, (alpha_not_space c A). cbn.
    rewrite (upper_char_alpha c A), upper_char_idem, title_from_idem. reflexivity.
  - destruct (is_space c); [exact IH |].
    cbn. rewrite A, title_from_idem. reflexivity.
Qed.

(** What step 8 produces is title-cased. *)
Lemma title_of_result s : title (take 60 (strip (title s))) = take 60 (strip (title s)).
Proof.
  unfold title at 1. rewrite title_from_take. f_equal.
  unfold strip. rewrite title_from_rstrip. f_equal.
  apply title_lstrip_title.
Qed.

Lemma rstrip_cons c s : is_space c = false -> rstrip (String c s) = String c (rstrip s).
Proof. intros H. cbn. destruct (rstrip s); [rewrite H |]; reflexivity. Qed.

Lemma rstrip_idem s : rstrip (rstrip s) = rstrip s.
Proof.
  induction s as [|c s IH]; cbn; [reflexivity |].
  destruct (rstrip s) as [|c' r] eqn:R.
  - destruct (is_space c) eqn:S; cbn; [reflexivity | rewrite S; reflexivity].
  - change (rstrip (String c (String c' r)) = String c (String c' r)).
    cbn [rstrip] in *. destruct (rstrip r) eqn:R'.
    + destruct (is_space c'); [discriminate |]. rewrite IH. reflexivity.
    + rewrite IH. reflexivity.
Qed.

Lemma lstrip_head s :
  lstrip s = "" \/ exists c s', lstrip s = String c s' /\ is_space c = false.
Proof.
  induction s as [|c s IH]; cbn; [auto |].
  destruct (is_space c) eqn:S; [exact IH | right; eauto].
Qed.

Lemma strip_idem s : strip (strip s) = strip s.
Proof.
  unfold strip.
  destruct (lstrip_head s) as [-> | (c & s' & -> & S)]; [reflexivity |].
  rewrite (rstrip_cons c s' S). cbn [lstrip]. rewrite S.
  rewrite <- (rstrip_cons c s' S). apply rstrip_idem.
Qed.

Lemma strip_stages_stripped s : strip (strip_stages s) = strip_stages s.
Proof. unfold strip_stages. apply strip_idem. Qed.

Lemma take_take n s : take n (take n s) = take n s.
Proof. apply take_all. apply take_length_le. Qed.

(** The first run on ["ACH DEBIT ACH DEBIT X"] strips one prefix and gives
    ["Ach Debit X"]; the second run strips the prefix that is left. *)
Lemma extract_merchant_name_not_idempotent :
  extract_merchant_name "ACH DEBIT ACH DEBIT X" = "Ach Debit X"
  /\ extract_merchant_name (extract_merchant_name "ACH DEBIT ACH DEBIT X") = "X"
  /\ ~ (forall s, extract_merchant_name (extract_merchant_name s) = extract_merchant_name s).
Proof.
  split; [vm_compute; reflexivity |]. split; [vm_compute; reflexivity |].
  intros H. specialize (H "ACH DEBIT ACH DEBIT X"). vm_compute in H. discriminate.
Qed.


(** ** The date resolver on every cell *)

Lemma digits_app a b : digits (a ++ b) = digits a && digits b.
Proof.
  unfold digits. induction a as [|c a IH]; cbn; [reflexivity |].
  rewrite IH, andb_assoc. reflexivity.
Qed.

Lemma chr_ok_exact c x : chr_ok false c x = true -> x = c.
Proof. unfold chr_ok, cls_ok. intros H. apply Ascii.eqb_eq in H. congruence. Qed.

Ltac invert_match H := inversion H; subst; clear H.

Ltac invert_matches :=
  repeat match goal with
  | H : matches _ (Cat _ _) _ _ _ _ _ _ |- _ => invert_match H
  | H : matches _ (Grp _ _) _ _ _ _ _ _ |- _ => invert_match H
  | H : matches _ (Chr _) _ _ _ _ _ _ |- _ => invert_match H
  | H : matches _ (Rep _ _ _ _) _ _ _ _ _ _ |- _ => invert_match H
  | H : matches _ Bol _ _ _ _ _ _ |- _ => invert_match H
  | H : matches _ Eol _ _ _ _ _ _ |- _ => invert_match H
  | H : matches _ Eps _ _ _ _ _ _ |- _ => invert_match H
  end.

Lemma three_fields_groups lo1 hi1 c1 lo2 hi2 c2 lo3 hi3 t m :
  re_match false (three_fields lo1 hi1 c1 lo2 hi2 c2 lo3 hi3) t = Some m ->
  exists f1 f2 f3,
    m = [(3, f3); (2, f2); (1, f1)]
    /\ digits f1 = true /\ lo1 <= String.length f1 <= hi1
    /\ digits f2 = true /\ lo2 <= String.length f2 <= hi2
    /\ digits f3 = true /\ lo3 <= String.length f3 <= hi3.
Proof.
  intros H. destruct (re_match_sound _ _ _ _ H) as (p' & s' & M). clear H.
  unfold three_fields in M. cbn [cat] in M.
  invert_matches.
  repeat match goal with
  | H : chr_ok false _ _ = true |- _ => apply chr_ok_exact in H; subst
  end.
  repeat match goal with
  | |- context [take (String.length (?w ++ ?s) - String.length ?s) (?w ++ ?s)] =>
      rewrite (take_app_exact w s)
  end.
  cbn [within] in *.
  eexists _, _, _. split; [reflexivity |].
  repeat split; assumption.
Qed.

Lemma iso_shape_build y m d :
  digits y = true -> String.length y = 4 ->
  digits m = true -> 1 <= String.length m <= 2 ->
  digits d = true -> 1 <= String.length d <= 2 ->
  iso_shape (y ++ "-" ++ zfill 2 m ++ "-" ++ zfill 2 d) = true.
Proof.
  intros Dy Ly Dm Lm Dd Ld.
  destruct (four_digits y Dy Ly) as (y1 & y2 & y3 & y4 & -> & Hy1 & Hy2 & Hy3 & Hy4).
  destruct (one_or_two_digits m Dm Lm) as [(m1 & -> & Hm1) | (m1 & m2 & -> & Hm1 & Hm2)];
  destruct (one_or_two_digits d Dd Ld) as [(d1 & -> & Hd1) | (d1 & d2 & -> & Hd1 & Hd2)];
    cbn; rewrite ?Hy1, ?Hy2, ?Hy3, ?Hy4, ?Hm1, ?Hm2, ?Hd1, ?Hd2; reflexivity.
Qed.

(** The decimal text of the numbers a date is made of, checked over their
    whole range. *)
Lemma year_text y :
  1000 <= y < 100 * 100 ->
  digits (str_nat y) = true /\ String.length (str_nat y) = 4.
Proof.
  intros L.
  assert (A : forallb (fun y => digits (str_nat y)
                        && (String.length (str_nat y) =? 4)%nat)
                (seq 1000 (90 * 100)) = true) by (vm_compute; reflexivity).
  rewrite forallb_forall in A. specialize (A y).
  rewrite in_seq in A. destruct (andb_prop _ _ (A ltac:(lia))) as [D E].
  apply Nat.eqb_eq in E. auto.
Qed.

Lemma month_day_text n :
  n < 100 -> digits (str_nat n) = true /\ 1 <= String.length (str_nat n) <= 2.
Proof.
  intros L.
  assert (A : forallb (fun n => digits (str_nat n)
                        && (1 <=? String.length (str_nat n))%nat
                        && (String.length (str_nat n) <=? 2)%nat)
                (seq 0 100) = true) by (vm_compute; reflexivity).
  rewrite forallb_forall in A. specialize (A n).
  rewrite in_seq in A. destruct (andb_prop _ _ (A ltac:(lia))) as [D E].
  apply andb_prop in D. destruct D as [D F].
  apply Nat.leb_le in E, F. auto.
Qed.

Lemma strftime_ymd_shape d : well_formed d -> iso_shape (strftime_ymd d) = true.
Proof.
  intros (Y & M & D). unfold strftime_ymd.
  destruct (year_text (year d)) as [Dy Ly]; [lia |].
  destruct (month_day_text (month d)) as [Dm Lm]; [lia |].
  destruct (month_day_text (day d)) as [Dd Ld]; [lia |].
  apply iso_shape_build; assumption.
Qed.

Section DateShape.

Variable str_num : Q -> string.
Variable now : datetime.

Lemma text_date_shape (v : cell) currency :
  well_formed now -> (forall d, v <> VDate d) ->
  iso_shape (detect_date_format str_num now v currency) = true.
Proof.
  intros Wn NotDate.
  assert (E : detect_date_format str_num now v currency =
    let date_str := date_text str_num v in
    match re_match false re_mdy_short date_str with
    | Some m =>
        (if (int (grp 3 m) <? 50)%nat then "20" ++ grp 3 m else "19" ++ grp 3 m)
          ++ "-" ++ zfill 2 (grp 1 m) ++ "-" ++ zfill 2 (grp 2 m)
    | None =>
    match re_match false re_iso date_str with
    | Some m => grp 1 m ++ "-" ++ zfill 2 (grp 2 m) ++ "-" ++ zfill 2 (grp 3 m)
    | None =>
    match re_match false re_slash_long date_str with
    | Some m =>
        if (12 <? int (grp 1 m))%nat
        then grp 3 m ++ "-" ++ zfill 2 (grp 2 m) ++ "-" ++ zfill 2 (grp 1 m)
        else if (12 <? int (grp 2 m))%nat
        then grp 3 m ++ "-" ++ zfill 2 (grp 1 m) ++ "-" ++ zfill 2 (grp 2 m)
        else if currency =? "USD"
        then grp 3 m ++ "-" ++ zfill 2 (grp 1 m) ++ "-" ++ zfill 2 (grp 2 m)
        else grp 3 m ++ "-" ++ zfill 2 (grp 2 m) ++ "-" ++ zfill 2 (grp 1 m)
    | None => strftime_ymd now
    end end end).
  { destruct v; try reflexivity. exfalso. exact (NotDate d eq_refl). }
  rewrite E. cbv zeta. clear E.
  destruct (re_match false re_mdy_short (date_text str_num v)) as [m|] eqn:E1.
  { apply (three_fields_groups 1 2 "/" 1 2 "/" 2 2) in E1.
    destruct E1 as (f1 & f2 & f3 & -> & D1 & L1 & D2 & L2 & D3 & L3).
    change (grp 1 _) with f1. change (grp 2 _) with f2. change (grp 3 _) with f3.
    destruct (int f3 <? 50)%nat;
      apply iso_shape_build; try assumption;
      try (rewrite digits_app, D3; reflexivity);
      rewrite string_length_app; cbn; lia. }
  destruct (re_match false re_iso (date_text str_num v)) as [m|] eqn:E2.
  { apply (three_fields_groups 4 4 "-" 1 2 "-" 1 2) in E2.
    destruct E2 as (f1 & f2 & f3 & -> & D1 & L1 & D2 & L2 & D3 & L3).
    change (grp 1 _) with f1. change (grp 2 _) with f2. change (grp 3 _) with f3.
    apply iso_shape_build; try assumption; lia. }
  destruct (re_match false re_slash_long (date_text str_num v)) as [m|] eqn:E3.
  { apply (three_fields_groups 1 2 "/" 1 2 "/" 4 4) in E3.
    destruct E3 as (f1 & f2 & f3 & -> & D1 & L1 & D2 & L2 & D3 & L3).
    change (grp 1 _) with f1. change (grp 2 _) with f2. change (grp 3 _) with f3.
    destruct (12 <? int f1)%nat; [apply iso_shape_build; try assumption; lia |].
    destruct (12 <? int f2)%nat; [apply iso_shape_build; try assumption; lia |].
    destruct (currency =? "USD"); apply iso_shape_build; try assumption; lia. }
  apply strftime_ymd_shape. assumption.
Qed.

(** C5, amended.  When the years of the current date and of a native date
    have four digits and the text of the cell is ASCII text, the resolver
    returns for every cell and every currency (it is a total function:
    nothing in it can raise), and what it returns is four digits, a hyphen,
    two digits, a hyphen, two digits.  A native date is formatted as it
    stands; when the cell is no native date and none of the three formats
    applies, the result is the current date.  The fields of a text are
    re-arranged, not checked against the calendar. *)
Theorem detect_date_format_shape (v : cell) (currency : string) :
  well_formed now -> (forall d, v = VDate d -> well_formed d) ->
  ascii_text (date_text str_num v) = true ->
  iso_shape (detect_date_format str_num now v currency) = true
  /\ (forall d, v = VDate d ->
        detect_date_format str_num now v currency = strftime_ymd d)
  /\ (unparseable str_num v ->
        detect_date_format str_num now v currency = strftime_ymd now).
Proof.
  intros Wn Wv _. split; [| split].
  - destruct v as [| s | q | d] eqn:Ev;
      try (apply text_date_shape; [assumption | intros d0; discriminate]).
    cbn. apply strftime_ymd_shape. apply Wv. reflexivity.
  - intros d ->. reflexivity.
  - intros (ND & U1 & U2 & U3). unfold date_text in *.
    destruct v as [| s | q | d]; cbn [detect_date_format];
      try (rewrite U1, U2, U3; reflexivity).
    exfalso. exact (ND d eq_refl).
Qed.

End DateShape.

(** On ["31/12/24"] the two-digit-year format takes 31 for the month: the
    result is not a date of the calendar. *)
Lemma detect_date_format_invalid_date :
  detect_date_format show_number example_now (VStr "31/12/24") "AED" = "2024-31-12"
  /\ valid_iso_date "2024-31-12" = false
  /\ ~ (forall v currency,
          valid_iso_date (detect_date_format show_number example_now v currency) = true).
Proof.
  split; [vm_compute; reflexivity |]. split; [vm_compute; reflexivity |].
  intros H. specialize (H (VStr "31/12/24") "AED"). vm_compute in H. discriminate.
Qed.

Lemma detect_date_format_shape_witness :
  iso_shape (detect_date_format show_number example_now (VStr "15/01/2025") "AED") = true
  /\ detect_date_format show_number example_now (VStr "n/a") "AED" = "2026-11-03".
Proof.
  split.
  - apply (detect_date_format_shape show_number example_now (VStr "15/01/2025") "AED").
    + unfold well_formed. cbn. lia.
    + intros d H. discriminate H.
    + reflexivity.
  - apply (detect_date_format_shape show_number example_now (VStr "n/a") "AED").
    + unfold well_formed. cbn. lia.
    + intros d H. discriminate H.
    + reflexivity.
    + unfold unparseable, date_text. repeat split; try (vm_compute; reflexivity).
      intros d H. discriminate H.
Defined.


(** ** The header locator *)

Section HeaderLocator.

Variable str_num : Q -> string.
Variable ws : worksheet.

Lemma scan_row_state row cols : forall st,
  snd (fold_left (scan_cell str_num ws row) cols st)
    = snd st + List.length (filter (is_hit str_num ws row) cols)
  /\ forall k,
       fst (fold_left (scan_cell str_num ws row) cols st) k
       = last_where (assigned str_num ws row k) cols (fst st k).
Proof.
  induction cols as [|col cols IH]; intros st; cbn [fold_left filter].
  - split; [cbn; lia | reflexivity].
  - destruct (IH (scan_cell str_num ws row st col)) as [C R]. rewrite C. split.
    + unfold scan_cell, is_hit.
      destruct (is_header_cell (header_text str_num ws row col)); cbn; lia.
    + intros k. rewrite R. unfold last_where. cbn [fold_left]. f_equal.
      unfold scan_cell, assigned, is_hit.
      destruct (is_header_cell (header_text str_num ws row col)); cbn; [| reflexivity].
      destruct (header_role (header_text str_num ws row col)) as [k'|]; cbn;
        [| reflexivity].
      unfold set_key. destruct (key_eqb k' k); reflexivity.
Qed.

Lemma last_where_seq f c : forall n a init,
  last_where f (seq a n) init = Some c <->
  (a <= c < a + n /\ f c = true /\ forall c', c < c' < a + n -> f c' = false)
  \/ (init = Some c /\ forall c', a <= c' < a + n -> f c' = false).
Proof.
  induction n as [|n IH]; intros a init.
  - cbn. split.
    + intros H. right. split; [assumption | intros; lia].
    + intros [(L & _) | (H & _)]; [lia | assumption].
  - rewrite seq_S. unfold last_where in *. rewrite fold_left_app. cbn [fold_left].
    destruct (f (a + n)) eqn:F.
    + split.
      * intros [= <-]. left. split; [lia |]. split; [assumption | intros; lia].
      * intros [(L & Fc & Later) | (_ & None_)].
        -- destruct (Nat.eq_dec c (a + n)) as [-> | Ne]; [reflexivity |].
           rewrite (Later (a + n)) in F by lia. discriminate.
        -- rewrite (None_ (a + n)) in F by lia. discriminate.
    + rewrite IH. split.
      * intros [(L & Fc & Later) | (I & None_)].
        -- left. split; [lia |]. split; [assumption |].
           intros c' Lc. destruct (Nat.eq_dec c' (a + n)) as [-> | Ne];
             [assumption | apply Later; lia].
        -- right. split; [assumption |].
           intros c' Lc. destruct (Nat.eq_dec c' (a + n)) as [-> | Ne];
             [assumption | apply None_; lia].
      * intros [(L & Fc & Later) | (I & None_)].
        -- left. assert (c <> a + n) by congruence.
           split; [lia |]. split; [assumption | intros; apply Later; lia].
        -- right. split; [assumption | intros; apply None_; lia].
Qed.

Lemma scan_row_count row : snd (scan_row str_num ws row) = hits str_num ws row.
Proof. unfold scan_row, hits. destruct (scan_row_state row (scanned_columns ws) (no_columns, 0)) as [C _]. exact C. Qed.

Lemma scan_row_role row k c :
  fst (scan_row str_num ws row) k = Some c <->
  In c (scanned_columns ws) /\ assigned str_num ws row k c = true
  /\ forall c', In c' (scanned_columns ws) -> c < c' -> assigned str_num ws row k c' = false.
Proof.
  unfold scan_row.
  destruct (scan_row_state row (scanned_columns ws) (no_columns, 0)) as [_ R].
  rewrite R. unfold scanned_columns, range. rewrite last_where_seq. cbn [fst no_columns].
  split.
  - intros [(L & F & Later) | (I & _)]; [| discriminate].
    rewrite in_seq. split; [lia |]. split; [assumption |].
    intros c' Ic Lc. rewrite in_seq in Ic. apply Later. lia.
  - intros (I & F & Later). rewrite in_seq in I. left.
    split; [lia |]. split; [assumption |].
    intros c' Lc. apply Later; [rewrite in_seq |]; lia.
Qed.

Lemma find_in_rows_first row : forall n a,
  a <= row < a + n -> 3 <= hits str_num ws row ->
  (forall r, a <= r < row -> hits str_num ws r < 3) ->
  find_in_rows str_num ws (seq a n)
    = Some (set_key header_row row (fst (scan_row str_num ws row))).
Proof.
  induction n as [|n IH]; intros a L H Before; [lia |].
  cbn [seq find_in_rows].
  pose proof (scan_row_count a) as C.
  destruct (scan_row str_num ws a) as [row_data header_count] eqn:E. cbn [snd] in C.
  destruct (Nat.eq_dec a row) as [-> | Ne].
  - rewrite E. cbn [fst].
    destruct (3 <=? header_count)%nat eqn:T; [reflexivity |].
    apply Nat.leb_gt in T. lia.
  - assert (T : (3 <=? header_count)%nat = false).
    { apply Nat.leb_gt. rewrite C. apply Before. lia. }
    rewrite T. apply IH; [lia | assumption | intros; apply Before; lia].
Qed.

(** C9, amended.  The locator returns the first scanned row with at least
    three header cells, and for each role the column it records is the
    last scanned column of that row whose cell is given the role: each
    matching cell overwrites the column recorded before it. *)
Theorem find_data_headers_first_row_last_column (row : nat) :
  In row (scanned_rows ws) ->
  3 <= hits str_num ws row ->
  (forall r, In r (scanned_rows ws) -> r < row -> hits str_num ws r < 3) ->
  find_data_headers str_num ws header_row = Some row
  /\ forall k c, k <> header_row ->
       (find_data_headers str_num ws k = Some c <->
        In c (scanned_columns ws) /\ assigned str_num ws row k c = true
        /\ forall c', In c' (scanned_columns ws) -> c < c' ->
             assigned str_num ws row k c' = false).
Proof.
  intros I H Before. unfold find_data_headers.
  unfold scanned_rows, range in *. rewrite in_seq in I.
  rewrite (find_in_rows_first row); try assumption; try lia.
  - split; [reflexivity |].
    intros k c Nk. rewrite <- scan_row_role. unfold set_key.
    destruct k; try reflexivity. contradiction.
  - intros r Lr. apply Before; [rewrite in_seq |]; lia.
Qed.

(** Without such a row the default map is returned. *)
Lemma find_data_headers_default :
  (forall r, In r (scanned_rows ws) -> hits str_num ws r < 3) ->
  forall k, find_data_headers str_num ws k = default_columns k.
Proof.
  intros None_ k. unfold find_data_headers.
  assert (E : find_in_rows str_num ws (scanned_rows ws) = None).
  { induction (scanned_rows ws) as [|a rows IH]; [reflexivity |].
    cbn [find_in_rows]. pose proof (scan_row_count a) as C.
    destruct (scan_row str_num ws a) as [row_data header_count]. cbn [snd] in C.
    assert (T : (3 <=? header_count)%nat = false).
    { apply Nat.leb_gt. rewrite C. apply None_. left. reflexivity. }
    rewrite T. apply IH. intros r Ir. apply None_. right. assumption. }
  rewrite E. reflexivity.
Qed.

End HeaderLocator.

(** With the headers [Date], [Value Date], [Description], [Amount] both the
    first and the second column hold the keyword of the date role; the
    column recorded is the second. *)
Lemma find_data_headers_records_last_column :
  find_data_headers show_number two_dates_sheet header_row = Some 1
  /\ contains "date" (header_text show_number two_dates_sheet 1 1) = true
  /\ contains "date" (header_text show_number two_dates_sheet 1 2) = true
  /\ find_data_headers show_number two_dates_sheet date_col = Some 2
  /\ find_data_headers show_number two_dates_sheet date_col <> Some 1.
Proof.
  repeat split; try (vm_compute; reflexivity).
  vm_compute. discriminate.
Qed.

Lemma find_data_headers_first_row_last_column_witness :
  find_data_headers show_number two_dates_sheet header_row = Some 1.
Proof.
  refine (proj1 (find_data_headers_first_row_last_column
                   show_number two_dates_sheet 1 _ _ _)).
  - vm_compute. left. reflexivity.
  - vm_compute. lia.
  - intros r I L. unfold scanned_rows, range in I. apply in_seq in I. lia.
Defined.


(** ** The row loop *)

Lemma neg_abs_negative (a : pyfloat) :
  is_nan a = false -> is_zero (fneg (fabs a)) = false ->
  is_negative (fneg (fabs a)) = true.
Proof.
  destruct a as [[n d] | neg |]; cbn; try discriminate; try reflexivity.
  intros _ H. apply Z.eqb_neq in H. apply Z.ltb_lt. lia.
Qed.

Lemma abs_positive (a : pyfloat) :
  is_nan a = false -> is_zero (fabs a) = false -> is_positive (fabs a) = true.
Proof.
  destruct a as [[n d] | neg |]; cbn; try discriminate; try reflexivity.
  intros _ H. apply Z.eqb_neq in H. apply Z.ltb_lt. lia.
Qed.


(** A sheet given by rows of ASCII text is a sheet of ASCII text. *)
Lemma sheet_of_ascii_sheet (rows : list (list cell)) :
  Forall (Forall (fun c => ascii_text (str show_number c) = true)) rows ->
  ascii_sheet show_number (sheet_of rows).
Proof.
  intros F row col. cbn [sheet_of cell_at].
  destruct row as [|r]; [reflexivity |]. destruct col as [|c]; [reflexivity |].
  destruct (nth_in_or_default r rows []) as [I | E].
  - rewrite Forall_forall in F. specialize (F _ I).
    destruct (nth_in_or_default c (nth r rows []) VNone) as [J | E'].
    + rewrite Forall_forall in F. exact (F _ J).
    + rewrite E'. reflexivity.
  - rewrite E. destruct c; reflexivity.
Qed.

Section Rows.

Variable float : string -> option pyfloat.
Variable str_num : Q -> string.
Variable now : datetime.
Variable ws : worksheet.
Variable cols : columns.
Variable currency : string.

(** What a row that yields a record went through. *)
Lemma process_row_some count row tx :
  process_row float str_num now ws cols currency count row = Some tx ->
  passes_filters str_num ws cols row = true
  /\ exists a category,
       amount_of_columns float str_num ws cols row = Some a
       /\ is_zero (apply_type str_num (type_cell ws cols row) a) = false
       /\ is_category category = true
       /\ tx = {| Date := detect_date_format str_num now (date_cell ws cols row) currency;
                  Amount := apply_type str_num (type_cell ws cols row) a;
                  Description := raw_description_of str_num ws cols count row;
                  MerchantName := extract_merchant_name (raw_description_of str_num ws cols count row);
                  Type_ := if truthy (type_cell ws cols row)
                           then strip (str str_num (type_cell ws cols row))
                           else if is_negative (apply_type str_num (type_cell ws cols row) a)
                                then "Withdrawal" else "Deposit";
                  Category := JStr category;
                  Subcategory := JStr category |}.
Proof.
  unfold process_row, passes_filters, amount_of_columns, raw_description_of.
  fold (date_cell ws cols row) (description_cell ws cols row) (type_cell ws cols row)
       (debit_cell ws cols row) (credit_cell ws cols row).
  destruct (truthy (date_cell ws cols row)); cbn [negb andb]; [| discriminate].
  destruct (any_in _ (Py.upper (str str_num (date_cell ws cols row)))); cbn [negb andb];
    [discriminate |].
  destruct (truthy (description_cell ws cols row) && _); cbn [negb]; [discriminate |].
  destruct (column_amount _ _ _ _ _ _ _) as [a|]; [| discriminate].
  destruct (is_zero (apply_type str_num (type_cell ws cols row) a)) eqn:Z; [discriminate |].
  set (raw := if truthy (description_cell ws cols row) then _ else _).
  destruct (categorize_transaction_total (extract_merchant_name raw)) as (c1 & -> & C1).
  destruct (categorize_transaction_total raw) as (c2 & E2 & C2).
  destruct (c1 =? "Other").
  - rewrite E2. intros [= <-]. split; [reflexivity |].
    exists a, c2. repeat split; assumption.
  - intros [= <-]. split; [reflexivity |].
    exists a, c1. repeat split; assumption.
Qed.

(** A row that passes the filters and has an amount other than zero yields
    a record. *)
Lemma process_row_yields count row a :
  passes_filters str_num ws cols row = true ->
  amount_of_columns float str_num ws cols row = Some a ->
  is_zero (apply_type str_num (type_cell ws cols row) a) = false ->
  exists tx, process_row float str_num now ws cols currency count row = Some tx.
Proof.
  unfold process_row, passes_filters, amount_of_columns.
  fold (date_cell ws cols row) (description_cell ws cols row) (type_cell ws cols row)
       (debit_cell ws cols row) (credit_cell ws cols row).
  intros P A Z.
  apply andb_prop in P. destruct P as [P P3].
  apply andb_prop in P. destruct P as [P1 P2].
  rewrite P1. apply negb_true_iff in P2, P3. rewrite P2, P3. cbn [negb].
  rewrite A, Z.
  set (raw := if truthy (description_cell ws cols row) then _ else _).
  destruct (categorize_transaction_total (extract_merchant_name raw)) as (c1 & -> & C1).
  destruct (categorize_transaction_total raw) as (c2 & E2 & C2).
  destruct (c1 =? "Other"); [rewrite E2 |]; eauto.
Qed.


(** C10, amended.  On a sheet of ASCII text the sign correction compares
    the whole trimmed, lower-cased type cell with the listed words.  Exactly withdrawal,
    debit, dr and debit card purchase give minus the absolute value,
    exactly deposit, credit and cr give the absolute value, any other text
    leaves the amount of the columns as it is; minus the absolute value is
    negative and the absolute value positive when the amount is not nan.
    In every case the Type field is the text of the cell without the white
    space around it, its letters unchanged. *)
Theorem type_cell_exact_match count row tx :
  ascii_sheet str_num ws ->
  process_row float str_num now ws cols currency count row = Some tx ->
  truthy (type_cell ws cols row) = true ->
  exists a,
    amount_of_columns float str_num ws cols row = Some a
    /\ Type_ tx = strip (str str_num (type_cell ws cols row))
    /\ (type_val str_num ws cols row = "withdrawal"
        \/ type_val str_num ws cols row = "debit"
        \/ type_val str_num ws cols row = "dr"
        \/ type_val str_num ws cols row = "debit card purchase" ->
        Amount tx = fneg (fabs a)
        /\ (is_nan a = false -> is_negative (Amount tx) = true))
    /\ (type_val str_num ws cols row = "deposit"
        \/ type_val str_num ws cols row = "credit"
        \/ type_val str_num ws cols row = "cr" ->
        Amount tx = fabs a
        /\ (is_nan a = false -> is_positive (Amount tx) = true))
    /\ (type_val str_num ws cols row <> "withdrawal" ->
        type_val str_num ws cols row <> "debit" ->
        type_val str_num ws cols row <> "dr" ->
        type_val str_num ws cols row <> "debit card purchase" ->
        type_val str_num ws cols row <> "deposit" ->
        type_val str_num ws cols row <> "credit" ->
        type_val str_num ws cols row <> "cr" ->
        Amount tx = a).
Proof.
  intros _ H T. destruct (process_row_some _ _ _ H) as (_ & a & c & A & Z & _ & ->).
  exists a. cbn [Amount Type_]. rewrite T. split; [exact A |]. split; [reflexivity |].
  unfold type_val. unfold apply_type in *. rewrite T in *.
  split; [| split].
  - intros M.
    assert (M4 : mem (lower (strip (str str_num (type_cell ws cols row))))
                   ["withdrawal"; "debit"; "dr"; "debit card purchase"] = true)
      by (destruct M as [-> | [-> | [-> | ->]]]; reflexivity).
    rewrite M4 in *. split; [reflexivity |].
    intros N. apply neg_abs_negative; assumption.
  - intros M.
    assert (M4 : mem (lower (strip (str str_num (type_cell ws cols row))))
                   ["withdrawal"; "debit"; "dr"; "debit card purchase"] = false)
      by (destruct M as [-> | [-> | ->]]; reflexivity).
    assert (M3 : mem (lower (strip (str str_num (type_cell ws cols row))))
                   ["deposit"; "credit"; "cr"] = true)
      by (destruct M as [-> | [-> | ->]]; reflexivity).
    rewrite M4, M3 in *. split; [reflexivity |].
    intros N. apply abs_positive; assumption.
  - intros N1 N2 N3 N4 N5 N6 N7.
    apply String.eqb_neq in N1, N2, N3, N4, N5, N6, N7.
    unfold mem. cbn [existsb]. rewrite N1, N2, N3, N4, N5, N6, N7. reflexivity.
Qed.

(** C8, amended.  A row without a description is not skipped for that: when
    it passes the filters on the date cell and its amount is not zero it
    yields a record whose description is the text [Transaction N], [N]
    being one more than the number of records built so far, and the scan
    goes on with the next row. *)
Theorem missing_description_gets_placeholder count row a :
  truthy (description_cell ws cols row) = false ->
  passes_filters str_num ws cols row = true ->
  amount_of_columns float str_num ws cols row = Some a ->
  is_zero (apply_type str_num (type_cell ws cols row) a) = false ->
  exists tx,
    process_row float str_num now ws cols currency count row = Some tx
    /\ Description tx = "Transaction " ++ str_nat (count + 1)
    /\ Amount tx = apply_type str_num (type_cell ws cols row) a
    /\ forall rest all_transactions,
         List.length all_transactions = count ->
         scan_rows float str_num now ws cols currency (row :: rest) all_transactions
         = scan_rows float str_num now ws cols currency rest
             (all_transactions ++ [tx])%list.
Proof.
  intros D P A Z.
  destruct (process_row_yields count row a P A Z) as (tx & H).
  exists tx. split; [exact H |].
  destruct (process_row_some _ _ _ H) as (_ & a' & c & A' & _ & _ & E).
  assert (a' = a) by congruence. subst a'.
  split; [| split].
  - rewrite E. cbn [Description]. unfold raw_description_of. rewrite D. reflexivity.
  - rewrite E. reflexivity.
  - intros rest all_transactions L. unfold scan_rows. cbn [fold_left].
    rewrite L, H. reflexivity.
Qed.

(** What every record built by the row loop satisfies. *)
Lemma process_row_record count row tx :
  process_row float str_num now ws cols currency count row = Some tx ->
  is_zero (Amount tx) = false
  /\ in_taxonomy (Category tx) = true
  /\ Subcategory tx = Category tx
  /\ MerchantName tx = extract_merchant_name (Description tx)
  /\ (is_empty (Description tx) = false -> is_empty (MerchantName tx) = false).
Proof.
  intros H. destruct (process_row_some _ _ _ H) as (_ & a & c & A & Z & C & ->).
  cbn. repeat split; try assumption.
  apply extract_merchant_name_nonempty.
Qed.

End Rows.



Lemma type_cell_exact_match_witness :
  exists tx,
    process_row decimal show_number example_now typed_sheet typed_columns "AED" 0 2
      = Some tx
    /\ Type_ tx = "Debit" /\ Amount tx = Finite (-15000 # 100).
Proof.
  eexists. split; [vm_compute; reflexivity |].
  match goal with
  | |- Type_ ?t = _ /\ _ =>
      destruct (type_cell_exact_match decimal show_number example_now
                  typed_sheet typed_columns "AED" 0 2 t
                  ltac:(apply sheet_of_ascii_sheet; repeat constructor)
                  ltac:(vm_compute; reflexivity) ltac:(vm_compute; reflexivity))
        as (a & A & T & Neg & _)
  end.
  split; [exact T |].
  rewrite (proj1 (Neg ltac:(right; left; vm_compute; reflexivity))).
  vm_compute in A. injection A as <-. vm_compute. reflexivity.
Defined.

(** The type cell [" POS Purchase "] is none of the listed words and the
    amount of the columns is kept, but the cell is not copied as it
    stands: the Type field is [POS Purchase], without the white space
    around it. *)
Lemma type_cell_is_trimmed :
  exists tx,
    process_row decimal show_number example_now spaced_type_sheet spaced_type_columns
      "AED" 0 2 = Some tx
    /\ ascii_sheet show_number spaced_type_sheet
    /\ str show_number (type_cell spaced_type_sheet spaced_type_columns 2)
       = " POS Purchase "
    /\ Amount tx = Finite (-8000 # 100)
    /\ Type_ tx = "POS Purchase"
    /\ Type_ tx <> str show_number (type_cell spaced_type_sheet spaced_type_columns 2).
Proof.
  eexists. split; [vm_compute; reflexivity |].
  split; [apply sheet_of_ascii_sheet; repeat constructor |].
  split; [vm_compute; reflexivity |]. split; [vm_compute; reflexivity |].
  split; [vm_compute; reflexivity |].
  vm_compute. discriminate.
Qed.

Lemma missing_description_gets_placeholder_witness :
  exists tx,
    process_row decimal show_number example_now missing_description_sheet
      missing_description_columns "AED" 0 2 = Some tx
    /\ Description tx = "Transaction 1".
Proof.
  destruct (missing_description_gets_placeholder decimal show_number example_now
              missing_description_sheet missing_description_columns "AED" 0 2
              (Finite (500000 # 100))
              ltac:(vm_compute; reflexivity) ltac:(vm_compute; reflexivity)
              ltac:(vm_compute; reflexivity) ltac:(vm_compute; reflexivity))
    as (tx & H & D & _).
  exists tx. split; [exact H | exact D].
Defined.

(** The second row of the example has no description; the scan keeps it,
    under the name [Transaction 1]. *)
Lemma missing_description_row_kept :
  truthy (cell_at missing_description_sheet 2 2) = false
  /\ map Description
       (process_sheet decimal show_number example_now "AED" [] missing_description_sheet)
     = ["Transaction 1"; "CHECKCARD 1205 CARREFOUR DXB"]
  /\ process_row decimal show_number example_now missing_description_sheet
       missing_description_columns "AED" 0 2 <> None.
Proof.
  split; [reflexivity |]. split; [vm_compute; reflexivity |].
  vm_compute. discriminate.
Qed.


(** ** The batch refiner *)

(** *** Lists cut in batches *)

Lemma firstn_plus {A} (a b : nat) (l : list A) :
  firstn (a + b) l = (firstn a l ++ firstn b (skipn a l))%list.
Proof.
  revert l; induction a as [|a IH]; intros [|x l]; cbn; try reflexivity.
  - rewrite firstn_nil. reflexivity.
  - rewrite IH. reflexivity.
Qed.

Lemma skipn_plus {A} (a b : nat) (l : list A) :
  skipn (a + b) l = skipn b (skipn a l).
Proof.
  revert l; induction a as [|a IH]; intros [|x l]; cbn; try reflexivity.
  - rewrite skipn_nil. reflexivity.
  - apply IH.
Qed.

Lemma slice_length {A} (i : nat) (l : list A) :
  List.length (slice i (i + batch_size) l) = Nat.min batch_size (List.length l - i).
Proof.
  unfold slice. replace (i + batch_size - i) with batch_size by lia.
  rewrite length_firstn, length_skipn. reflexivity.
Qed.

Lemma flat_map_map {A B C} (f : A -> B) (g : B -> list C) (l : list A) :
  flat_map g (map f l) = flat_map (fun x => g (f x)) l.
Proof. induction l as [|x l IH]; cbn; [reflexivity | rewrite IH; reflexivity]. Qed.

Lemma Forall2_flat_map {A B C} (R : B -> C -> Prop) (f : A -> list B) (g : A -> list C) l :
  (forall x, In x l -> Forall2 R (f x) (g x)) ->
  Forall2 R (flat_map f l) (flat_map g l).
Proof.
  induction l as [|x l IH]; intros H; cbn; [constructor |].
  apply Forall2_app; [apply H; left; reflexivity |].
  apply IH. intros y I. apply H. right. assumption.
Qed.

Lemma Forall2_nth {A B} (R : A -> B -> Prop) (l : list A) : forall l' : list B,
  List.length l' = List.length l ->
  (forall j x, nth_error l j = Some x -> exists y, nth_error l' j = Some y /\ R x y) ->
  Forall2 R l l'.
Proof.
  induction l as [|x l IH]; intros [|y l'] L H; cbn in L; try discriminate.
  - constructor.
  - constructor.
    + destruct (H 0 x eq_refl) as (y' & [= <-] & Rxy). assumption.
    + apply IH; [lia |]. intros j z E. exact (H (S j) z E).
Qed.

(** The number of batches: [k] counts one when [k * 50] is an index. *)
Lemma batch_count n k :
  k < (n + (batch_size - 1)) / batch_size <-> k * batch_size < n.
Proof.
  unfold batch_size. cbn [Nat.sub]. split; intros H.
  - destruct (Nat.lt_ge_cases (k * 50) n) as [L | G]; [assumption | exfalso].
    assert ((n + 49) / 50 < k + 1) by (apply Nat.Div0.div_lt_upper_bound; lia).
    lia.
  - assert (k + 1 <= (n + 49) / 50) by (apply Nat.div_le_lower_bound; lia).
    lia.
Qed.

Lemma batch_starts_spec n i :
  In i (batch_starts n) <-> exists k, i = k * batch_size /\ i < n.
Proof.
  unfold batch_starts. rewrite in_map_iff. split.
  - intros (k & <- & I). apply in_seq in I. exists k. split; [reflexivity |].
    apply batch_count. lia.
  - intros (k & -> & L). exists k. split; [reflexivity |].
    apply in_seq. apply batch_count in L. lia.
Qed.

Section Batches.

Context {A : Type}.
Variable l : list A.
(** What is done with the batch that starts at an index; it keeps the length. *)
Variable G : nat -> list A.
Hypothesis G_length :
  forall i, List.length (G i) = List.length (slice i (i + batch_size) l).


Lemma batches_prefix_length k :
  List.length (flat_map G (starts k)) = Nat.min (k * batch_size) (List.length l).
Proof.
  unfold starts. induction k as [|k IH]; [reflexivity |].
  rewrite seq_S, map_app, flat_map_app, length_app, IH. cbn [map flat_map Nat.add].
  rewrite app_nil_r, G_length, slice_length. unfold batch_size. lia.
Qed.

Lemma slices_prefix k :
  flat_map (fun i => slice i (i + batch_size) l) (starts k) = firstn (k * batch_size) l.
Proof.
  unfold starts. induction k as [|k IH]; [reflexivity |].
  rewrite seq_S, map_app, flat_map_app, IH. cbn [map flat_map Nat.add].
  rewrite app_nil_r. unfold slice.
  replace (k * batch_size + batch_size - k * batch_size) with batch_size by lia.
  replace (S k * batch_size) with (k * batch_size + batch_size) by lia.
  symmetry. apply firstn_plus.
Qed.

(** The batches, put end to end, are the list. *)
Lemma slices_concat :
  flat_map (fun i => slice i (i + batch_size) l) (batch_starts (List.length l)) = l.
Proof.
  unfold batch_starts. fold (starts ((List.length l + (batch_size - 1)) / batch_size)).
  rewrite slices_prefix. apply firstn_all2.
  set (nb := (List.length l + (batch_size - 1)) / batch_size).
  destruct (Nat.lt_ge_cases (nb * batch_size) (List.length l)) as [L | Ge]; [| lia].
  apply batch_count in L. lia.
Qed.

(** In the result each batch is where it was in the list. *)
Lemma batch_in_place i :
  In i (batch_starts (List.length l)) ->
  slice i (i + batch_size) (flat_map G (batch_starts (List.length l))) = G i.
Proof.
  intros I. apply batch_starts_spec in I. destruct I as (k & -> & L).
  pose proof (proj2 (batch_count _ _) L) as K.
  set (nb := (List.length l + (batch_size - 1)) / batch_size) in *.
  unfold batch_starts. fold nb.
  replace nb with (k + (1 + (nb - S k))) by lia.
  rewrite seq_app, map_app, flat_map_app. fold (starts k).
  cbn [seq map flat_map Nat.add].
  unfold slice.
  replace (k * batch_size + batch_size - k * batch_size) with batch_size by lia.
  assert (Lp : List.length (flat_map G (starts k)) = k * batch_size).
  { rewrite batches_prefix_length. lia. }
  rewrite skipn_app, Lp, Nat.sub_diag. cbn [skipn].
  rewrite skipn_all2 by lia. cbn [app].
  rewrite firstn_app.
  assert (Lg : List.length (G (k * batch_size))
               = Nat.min batch_size (List.length l - k * batch_size)).
  { rewrite G_length, slice_length. reflexivity. }
  rewrite firstn_all2 by lia.
  destruct (Nat.le_gt_cases batch_size (List.length l - k * batch_size)) as [Full | Last].
  - replace (batch_size - List.length (G (k * batch_size))) with 0 by lia.
    cbn [firstn]. apply app_nil_r.
  - assert (E : nb - S k = 0).
    { destruct (Nat.eq_dec (nb - S k) 0) as [E | Ne]; [assumption | exfalso].
      assert (S k < nb) by lia.
      assert (S k * batch_size < List.length l) by (apply batch_count; assumption).
      unfold batch_size in *. lia. }
    rewrite E. cbn [seq map flat_map]. rewrite firstn_nil. apply app_nil_r.
Qed.

End Batches.

(** *** One batch *)

Lemma nth_error_skipn_cons {A} (l : list A) : forall n x,
  nth_error l n = Some x -> skipn n l = x :: skipn (S n) l.
Proof.
  induction l as [|y l IH]; intros [|n] x H; cbn in *; try discriminate.
  - congruence.
  - apply IH. assumption.
Qed.

(** The padding loop adds the categories of the records the answer does
    not reach. *)
Lemma pad_closed turns : forall items batch,
  List.length batch - List.length items <= turns ->
  pad turns items batch
  = (items ++ map Category (skipn (List.length items) batch))%list.
Proof.
  induction turns as [|turns IH]; intros items batch L; cbn [pad].
  - rewrite skipn_all2 by lia. cbn. symmetry. apply app_nil_r.
  - destruct (List.length items <? List.length batch)%nat eqn:C.
    + apply Nat.ltb_lt in C.
      destruct (nth_error batch (List.length items)) as [tx|] eqn:E.
      * rewrite IH by (rewrite length_app; cbn; lia).
        rewrite (nth_error_skipn_cons _ _ _ E). rewrite length_app. cbn [List.length map].
        rewrite <- app_assoc. cbn [app].
        replace (List.length items + 1) with (S (List.length items)) by lia.
        reflexivity.
      * apply nth_error_None in E. lia.
    + apply Nat.ltb_ge in C. rewrite skipn_all2 by lia. cbn. symmetry. apply app_nil_r.
Qed.

Lemma pad_nth items batch j :
  nth_error (pad (List.length batch) items batch) j
  = if (j <? List.length items)%nat then nth_error items j
    else option_map Category (nth_error batch j).
Proof.
  rewrite pad_closed by lia.
  destruct (j <? List.length items)%nat eqn:C.
  - apply Nat.ltb_lt in C. apply nth_error_app1. assumption.
  - apply Nat.ltb_ge in C. rewrite nth_error_app2 by assumption.
    rewrite nth_error_map, nth_error_skipn.
    replace (List.length items + (j - List.length items)) with j by lia.
    reflexivity.
Qed.

Lemma apply_from_length cats batch : forall idx,
  List.length (apply_from idx cats batch) = List.length batch.
Proof. induction batch as [|tx batch IH]; intros idx; cbn; [reflexivity | rewrite IH; reflexivity]. Qed.

Lemma apply_from_nth cats batch : forall idx j,
  nth_error (apply_from idx cats batch) j
  = option_map
      (fun tx => match nth_error cats (idx + j) with
                 | Some c => set_category tx c
                 | None => tx
                 end)
      (nth_error batch j).
Proof.
  induction batch as [|tx batch IH]; intros idx [|j]; cbn; try reflexivity.
  - rewrite Nat.add_0_r. reflexivity.
  - rewrite IH. replace (S idx + j) with (idx + S j) by lia. reflexivity.
Qed.

Lemma refine_batch_length o batch :
  List.length (refine_batch o batch) = List.length batch.
Proof.
  destruct o as [|[]]; cbn [refine_batch]; try reflexivity.
  - destruct (String.length s <? List.length batch)%nat;
      [reflexivity | apply apply_from_length].
  - apply apply_from_length.
Qed.

(** What the batch is turned into, record by record. *)
Lemma refine_batch_nth o batch j tx :
  nth_error batch j = Some tx ->
  exists tx', nth_error (refine_batch o batch) j = Some tx' /\ refined o tx tx'.
Proof.
  intros E. unfold refined.
  destruct o as [|[| | | s | items |]]; cbn [refine_batch answer_items];
    try (exists tx; split; [assumption | left; reflexivity]).
  - destruct (String.length s <? List.length batch)%nat;
      [exists tx; split; [assumption | left; reflexivity] |].
    rewrite apply_from_nth, E. cbn [option_map Nat.add].
    destruct (nth_error (chars s) j) as [c|] eqn:C.
    + eexists. split; [reflexivity |]. right. exists c. split; [reflexivity |].
      right. exact (nth_error_In _ _ C).
    + eexists. split; [reflexivity |]. left. reflexivity.
  - rewrite apply_from_nth, E. cbn [option_map Nat.add]. rewrite pad_nth, E. cbn [option_map].
    destruct (j <? List.length items)%nat.
    + destruct (nth_error items j) as [c|] eqn:C.
      * eexists. split; [reflexivity |]. right. exists c. split; [reflexivity |].
        right. exact (nth_error_In _ _ C).
      * eexists. split; [reflexivity |]. left. reflexivity.
    + eexists. split; [reflexivity |]. right. exists (Category tx). auto.
Qed.

(** The same, with the entry of the answer that is used. *)
Lemma refine_batch_place o batch j tx :
  nth_error batch j = Some tx ->
  exists tx', nth_error (refine_batch o batch) j = Some tx'
              /\ refined_in_place o j tx tx'.
Proof.
  intros E. unfold refined_in_place.
  destruct o as [|[| | | s | items |]]; cbn [refine_batch answer_items];
    try (exists tx; split; [assumption | left; reflexivity]).
  - destruct (String.length s <? List.length batch)%nat;
      [exists tx; split; [assumption | left; reflexivity] |].
    rewrite apply_from_nth, E. cbn [option_map Nat.add].
    destruct (nth_error (chars s) j) as [c|] eqn:C.
    + eexists. split; [reflexivity |]. right. exists c. split; [reflexivity |].
      right. reflexivity.
    + eexists. split; [reflexivity |]. left. reflexivity.
  - rewrite apply_from_nth, E. cbn [option_map Nat.add]. rewrite pad_nth, E. cbn [option_map].
    destruct (j <? List.length items)%nat.
    + destruct (nth_error items j) as [c|] eqn:C.
      * eexists. split; [reflexivity |]. right. exists c. split; [reflexivity |].
        right. reflexivity.
      * eexists. split; [reflexivity |]. left. reflexivity.
    + eexists. split; [reflexivity |]. right. exists (Category tx). auto.
Qed.

Lemma refined_in_place_refined o j tx tx' :
  refined_in_place o j tx tx' -> refined o tx tx'.
Proof.
  intros [-> | (c & -> & [-> | C])]; [left; reflexivity | |];
    right; eexists; split; try reflexivity; [left; reflexivity |].
  right. exact (nth_error_In _ _ C).
Qed.

(** Beyond the end of a short answer the record keeps its category. *)
Lemma refine_batch_tail items batch j tx :
  List.length items <= j -> nth_error batch j = Some tx ->
  nth_error (refine_batch (Parsed (JArr items)) batch) j
  = Some (set_category tx (Category tx)).
Proof.
  intros L E. cbn [refine_batch]. rewrite apply_from_nth, E. cbn [option_map Nat.add].
  rewrite pad_nth, E. cbn [option_map].
  destruct (j <? List.length items)%nat eqn:C; [apply Nat.ltb_lt in C; lia |].
  reflexivity.
Qed.

Lemma refined_same_identity o tx tx' : refined o tx tx' -> same_identity tx tx'.
Proof.
  intros [-> | (c & -> & _)]; unfold same_identity; cbn; repeat split; reflexivity.
Qed.


(** *** The whole list *)

Section Refiner.

Variable api_key : bool.
Variable classify : nat -> list transaction -> outcome.
Variable transactions : list transaction.

Lemma refined_at_length i :
  List.length (refined_at api_key classify transactions i) = List.length (slice i (i + batch_size) transactions).
Proof.
  unfold refined_at. destruct api_key; [apply refine_batch_length | reflexivity].
Qed.

(** The result is the batches, each refined, put end to end. *)
Lemma ai_categorize_transactions_batches :
  ai_categorize_transactions api_key classify transactions
  = flat_map (refined_at api_key classify transactions) (batch_starts (List.length transactions)).
Proof.
  unfold ai_categorize_transactions, refined_at.
  destruct api_key; cbn [negb orb].
  - destruct (List.length transactions =? 0)%nat eqn:E; [| reflexivity].
    apply Nat.eqb_eq in E. rewrite E.
    destruct transactions; [reflexivity | discriminate].
  - symmetry. apply slices_concat.
Qed.

Lemma ai_categorize_transactions_slice i :
  In i (batch_starts (List.length transactions)) ->
  slice i (i + batch_size) (ai_categorize_transactions api_key classify transactions)
  = refined_at api_key classify transactions i.
Proof.
  intros I. rewrite ai_categorize_transactions_batches.
  apply batch_in_place; [apply refined_at_length | assumption].
Qed.

Lemma nth_error_slice {A} (l : list A) i b j :
  j < b -> nth_error (slice i (i + b) l) j = nth_error l (i + j).
Proof.
  intros L. unfold slice. replace (i + b - i) with b by lia.
  rewrite nth_error_firstn. apply Nat.ltb_lt in L. rewrite L.
  apply nth_error_skipn.
Qed.

(** The record at a place of the result comes from the batch of the place. *)
Lemma refined_place k j :
  j < batch_size -> k * batch_size < List.length transactions ->
  nth_error (ai_categorize_transactions api_key classify transactions) (k * batch_size + j)
  = nth_error (refined_at api_key classify transactions (k * batch_size)) j.
Proof.
  intros J K.
  rewrite <- (nth_error_slice _ (k * batch_size) batch_size j J).
  rewrite ai_categorize_transactions_slice; [reflexivity |].
  apply batch_starts_spec. exists k. split; [reflexivity | exact K].
Qed.

(** The record at the place [p] of the list is found at the place [p] of
    the result, refined with the entry number [p mod 50] of the answer for
    its batch. *)
Lemma ai_categorize_transactions_place p tx :
  nth_error transactions p = Some tx ->
  exists tx',
    nth_error (ai_categorize_transactions api_key classify transactions) p = Some tx'
    /\ refined_in_place
         (classify (p / batch_size * batch_size)
            (batch_at transactions (p / batch_size * batch_size)))
         (p mod batch_size) tx tx'.
Proof.
  intros E.
  assert (L : p < List.length transactions) by (apply nth_error_Some; congruence).
  pose proof (Nat.div_mod_eq p batch_size) as D.
  assert (M : p mod batch_size < batch_size)
    by (apply Nat.mod_upper_bound; discriminate).
  assert (P : p = p / batch_size * batch_size + p mod batch_size) by lia.
  assert (K : p / batch_size * batch_size < List.length transactions) by lia.
  assert (B : nth_error (batch_at transactions (p / batch_size * batch_size))
                (p mod batch_size) = Some tx).
  { unfold batch_at. rewrite (nth_error_slice _ _ _ _ M), <- P. exact E. }
  pose proof (refined_place _ _ M K) as R. rewrite <- P in R. rewrite R.
  unfold refined_at. destruct api_key.
  - apply refine_batch_place. exact B.
  - exists tx. split; [exact B | left; reflexivity].
Qed.

Lemma refined_at_records i :
  Forall2 (refined (classify i (batch_at transactions i))) (batch_at transactions i) (refined_at api_key classify transactions i).
Proof.
  apply Forall2_nth; [apply refined_at_length |].
  intros j tx E. unfold refined_at. destruct api_key.
  - apply refine_batch_nth. assumption.
  - exists tx. split; [assumption | left; reflexivity].
Qed.

Lemma ai_categorize_transactions_records :
  Forall2
    (fun tx tx' =>
       exists i, In i (batch_starts (List.length transactions))
                 /\ refined (classify i (batch_at transactions i)) tx tx')
    transactions
    (ai_categorize_transactions api_key classify transactions).
Proof.
  rewrite ai_categorize_transactions_batches.
  rewrite <- (slices_concat transactions) at 1.
  apply Forall2_flat_map. intros i I.
  eapply Forall2_impl; [| apply refined_at_records].
  intros tx tx' R. exists i. split; assumption.
Qed.

(** C7. For every batch sent to the classifier: when the request raises
    (transport error, timeout, text that is no JSON) the records of the
    batch come back as they were; when the answer is an array shorter than
    the batch, every record beyond its end keeps its own category.  In
    both cases the call returns a list as long as the one it was given. *)
Theorem refiner_failure_keeps_categories (i : nat) :
  In i (batch_starts (List.length transactions)) ->
  let batch := slice i (i + batch_size) transactions in
  let answered :=
    slice i (i + batch_size)
      (ai_categorize_transactions api_key classify transactions) in
  List.length (ai_categorize_transactions api_key classify transactions)
    = List.length transactions
  /\ (classify i batch = Raised -> answered = batch)
  /\ (forall items j tx,
        classify i batch = Parsed (JArr items) ->
        List.length items <= j -> nth_error batch j = Some tx ->
        exists tx', nth_error answered j = Some tx'
                    /\ Category tx' = Category tx /\ same_identity tx tx').
Proof.
  intros I batch answered.
  split; [| split].
  - symmetry. exact (Forall2_length ai_categorize_transactions_records).
  - intros R. unfold answered. rewrite ai_categorize_transactions_slice by assumption.
    unfold refined_at, batch_at. fold batch. rewrite R. destruct api_key; reflexivity.
  - intros items j tx P L E. unfold answered.
    rewrite ai_categorize_transactions_slice by assumption.
    unfold refined_at, batch_at. fold batch. rewrite P. destruct api_key.
    + rewrite (refine_batch_tail items batch j tx L E).
      eexists. split; [reflexivity |]. split; [reflexivity |].
      unfold same_identity. cbn. repeat split; reflexivity.
    + exists tx. split; [assumption |]. split; [reflexivity |].
      unfold same_identity. repeat split; reflexivity.
Qed.

End Refiner.

Lemma refiner_failure_keeps_categories_witness :
  map Category
    (slice 0 (0 + batch_size)
       (ai_categorize_transactions true (fun _ _ => Raised) example_records))
  = [JStr "Food & Beverage"; JStr "Utilities"]
  /\ exists tx',
       nth_error (slice 0 (0 + batch_size)
                    (ai_categorize_transactions true short_answer example_records)) 1
       = Some tx'
       /\ Category tx' = JStr "Utilities".
Proof.
  split.
  - rewrite (proj1 (proj2 (refiner_failure_keeps_categories true (fun _ _ => Raised)
                             example_records 0 ltac:(vm_compute; auto)))
               eq_refl).
    reflexivity.
  - destruct (proj2 (proj2 (refiner_failure_keeps_categories true short_answer
                              example_records 0 ltac:(vm_compute; auto)))
                [JStr "Retail & Shopping"] 1 _ eq_refl ltac:(cbn; lia) eq_refl)
      as (tx' & E & C & _).
    exists tx'. split; [exact E | exact C].
Defined.


(** ** The records and the refiner *)

(** The classifier answers [Groceries] for the first record: the name is
    written into the record, and it is none of the fifteen.  A description
    cell made of white space gives a record with an empty merchant name. *)
Lemma refiner_writes_foreign_category :
  Forall (fun tx => in_taxonomy (Category tx) = true) example_records
  /\ map Category (ai_categorize_transactions true foreign_answer example_records)
     = [JStr "Groceries"; JStr "Utilities"]
  /\ ~ Forall (fun tx => in_taxonomy (Category tx) = true)
         (ai_categorize_transactions true foreign_answer example_records)
  /\ map MerchantName
       (process_sheet decimal show_number example_now "AED" [] blank_description_sheet)
     = [""].
Proof.
  split; [repeat constructor |]. split; [vm_compute; reflexivity |].
  split; [| vm_compute; reflexivity].
  intros H. vm_compute in H. inversion H as [|? ? H1 _]. discriminate H1.
Qed.

Lemma Forall2_Forall_r {A B} (R : A -> B -> Prop) (P : A -> Prop) (Q : B -> Prop) l l' :
  (forall x y, P x -> R x y -> Q y) -> Forall2 R l l' -> Forall P l -> Forall Q l'.
Proof.
  intros H F. induction F as [|x y l l' Rxy _ IH]; intros Pl; [constructor |].
  inversion Pl; subst. constructor; [eapply H; eassumption | apply IH; assumption].
Qed.

(** C2, amended.  A record built by the row loop has an amount other than
    zero and a category of the closed taxonomy, and its merchant name is
    not empty when its description is not.  The refiner returns as many
    records as it was given, and the record at each place of the result is
    the record at that place of the list with nothing changed but the two
    category fields: its category is either the one it had or the entry of
    the classifier's answer for its batch at the place of the record in
    the batch.  So the categories stay in the taxonomy when the entries of
    the answers are in it. *)
Theorem records_and_refiner
    (float : string -> option pyfloat) (str_num : Q -> string) (now : datetime)
    (ws : worksheet) (cols : columns) (currency : string) (count row : nat)
    (tx : transaction) (api_key : bool)
    (classify : nat -> list transaction -> outcome)
    (transactions : list transaction) :
  (process_row float str_num now ws cols currency count row = Some tx ->
   is_zero (Amount tx) = false
   /\ in_taxonomy (Category tx) = true
   /\ (is_empty (Description tx) = false -> is_empty (MerchantName tx) = false))
  /\ List.length (ai_categorize_transactions api_key classify transactions)
     = List.length transactions
  /\ (forall p t,
        nth_error transactions p = Some t ->
        exists t',
          nth_error (ai_categorize_transactions api_key classify transactions) p
          = Some t'
          /\ same_identity t t'
          /\ (t' = t
              \/ exists c,
                   t' = set_category t c
                   /\ (c = Category t
                       \/ nth_error
                            (answer_items
                               (classify (p / batch_size * batch_size)
                                  (slice (p / batch_size * batch_size)
                                     (p / batch_size * batch_size + batch_size)
                                     transactions)))
                            (p mod batch_size) = Some c)))
  /\ (Forall (fun t => in_taxonomy (Category t) = true) transactions ->
      (forall i v, In i (batch_starts (List.length transactions)) ->
         In v (answer_items (classify i (slice i (i + batch_size) transactions))) ->
         in_taxonomy v = true) ->
      Forall (fun t => in_taxonomy (Category t) = true)
        (ai_categorize_transactions api_key classify transactions)).
Proof.
  split; [| split; [| split]].
  - intros H.
    destruct (process_row_record _ _ _ _ _ _ _ _ _ H) as (Z & C & _ & _ & M).
    auto.
  - symmetry.
    exact (Forall2_length
             (ai_categorize_transactions_records api_key classify transactions)).
  - intros p t E.
    destruct (ai_categorize_transactions_place api_key classify transactions p t E)
      as (t' & E' & R).
    exists t'. split; [exact E' |].
    split; [exact (refined_same_identity _ _ _ (refined_in_place_refined _ _ _ _ R)) |].
    exact R.
  - intros T Ans.
    refine (Forall2_Forall_r _ _ _ _ _ _
              (ai_categorize_transactions_records api_key classify transactions) T).
    intros t t' Pt (i & I & [-> | (c & -> & [-> | Inc])]); cbn [Category set_category].
    + assumption.
    + assumption.
    + exact (Ans i c I Inc).
Qed.

Lemma records_and_refiner_witness :
  exists tx,
    process_row decimal show_number example_now typed_sheet typed_columns "AED" 0 2
      = Some tx
    /\ is_zero (Amount tx) = false
    /\ (exists t',
          nth_error (ai_categorize_transactions true short_answer example_records) 0
          = Some t'
          /\ Description t' = "CARREFOUR DXB")
    /\ Forall (fun t => in_taxonomy (Category t) = true)
         (ai_categorize_transactions true short_answer example_records).
Proof.
  eexists. split; [vm_compute; reflexivity |].
  match goal with
  | |- is_zero (Amount ?t) = false /\ _ =>
      pose proof (records_and_refiner decimal show_number example_now typed_sheet
                    typed_columns "AED" 0 2 t true short_answer example_records)
        as (Row & _ & Place & Tax)
  end.
  split; [| split].
  - exact (proj1 (Row ltac:(vm_compute; reflexivity))).
  - destruct (Place 0 _ eq_refl) as (t' & E & (_ & _ & D & _) & _).
    exists t'. split; [exact E | exact D].
  - apply Tax.
    + repeat constructor.
    + intros i v _ [<- | []]. reflexivity.
Defined.

(** * What the matcher finds *)

Lemma string_app_empty (s : string) : s ++ "" = s.
Proof. induction s as [|c s IH]; cbn; [reflexivity | rewrite IH; reflexivity]. Qed.

(** A greedy repetition takes the whole run of characters of the class
    when the rest of the pattern matches after it. *)
Lemma rep_greedy_all {A} ic p (k : option ascii -> string -> option A) res s :
  forall w lo hi prev,
  all_chars (cls_ok ic p) w = true -> lo <= String.length w ->
  within hi (String.length w) ->
  hi = Some (String.length w) \/ stops ic p s ->
  k (last_char prev w) s = Some res ->
  rep ic true lo hi p prev (w ++ s) k = Some res.
Proof.
  induction w as [|x w IH]; intros lo hi prev W L B E K.
  - cbn in L. assert (lo = 0) by lia. subst lo.
    cbn [append last_char] in *.
    destruct s as [|y s]; cbn [rep]; [cbn; exact K |].
    destruct E as [-> | E]; cbn [String.length room].
    + rewrite andb_false_r. cbn. exact K.
    + cbn in E. rewrite E. cbn. exact K.
  - cbn in W. apply andb_prop in W. destruct W as [X W].
    cbn [append rep]. rewrite X.
    assert (R : room hi = true).
    { destruct hi as [[|h]|]; cbn in *; try reflexivity; lia. }
    rewrite R. cbn [andb].
    rewrite (IH (pred lo) (dec hi) (Some x)); [reflexivity | assumption | | | | exact K].
    + cbn in L. lia.
    + destruct hi as [h|]; cbn in *; [lia | exact I].
    + destruct E as [-> | E]; [left; reflexivity | right; exact E].
Qed.

(** A repetition fails when the run of characters of the class is too short. *)
Lemma rep_too_short {A} ic g p (k : option ascii -> string -> option A) s :
  forall w lo hi prev,
  all_chars (cls_ok ic p) w = true -> String.length w < lo -> stops ic p s ->
  rep ic g lo hi p prev (w ++ s) k = None.
Proof.
  induction w as [|x w IH]; intros lo hi prev W L E.
  - destruct lo as [|lo]; [cbn in L; lia |].
    cbn [append]. destruct s as [|y s]; cbn [rep].
    + destruct g; reflexivity.
    + cbn in E. rewrite E. destruct g; reflexivity.
  - cbn in W. apply andb_prop in W. destruct W as [X W].
    destruct lo as [|lo]; [cbn in L; lia |].
    cbn [append rep]. rewrite X. cbn [andb pred].
    destruct (room hi); [| destruct g; reflexivity].
    rewrite (IH lo (dec hi) (Some x) W); [destruct g; reflexivity | cbn in L; lia | exact E].
Qed.

(** ** Substitution *)

(** The scan copies the characters at which the pattern cannot start. *)
Lemma sub_from_copies ic r repl (P : ascii -> bool) s :
  (forall prev x t, P x = true -> here ic r prev (String x t) = None) ->
  forall w prev, all_chars P w = true ->
  sub_from ic r repl prev (w ++ s) 0 = w ++ sub_from ic r repl (last_char prev w) s 0.
Proof.
  intros H. induction w as [|x w IH]; intros prev W; [reflexivity |].
  cbn in W. apply andb_prop in W. destruct W as [X W].
  cbn [append sub_from last_char]. rewrite (H prev x (w ++ s) X).
  rewrite (IH (Some x) W). reflexivity.
Qed.

Lemma sub_from_skips ic r repl : forall s prev,
  sub_from ic r repl prev s (String.length s)
  = sub_from ic r repl (last_char prev s) "" 0.
Proof.
  induction s as [|c s IH]; intros prev; [reflexivity |].
  cbn [String.length sub_from last_char]. apply IH.
Qed.

(** A match that runs to the end of the text is replaced as a whole. *)
Lemma sub_from_to_the_end ic r repl prev s cs :
  s <> "" -> here ic r prev s = Some ("", cs) ->
  here ic r (last_char prev s) "" = None ->
  sub_from ic r repl prev s 0 = repl cs.
Proof.
  intros N H E. destruct s as [|c s]; [congruence |].
  cbn [sub_from]. rewrite H. cbn [String.length Nat.sub].
  rewrite sub_from_skips. cbn [last_char] in E. cbn [sub_from]. rewrite E.
  apply string_app_empty.
Qed.

(** The same at the end of the text. *)
Lemma rep_greedy_whole {A} ic p (k : option ascii -> string -> option A) res w lo hi prev :
  all_chars (cls_ok ic p) w = true -> lo <= String.length w ->
  within hi (String.length w) ->
  k (last_char prev w) "" = Some res ->
  rep ic true lo hi p prev w k = Some res.
Proof.
  intros W L B K.
  pose proof (rep_greedy_all ic p k res "" w lo hi prev W L B (or_intror I) K) as R.
  rewrite string_app_empty in R. exact R.
Qed.

Lemma rep_short_whole {A} ic g p (k : option ascii -> string -> option A) w lo hi prev :
  all_chars (cls_ok ic p) w = true -> String.length w < lo ->
  rep ic g lo hi p prev w k = None.
Proof.
  intros W L.
  pose proof (rep_too_short ic g p k "" w lo hi prev W L I) as R.
  rewrite string_app_empty in R. exact R.
Qed.

(** ** Characters *)

Lemma all_chars_impl (p q : ascii -> bool) s :
  (forall c, p c = true -> q c = true) -> all_chars p s = true -> all_chars q s = true.
Proof.
  intros H. induction s as [|c s IH]; cbn; [reflexivity |].
  intros W. apply andb_prop in W. destruct W as [C W].
  rewrite (H c C), (IH W). reflexivity.
Qed.

Lemma lower_twice s : lower (lower s) = lower s.
Proof.
  unfold lower. induction s as [|c s IH]; cbn; [reflexivity |].
  rewrite IH, lower_char_idem. reflexivity.
Qed.

Lemma lstrip_nonspace c s : is_space c = false -> lstrip (String c s) = String c s.
Proof. intros H. cbn. rewrite H. reflexivity. Qed.

Lemma rstrip_app_nonspace a c b :
  is_space c = false -> rstrip (a ++ String c b) = a ++ String c (rstrip b).
Proof.
  intros H. induction a as [|x a IH].
  - cbn [append]. cbn [rstrip]. destruct (rstrip b); [rewrite H |]; reflexivity.
  - cbn [append]. cbn [rstrip]. rewrite IH.
    destruct (a ++ String c (rstrip b)) eqn:E; [| reflexivity].
    destruct a; discriminate.
Qed.

(** ** Substrings *)

Lemma prefix_app n h : prefix n h = true <-> exists post, h = n ++ post.
Proof.
  revert h. induction n as [|a n IH]; intros h.
  - split; [intros _; exists h; reflexivity | intros _; destruct h; reflexivity].
  - destruct h as [|b h]; cbn.
    + split; [discriminate | intros (post & E); discriminate].
    + destruct (ascii_dec a b) as [<- | N].
      * rewrite IH. split; intros (post & E); exists post; congruence.
      * split; [discriminate | intros (post & E); congruence].
Qed.

Lemma contains_part n h : contains n h = true <-> part_of n h.
Proof.
  unfold part_of. induction h as [|c h IH]; cbn [contains].
  - destruct (prefix n "") eqn:P.
    + split; [intros _ | reflexivity].
      apply prefix_app in P. destruct P as (post & E). exists "", post. exact E.
    + split; [discriminate |]. intros (pre & post & E).
      destruct pre; [| discriminate]. cbn in E.
      assert (X : prefix n "" = true) by (apply prefix_app; exists post; exact E).
      congruence.
  - destruct (prefix n (String c h)) eqn:P.
    + split; [intros _ | reflexivity].
      apply prefix_app in P. destruct P as (post & E). exists "", post. exact E.
    + rewrite IH. split.
      * intros (pre & post & E). exists (String c pre), post. cbn. congruence.
      * intros (pre & post & E). destruct pre as [|x pre].
        -- cbn in E.
           assert (X : prefix n (String c h) = true)
             by (apply prefix_app; exists post; exact E).
           congruence.
        -- cbn in E. exists pre, post. congruence.
Qed.

Lemma part_of_trans a b c : part_of a b -> part_of b c -> part_of a c.
Proof.
  intros (p1 & q1 & ->) (p2 & q2 & ->). exists (p2 ++ p1), (q1 ++ q2).
  rewrite !string_app_assoc. reflexivity.
Qed.

Lemma any_in_part kws a b : part_of a b -> any_in kws a = true -> any_in kws b = true.
Proof.
  intros P H. apply existsb_exists in H. destruct H as (kw & I & C).
  apply existsb_exists. exists kw. split; [exact I |].
  apply contains_part. apply contains_part in C. exact (part_of_trans _ _ _ C P).
Qed.

Lemma lstrip_part s : exists pre, s = pre ++ lstrip s.
Proof.
  induction s as [|c s (pre & IH)]; [exists ""; reflexivity |].
  cbn. destruct (is_space c); [| exists ""; reflexivity].
  exists (String c pre). cbn. congruence.
Qed.

Lemma rstrip_part s : exists post, s = rstrip s ++ post.
Proof.
  induction s as [|c s (post & IH)]; [exists ""; reflexivity |].
  cbn. destruct (rstrip s) as [|x r].
  - destruct (is_space c); [exists (String c s); reflexivity |].
    exists s. reflexivity.
  - exists post. cbn. cbn in IH. congruence.
Qed.

Lemma strip_part s : part_of (strip s) s.
Proof.
  unfold strip. destruct (lstrip_part s) as (pre & E).
  destruct (rstrip_part (lstrip s)) as (post & F).
  exists pre, post. rewrite <- F. exact E.
Qed.

Lemma smap_app f a b : smap f (a ++ b) = smap f a ++ smap f b.
Proof. induction a as [|c a IH]; cbn; [reflexivity | rewrite IH; reflexivity]. Qed.

Lemma smap_part f a b : part_of a b -> part_of (smap f a) (smap f b).
Proof.
  intros (pre & post & ->). exists (smap f pre), (smap f post).
  rewrite !smap_app. reflexivity.
Qed.

(** * The bank of a statement *)

(** The names [detect_bank] can return. *)
Lemma detect_bank_in_first (banks : list (string * list string)) (t : string) :
  (Forall (fun b => any_in (snd b) t = false) banks
   /\ detect_bank_in banks t = "Unknown Bank")
  \/ (exists pre bank_code patterns post,
        banks = (pre ++ (bank_code, patterns) :: post)%list
        /\ Forall (fun b => any_in (snd b) t = false) pre
        /\ any_in patterns t = true
        /\ detect_bank_in banks t = full_name bank_code).
Proof.
  induction banks as [| [bank_code patterns] rest IH]; cbn [detect_bank_in].
  - left. split; [constructor | reflexivity].
  - destruct (any_in patterns t) eqn:E.
    + right. exists [], bank_code, patterns, rest. repeat split; [constructor | assumption].
    + destruct IH as [[F U] | (pre & c & ps & post & -> & F & T & R)].
      * left. split; [constructor; assumption | assumption].
      * right. exists ((bank_code, patterns) :: pre), c, ps, post.
        repeat split; [constructor; assumption | assumption | assumption].
Qed.

Lemma full_name_listed (bank_code : string) (patterns : list string) :
  In (bank_code, patterns) bank_patterns ->
  In (bank_code, full_name bank_code) bank_names.
Proof.
  unfold bank_patterns. cbn [In].
  intros H.
  repeat (destruct H as [H | H];
          [injection H as <- _; vm_compute; tauto |]).
  contradiction.
Qed.

Lemma bank_names_known (bank_code name : string) :
  In (bank_code, name) bank_names -> name <> "Unknown Bank".
Proof.
  unfold bank_names. cbn [In]. intros H.
  repeat (destruct H as [H | H]; [injection H as _ <-; discriminate |]).
  contradiction.
Qed.

Lemma detect_bank_listed (text : string) :
  (detect_bank text = "Unknown Bank"
   /\ Forall (fun b => any_in (snd b) (lower text) = false) bank_patterns)
  \/ (detect_bank text <> "Unknown Bank"
      /\ exists bank_code patterns,
           In (bank_code, patterns) bank_patterns
           /\ any_in patterns (lower text) = true
           /\ In (bank_code, detect_bank text) bank_names).
Proof.
  unfold detect_bank.
  destruct (detect_bank_in_first bank_patterns (lower text))
    as [[F U] | (pre & c & ps & post & E & F & T & R)].
  - left. split; assumption.
  - assert (I : In (c, ps) bank_patterns) by (rewrite E; apply in_elt).
    pose proof (full_name_listed _ _ I) as L.
    rewrite R. right. split.
    + exact (bank_names_known _ _ L).
    + exists c, ps. repeat split; assumption.
Qed.

(** X1: [detect_bank] answers "Unknown Bank" exactly when none of the
    patterns of the table occurs in the lower-cased text, and otherwise one
    of the twelve full names of its dictionary: the name made up from the
    bank code is never produced. *)
Theorem detect_bank_names (text : string) :
  (detect_bank text = "Unknown Bank"
   <-> forall bank_code patterns pattern,
         In (bank_code, patterns) bank_patterns -> In pattern patterns ->
         contains pattern (lower text) = false)
  /\ (detect_bank text = "Unknown Bank"
      \/ exists bank_code, In (bank_code, detect_bank text) bank_names).
Proof.
  destruct (detect_bank_listed text) as [[U F] | (N & c & ps & I & T & L)].
  - split; [| left; assumption].
    split; [| intros _; assumption].
    intros _ bank_code patterns pattern I J.
    rewrite Forall_forall in F. specialize (F _ I). cbn [snd] in F.
    unfold any_in in F.
    destruct (contains pattern (lower text)) eqn:C; [| reflexivity].
    assert (X : existsb (fun kw => contains kw (lower text)) patterns = true)
      by (apply existsb_exists; exists pattern; split; assumption).
    congruence.
  - split; [| right; exists c; assumption].
    split.
    + intros U. contradiction.
    + intros A. exfalso.
      unfold any_in in T. apply existsb_exists in T. destruct T as (p & Ip & Cp).
      rewrite (A _ _ _ I Ip) in Cp. discriminate.
Qed.

Lemma lower_upper_char c : lower_char (upper_char c) = lower_char c.
Proof. by_cases_on_char c. Qed.

Lemma lower_upper s : lower (Py.upper s) = lower s.
Proof.
  unfold lower, Py.upper. induction s as [|c s IH]; cbn; [reflexivity |].
  rewrite IH, lower_upper_char. reflexivity.
Qed.

(** X24: on ASCII text [detect_bank] does not look at the case of the
    letters: the upper-cased text [extract_bank_info] gives it, and the
    lower-cased text, name the same bank as the text itself. *)
Theorem detect_bank_ignores_case (text : string) :
  ascii_text text = true ->
  detect_bank (Py.upper text) = detect_bank text
  /\ detect_bank (lower text) = detect_bank text.
Proof.
  intros _. unfold detect_bank. rewrite lower_upper, lower_twice. split; reflexivity.
Qed.

Lemma detect_bank_ignores_case_witness :
  detect_bank (Py.upper "Emirates NBD statement") = detect_bank "Emirates NBD statement"
  /\ detect_bank (lower "Emirates NBD statement") = detect_bank "Emirates NBD statement".
Proof.
  apply (detect_bank_ignores_case "Emirates NBD statement"). reflexivity.
Defined.

Section AccountInfo.

Variable float : string -> option pyfloat.
Variable str_num : Q -> string.
Variable now : datetime.

Lemma account_info_row_paired (info_sheet : worksheet) (bank_info : bank_details)
    (row : nat) :
  paired bank_info -> paired (account_info_row str_num info_sheet bank_info row).
Proof.
  intros P. unfold account_info_row.
  repeat match goal with
         | |- paired (if negb (_ =? _) then _ else _) => fail 1
         | |- paired (if ?b then _ else _) => destruct b
         end; try exact P.
  destruct (detect_bank_listed (str str_num (or_else (cell_at info_sheet row 2) "")))
    as [[U _] | (N & c & ps & _ & _ & L)].
  - rewrite U. exact P.
  - apply String.eqb_neq in N. rewrite N. cbn [negb].
    right. cbn [bank_name currency]. split; [exists c; assumption | reflexivity].
Qed.

Lemma read_account_info_paired (wb : workbook) : paired (read_account_info str_num wb).
Proof.
  unfold read_account_info.
  assert (P0 : paired (mkBank "Unknown Bank" "Account Holder" "XXXX-XXXX-XXXX" "USD"))
    by (left; split; reflexivity).
  destruct (lookup "Account Info" wb) as [info_sheet |]; [| exact P0].
  revert P0. generalize (mkBank "Unknown Bank" "Account Holder" "XXXX-XXXX-XXXX" "USD").
  induction (range 1 (max_row info_sheet + 1)) as [| row rows IH]; intros b P;
    cbn [fold_left]; [exact P |].
  apply IH, account_info_row_paired, P.
Qed.

Lemma paired_cases (b : bank_details) :
  paired b ->
  In (bank_name b, currency b)
    (("Unknown Bank", "USD")
     :: map (fun kv => (snd kv, currency_of_bank (snd kv))) bank_names).
Proof.
  intros [[-> ->] | [[c I] ->]]; [left; reflexivity |].
  right. apply in_map_iff. exists (c, bank_name b). split; [reflexivity | assumption].
Qed.

(** X2: the currency [process_excel_file] reads the dates with is fixed by
    the bank it reports: dollars when no bank was recognised and for Bank of
    America, Chase Bank, Wells Fargo and Citibank, dirhams for every other
    bank. *)
Theorem currency_follows_bank (wb : workbook) (api_key : bool)
    (classify : nat -> list transaction -> outcome) :
  let result := process_excel_file float str_num now wb api_key classify in
  currency (bank_info result) =
    if mem (bank_name (bank_info result))
         ["Unknown Bank"; "Bank of America"; "Chase Bank"; "Wells Fargo"; "Citibank"]
    then "USD" else "AED".
Proof.
  cbv zeta. cbn [process_excel_file bank_info].
  pose proof (paired_cases _ (read_account_info_paired wb)) as H.
  destruct (read_account_info str_num wb) as [n h a c]. cbn [bank_name currency] in *.
  cbn in H.
  repeat (destruct H as [H | H]; [injection H as <- <-; reflexivity |]).
  contradiction.
Qed.

(** X3: the currency [upload_file] reports is the one the dates were read
    with, except for HSBC Bank Middle East and RAKBank: their dates are read
    as dirham dates and the response says dollars, because neither name
    contains a key of [GLOBAL_BANK_CONFIG]. *)
Theorem upload_currency (wb : workbook) (api_key : bool)
    (classify : nat -> list transaction -> outcome) :
  let result := process_excel_file float str_num now wb api_key classify in
  let reported := currency (App.info (App.update_bank_info (bank_info result))) in
  if mem (bank_name (bank_info result)) ["HSBC Bank Middle East"; "RAKBank"]
  then currency (bank_info result) = "AED" /\ reported = "USD"
  else reported = currency (bank_info result).
Proof.
  cbv zeta. cbn [process_excel_file bank_info]. unfold App.update_bank_info.
  cbn [App.info currency].
  pose proof (paired_cases _ (read_account_info_paired wb)) as H.
  destruct (read_account_info str_num wb) as [n h a c]. cbn [bank_name currency] in *.
  cbn in H.
  repeat (destruct H as [H | H];
          [injection H as <- <-; vm_compute; try split; reflexivity |]).
  contradiction.
Qed.

End AccountInfo.

(** ** [extract_bank_info] *)

Lemma remove_char_length c s : String.length (remove_char c s) <= String.length s.
Proof. induction s as [|x s IH]; cbn; [lia | destruct (Ascii.eqb x c); cbn; lia]. Qed.

Lemma take_length_exact n : forall s, n <= String.length s -> String.length (take n s) = n.
Proof.
  induction n as [|n IH]; intros [|c s]; cbn; intros H; try lia.
  rewrite IH; lia.
Qed.

Lemma drop_length n : forall s, String.length (drop n s) = String.length s - n.
Proof. induction n as [|n IH]; intros [|c s]; cbn; try lia. apply IH. Qed.

Lemma last_chars_length n s :
  n <= String.length s -> String.length (last_chars n s) = n.
Proof. intros H. unfold last_chars. rewrite drop_length. lia. Qed.

Lemma masked_length cell_value :
  4 <= String.length cell_value -> String.length (masked cell_value) = 14.
Proof.
  intros H. unfold masked. rewrite !string_length_app.
  rewrite take_length_exact, last_chars_length by assumption. reflexivity.
Qed.

Lemma account_number_long s m :
  re_match false re_account_number s = Some m -> 10 <= String.length s.
Proof.
  intros H. destruct (re_match_sound _ _ _ _ H) as (p' & s' & M). clear H.
  unfold re_account_number, upto in M. cbn [cat] in M.
  invert_matches. rewrite string_length_app. lia.
Qed.

Lemma title_from_digits s : forall b,
  any_char is_digit (title_from b s) = any_char is_digit s.
Proof.
  induction s as [|c s IH]; intros b; cbn; [reflexivity |].
  destruct (is_alpha c) eqn:A; cbn; rewrite IH; [| reflexivity].
  f_equal. destruct b; revert A; by_cases_on_char c.
Qed.

Section BankDetails.

Variable str_num : Q -> string.

Lemma extract_cell_extracted ws row bank_info col :
  extracted bank_info -> extracted (extract_cell str_num ws row bank_info col).
Proof.
  intros (C & B & H & N). unfold extract_cell.
  set (cell_value := Py.upper (str str_num (or_else (cell_at ws row col) ""))).
  destruct (mem (detect_bank cell_value) ["UAE Bank"; "Unknown Bank"]) eqn:K;
    cbn [negb];
    destruct ((2 <=? count_words false cell_value)%nat
              && (count_words false cell_value <=? 4)%nat
              && negb (any_char is_digit cell_value)
              && any_in ["mr"; "ms"; "mrs"; "dr"] (lower cell_value)) eqn:W;
    destruct (re_match false re_account_number
                (remove_char "-" (remove_char " " cell_value))) as [m |] eqn:R;
    unfold extracted; cbn [currency bank_name account_holder account_number];
    (split; [exact C |]); split;
    try exact B;
    try (destruct (detect_bank_listed cell_value) as [[U _] | (_ & c & _ & _ & _ & L)];
         [rewrite U in K; discriminate K | right; exists c; exact L]);
    split;
    try exact H; try exact N;
    try (unfold title; rewrite title_from_digits;
         apply andb_prop in W; destruct W as [W _];
         apply andb_prop in W; destruct W as [_ W];
         apply negb_true_iff in W; exact W);
    (right; exists cell_value;
     pose proof (account_number_long _ _ R) as L;
     pose proof (remove_char_length "-" (remove_char " " cell_value));
     pose proof (remove_char_length " " cell_value);
     split; [reflexivity | split; [lia | apply masked_length; lia]]).
Qed.

Lemma extract_row_extracted ws bank_info row :
  extracted bank_info -> extracted (extract_row str_num ws bank_info row).
Proof.
  unfold extract_row. revert bank_info.
  induction (range 1 (Nat.min 10 (max_column ws + 1))) as [| col cols IH];
    intros b E; cbn [fold_left]; [exact E |].
  apply IH, extract_cell_extracted, E.
Qed.

(** X4: whatever the sheet holds, the details [extract_bank_info] returns
    have the currency AED, a bank name that is "UAE Bank" or a full name of
    the dictionary of [detect_bank], an account holder without digits, and
    an account number that is the placeholder or a mask of fourteen
    characters: the first four characters of a cell, [-****-], and its last
    four. *)
Theorem extract_bank_info_details (ws : worksheet) :
  let bank_info := extract_bank_info str_num ws in
  currency bank_info = "AED"
  /\ (bank_name bank_info = "UAE Bank"
      \/ exists bank_code, In (bank_code, bank_name bank_info) bank_names)
  /\ any_char is_digit (account_holder bank_info) = false
  /\ (account_number bank_info = "XXXX-XXXX-XXXX"
      \/ exists cell_value,
           account_number bank_info
           = take 4 cell_value ++ "-****-" ++ last_chars 4 cell_value
           /\ 10 <= String.length cell_value
           /\ String.length (account_number bank_info) = 14).
Proof.
  change (extracted (extract_bank_info str_num ws)).
  unfold extract_bank_info.
  assert (E : extracted (mkBank "UAE Bank" "Account Holder" "XXXX-XXXX-XXXX" "AED")).
  { repeat split; [left; reflexivity | left; reflexivity]. }
  revert E. generalize (mkBank "UAE Bank" "Account Holder" "XXXX-XXXX-XXXX" "AED").
  induction (range 1 (Nat.min 21 (max_row ws + 1))) as [| row rows IH];
    intros b E; cbn [fold_left]; [exact E |].
  apply IH, extract_row_extracted, E.
Qed.

End BankDetails.

(** ** Examples *)

Example extract_bank_info_cover_sheet :
  extract_bank_info show_number cover_sheet
  = mkBank "Emirates NBD" "Mr John Smith" "1234-****-3456" "AED".
Proof. vm_compute. reflexivity. Qed.

(** A statement of RAKBank is read with dirham dates and reported in dollars. *)
Example upload_currency_rakbank :
  let result :=
    process_excel_file decimal show_number example_now rak_workbook false
      (fun _ _ => Raised) in
  bank_name (bank_info result) = "RAKBank"
  /\ currency (bank_info result) = "AED"
  /\ currency (App.info (App.update_bank_info (bank_info result))) = "USD"
  /\ App.info_country (App.update_bank_info (bank_info result)) = "Unknown".
Proof. vm_compute. repeat split. Qed.

(** * The rule classifier *)

(** ** Hexadecimal references *)

Lemma hex_ignorecase x : hexdigit x = true -> cls_ok true hexupper x = true.
Proof. by_cases_on_char x. Qed.

Lemma hex_starts_no_suffix x :
  hexdigit x = true -> negb (is_space x) && negb (Ascii.eqb "-" x) = true.
Proof. by_cases_on_char x. Qed.

Lemma hex_not_space x : hexdigit x = true -> is_space x = false.
Proof. by_cases_on_char x. Qed.

Lemma rstrip_nonspace s :
  all_chars (fun c => negb (is_space c)) s = true -> rstrip s = s.
Proof.
  induction s as [|c s IH]; cbn; [reflexivity |].
  intros H. apply andb_prop in H. destruct H as [C H].
  rewrite (IH H). apply negb_true_iff in C. rewrite C. destruct s; reflexivity.
Qed.

Lemma strip_nonspace s :
  all_chars (fun c => negb (is_space c)) s = true -> strip s = s.
Proof.
  intros H. unfold strip.
  destruct s as [|c s]; [reflexivity |].
  pose proof H as H'. cbn in H'. apply andb_prop in H'. destruct H' as [C _].
  apply negb_true_iff in C. rewrite (lstrip_nonspace c s C).
  apply rstrip_nonspace, H.
Qed.

(** The pattern of the suffix starts with white space or a hyphen. *)
Lemma ref_suffix_cannot_start prev x t :
  negb (is_space x) && negb (Ascii.eqb "-" x) = true ->
  here false re_ref_suffix prev (String x t) = None.
Proof.
  intros H. apply andb_prop in H. destruct H as [S D].
  apply negb_true_iff in S. apply negb_true_iff in D.
  unfold here, re_ref_suffix, star. cbn [cat run rep cls_ok space chr_ok].
  unfold space. rewrite S, D. reflexivity.
Qed.

Lemma ref_suffix_not_empty prev : here false re_ref_suffix prev "" = None.
Proof. reflexivity. Qed.

(** A text without white space and hyphens has no suffix to remove. *)
Lemma remove_ref_suffix_none s :
  all_chars (fun x => negb (is_space x) && negb (Ascii.eqb "-" x)) s = true ->
  remove false re_ref_suffix s = s.
Proof.
  intros H. unfold remove, sub.
  pose proof (sub_from_copies false re_ref_suffix (fun _ => "") _ ""
                (fun prev x t => ref_suffix_cannot_start prev x t) s None H) as R.
  rewrite string_app_empty in R. rewrite R.
  cbn [sub_from]. rewrite ref_suffix_not_empty. apply string_app_empty.
Qed.

(** The reference pattern on a text of hexadecimal digits. *)
Lemma hex_ref_match h :
  all_chars hexdigit h = true ->
  re_match true re_hex_ref h = if (8 <=? String.length h)%nat then Some [] else None.
Proof.
  intros H.
  assert (W : all_chars (cls_ok true hexupper) h = true)
    by (apply (all_chars_impl hexdigit); [exact hex_ignorecase | exact H]).
  unfold re_match, here, re_hex_ref, atleast. cbn [cat run].
  destruct (8 <=? String.length h)%nat eqn:L.
  - apply Nat.leb_le in L.
    match goal with
    | |- context [rep _ _ _ _ _ _ _ ?k] =>
        rewrite (rep_greedy_whole true hexupper k ("", []) h 8 None None W L I eq_refl)
    end.
    reflexivity.
  - apply Nat.leb_gt in L.
    rewrite rep_short_whole; [reflexivity | exact W | exact L].
Qed.

(** X5: on a text made of hexadecimal digits only, [_is_ibft_reference]
    answers yes exactly when there are at least eight of them. *)
Theorem is_ibft_reference_hex (h : string) :
  all_chars hexdigit h = true ->
  _is_ibft_reference h = (8 <=? String.length h)%nat.
Proof.
  intros H. unfold _is_ibft_reference.
  assert (N : all_chars (fun c => negb (is_space c)) h = true).
  { apply (all_chars_impl hexdigit); [| exact H].
    intros c C. rewrite (hex_not_space c C). reflexivity. }
  rewrite (strip_nonspace h N).
  rewrite remove_ref_suffix_none
    by (apply (all_chars_impl hexdigit); [exact hex_starts_no_suffix | exact H]).
  rewrite (hex_ref_match h H). destruct (8 <=? String.length h)%nat; reflexivity.
Qed.

Lemma is_ibft_reference_hex_witness :
  _is_ibft_reference "DEADBEEF01" = true /\ _is_ibft_reference "BEEF" = false.
Proof.
  split.
  - exact (is_ibft_reference_hex "DEADBEEF01" eq_refl).
  - exact (is_ibft_reference_hex "BEEF" eq_refl).
Defined.

Lemma word_not_space c : is_word c = true -> is_space c = false.
Proof. by_cases_on_char c. Qed.

Lemma rstrip_spaces s : all_chars is_space s = true -> rstrip s = "".
Proof.
  induction s as [|c s IH]; cbn; [reflexivity |].
  intros H. apply andb_prop in H. destruct H as [C H]. rewrite (IH H), C. reflexivity.
Qed.

Lemma rstrip_app_keep a w : w <> "" -> rstrip w = w -> rstrip (a ++ w) = a ++ w.
Proof.
  intros N R. induction a as [|x a IH]; [exact R |].
  cbn [append rstrip]. rewrite IH.
  destruct (a ++ w) eqn:E; [| reflexivity].
  destruct a; [cbn in E; congruence | discriminate].
Qed.

(** The suffix pattern matches a hyphen with white space around it and at
    most five word characters after it, to the end of the text. *)
Lemma ref_suffix_here prev sp1 sp2 w :
  all_chars is_space sp1 = true -> all_chars is_space sp2 = true ->
  all_chars is_word w = true -> String.length w <= 5 ->
  here false re_ref_suffix prev (sp1 ++ "-" ++ sp2 ++ w) = Some ("", []).
Proof.
  intros S1 S2 W L.
  unfold here, re_ref_suffix, star, upto. cbn [cat run].
  apply rep_greedy_all; [exact S1 | lia | exact I | right; reflexivity |].
  cbn [append]. cbn [chr_ok cls_ok Ascii.eqb Bool.eqb].
  apply rep_greedy_all; [exact S2 | lia | exact I | |].
  { right. destruct w as [|c w]; [exact I |].
    cbn in W. apply andb_prop in W. destruct W as [C _].
    exact (word_not_space c C). }
  apply rep_greedy_whole; [exact W | lia | exact L |].
  reflexivity.
Qed.

Lemma remove_ref_suffix h sp1 sp2 w :
  all_chars hexdigit h = true ->
  all_chars is_space sp1 = true -> all_chars is_space sp2 = true ->
  all_chars is_word w = true -> String.length w <= 5 ->
  remove false re_ref_suffix (h ++ sp1 ++ "-" ++ sp2 ++ w) = h.
Proof.
  intros H S1 S2 W L. unfold remove, sub.
  rewrite (sub_from_copies false re_ref_suffix (fun _ => "") _ _
             (fun prev x t => ref_suffix_cannot_start prev x t) h None)
    by (apply (all_chars_impl hexdigit); [exact hex_starts_no_suffix | exact H]).
  rewrite (sub_from_to_the_end _ _ _ _ _ [] ); [apply string_app_empty | | |].
  - destruct sp1; discriminate.
  - apply ref_suffix_here; assumption.
  - apply ref_suffix_not_empty.
Qed.

(** X6: a reference of at least eight hexadecimal digits is recognised
    with a suffix after it: white space, a hyphen, white space and at most
    five word characters, as in [A1B2C3D4E5F6 - M]. *)
Theorem is_ibft_reference_suffix (h sp1 sp2 w : string) :
  all_chars hexdigit h = true -> 8 <= String.length h ->
  all_chars is_space sp1 = true -> all_chars is_space sp2 = true ->
  all_chars is_word w = true -> String.length w <= 5 ->
  _is_ibft_reference (h ++ sp1 ++ "-" ++ sp2 ++ w) = true.
Proof.
  intros H L S1 S2 W L5. unfold _is_ibft_reference.
  assert (E : exists sp, all_chars is_space sp = true
                         /\ strip (h ++ sp1 ++ "-" ++ sp2 ++ w) = h ++ sp1 ++ "-" ++ sp ++ w).
  { destruct h as [|x h]; [cbn in L; lia |].
    pose proof H as Hx. cbn in Hx. apply andb_prop in Hx. destruct Hx as [X _].
    unfold strip. cbn [append]. rewrite (lstrip_nonspace x _ (hex_not_space x X)).
    assert (A : forall t, String x (h ++ sp1 ++ String "-" t)
                          = (String x h ++ sp1) ++ String "-" t)
      by (intros t; rewrite string_app_assoc; reflexivity).
    rewrite !A. rewrite rstrip_app_nonspace by reflexivity.
    destruct w as [|c w].
    - exists "". split; [reflexivity |].
      rewrite A, string_app_empty, (rstrip_spaces sp2 S2). reflexivity.
    - exists sp2. split; [exact S2 |].
      rewrite A, rstrip_app_keep; [reflexivity | discriminate |].
      apply rstrip_nonspace. apply (all_chars_impl is_word); [| exact W].
      intros a Wa. rewrite (word_not_space a Wa). reflexivity. }
  destruct E as (sp & S & ->).
  rewrite (remove_ref_suffix h sp1 sp w H S1 S W L5).
  rewrite (hex_ref_match h H).
  apply Nat.leb_le in L. rewrite L. reflexivity.
Qed.

Lemma is_ibft_reference_suffix_witness :
  _is_ibft_reference ("A1B2C3D4E5F6" ++ " " ++ "-" ++ " " ++ "M") = true.
Proof.
  apply (is_ibft_reference_suffix "A1B2C3D4E5F6" " " " " "M");
    try reflexivity; cbn; lia.
Defined.

(** ** References and the Square special case *)

Lemma lstrip_smap f s :
  (forall c, is_space (f c) = is_space c) -> lstrip (smap f s) = smap f (lstrip s).
Proof.
  intros H. induction s as [|c s IH]; cbn; [reflexivity |].
  rewrite H. destruct (is_space c); [exact IH | reflexivity].
Qed.

Lemma rstrip_smap f s :
  (forall c, is_space (f c) = is_space c) -> rstrip (smap f s) = smap f (rstrip s).
Proof.
  intros H. induction s as [|c s IH]; cbn; [reflexivity |].
  rewrite IH, H. destruct (rstrip s); cbn; [destruct (is_space c) |]; reflexivity.
Qed.

Lemma strip_lower s : strip (lower s) = lower (strip s).
Proof.
  unfold strip, lower.
  rewrite lstrip_smap, rstrip_smap by exact lower_char_space. reflexivity.
Qed.

(** The Square pattern matches only a text that starts with [s]. *)
Lemma square_starts_with_s s m :
  re_match false (re_square "sq") s = Some m -> exists t, s = String "s" t.
Proof.
  unfold re_match, here, re_square. cbn [cat lit run].
  destruct s as [|x t]; [discriminate |].
  unfold chr_ok at 1, cls_ok.
  destruct (Ascii.eqb "s" x) eqn:E; [| discriminate].
  apply Ascii.eqb_eq in E. subst x. intros _. exists t. reflexivity.
Qed.

Lemma s_is_no_reference x :
  lower_char x = "s"%char ->
  negb (is_space x) && negb (Ascii.eqb "-" x) = true
  /\ cls_ok true hexupper x = false.
Proof.
  destruct x as [[] [] [] [] [] [] [] []]; vm_compute; intros H;
    try discriminate H; split; reflexivity.
Qed.

(** A text the Square pattern matches is no reference. *)
Lemma square_is_no_reference description m :
  re_match false (re_square "sq") (strip (lower description)) = Some m ->
  _is_ibft_reference description = false.
Proof.
  intros M. destruct (square_starts_with_s _ _ M) as (t & E).
  rewrite strip_lower in E. unfold _is_ibft_reference.
  destruct (strip description) as [|x t']; [discriminate |].
  cbn in E. injection E as X _.
  destruct (s_is_no_reference x X) as [N C].
  unfold remove, sub. cbn [sub_from].
  rewrite (ref_suffix_cannot_start None x t' N).
  unfold re_match, here, re_hex_ref, atleast. cbn [cat run rep].
  rewrite C. reflexivity.
Qed.

(** X7: a description [_is_ibft_reference] recognises is classified
    Internal Transfer: the Square special case, tried before the check,
    never applies to it. *)
Theorem reference_is_internal_transfer (description : string) :
  _is_ibft_reference description = true ->
  categorize_transaction description = Some "Internal Transfer".
Proof.
  intros R. unfold categorize_transaction. cbn [categorize_depth].
  destruct (re_match false (re_square "sq") (strip (lower description))) as [m |] eqn:M.
  - rewrite (square_is_no_reference _ _ M) in R. discriminate.
  - unfold categorize_plain. rewrite R, !orb_true_r. reflexivity.
Qed.

Lemma reference_is_internal_transfer_witness :
  categorize_transaction "A1B2C3D4E5F6 - M" = Some "Internal Transfer".
Proof.
  apply (reference_is_internal_transfer "A1B2C3D4E5F6 - M").
  vm_compute. reflexivity.
Defined.

(** ** The names the rules give *)

Lemma categorize_plain_rule_name description desc_lower :
  In (categorize_plain description desc_lower) (category_priority ++ ["Other"]).
Proof.
  unfold categorize_plain.
  destruct (_ || _ || _); [cbn; tauto |].
  destruct (any_in salary_signals desc_lower); [cbn; tauto |].
  destruct (scan_categories desc_lower category_priority) eqn:E.
  - apply scan_categories_in in E. apply in_or_app. left. exact E.
  - repeat (match goal with |- context [if ?b then _ else _] => destruct b end;
            [cbn; tauto |]).
    destruct (scan_merchants desc_lower merchant_patterns) eqn:M; [| cbn; tauto].
    apply scan_merchants_in in M. cbn in M. cbn.
    repeat (destruct M as [<- | M]; [tauto |]). contradiction.
Qed.

Lemma categorize_depth_rule_name depth :
  forall description, String.length description < depth ->
  exists c, categorize_depth depth description = Some c
            /\ In c (category_priority ++ ["Other"])
            /\ (re_match false (re_square "sq") (strip (lower description)) <> None ->
                c <> "Other").
Proof.
  induction depth as [|depth IH]; intros description L; [lia |].
  cbn [categorize_depth].
  destruct (re_match false (re_square "sq") (strip (lower description))) as [m|] eqn:E.
  - assert (S : String.length (strip (grp 1 m)) < depth).
    { pose proof (anchored_groups_shorter _ _ _ _ _ _ 1 E) as G.
      pose proof (strip_length (grp 1 m)).
      pose proof (strip_length (lower description)).
      unfold lower in *. rewrite smap_length in *. lia. }
    destruct (IH _ S) as (c & -> & C & _).
    destruct (c =? "Other") eqn:O; cbn [negb].
    + exists "Retail & Shopping". repeat split; [cbn; tauto | discriminate].
    + exists c. repeat split; [exact C |].
      intros _. apply String.eqb_neq. exact O.
  - eexists. repeat split; [apply categorize_plain_rule_name | congruence].
Qed.

Lemma categorize_transaction_rule_name (description : string) :
  exists c, categorize_transaction description = Some c
            /\ In c (category_priority ++ ["Other"]).
Proof.
  destruct (categorize_depth_rule_name (S (String.length description)) description)
    as (c & E & C & _); [lia |].
  exists c. split; [exact E | exact C].
Qed.








(** ** Categories that need a confirming term *)

Lemma scan_keywords_confirmed category d kws c :
  scan_keywords category d kws = Some c ->
  (c = "Finance & Banking" -> any_in finance_terms d = true)
  /\ (c = "Technology" -> any_in technology_terms d = true).
Proof.
  induction kws as [|kw kws IH]; cbn [scan_keywords]; [discriminate |].
  destruct (contains kw d); [| exact IH].
  destruct (category =? "Finance & Banking") eqn:F.
  - destruct (any_in finance_terms d) eqn:T; [| exact IH].
    apply String.eqb_eq in F. intros [= <-]. subst category.
    split; [intros _; reflexivity | discriminate].
  - destruct (category =? "Technology") eqn:G.
    + destruct (any_in technology_terms d) eqn:T; [| exact IH].
      apply String.eqb_eq in G. intros [= <-]. subst category.
      split; [discriminate | intros _; reflexivity].
    + apply String.eqb_neq in F. apply String.eqb_neq in G.
      intros [= <-]. split; intros; congruence.
Qed.

Lemma scan_categories_confirmed d priority c :
  scan_categories d priority = Some c ->
  (c = "Finance & Banking" -> any_in finance_terms d = true)
  /\ (c = "Technology" -> any_in technology_terms d = true).
Proof.
  induction priority as [|category rest IH]; cbn [scan_categories]; [discriminate |].
  destruct (scan_keywords category d _) eqn:E; [| exact IH].
  intros [= <-]. exact (scan_keywords_confirmed _ _ _ _ E).
Qed.

Lemma any_in_listed (kws : list string) kw d :
  In kw kws -> contains kw d = true -> any_in kws d = true.
Proof. intros I C. apply existsb_exists. exists kw. split; assumption. Qed.

Lemma scan_merchants_confirmed d : forall tbl c,
  (forall merchant cat, In (merchant, cat) tbl ->
     (cat = "Finance & Banking" -> In merchant finance_terms)
     /\ (cat = "Technology" -> In merchant technology_terms)) ->
  scan_merchants d tbl = Some c ->
  (c = "Finance & Banking" -> any_in finance_terms d = true)
  /\ (c = "Technology" -> any_in technology_terms d = true).
Proof.
  induction tbl as [|[merchant cat] rest IH]; intros c H; cbn [scan_merchants];
    [discriminate |].
  destruct (contains merchant d) eqn:C.
  - intros [= <-]. destruct (H merchant cat (or_introl eq_refl)) as [F T].
    split; intros E; [apply (any_in_listed _ merchant) | apply (any_in_listed _ merchant)];
      auto.
  - apply IH. intros m c' I. apply H. right. exact I.
Qed.

Lemma merchant_patterns_confirmed merchant cat :
  In (merchant, cat) merchant_patterns ->
  (cat = "Finance & Banking" -> In merchant finance_terms)
  /\ (cat = "Technology" -> In merchant technology_terms).
Proof.
  unfold merchant_patterns. cbn [In]. intros H.
  repeat (destruct H as [H | H];
          [injection H as <- <-; split; intros E;
           first [discriminate E | vm_compute; tauto] |]).
  contradiction.
Qed.

Lemma categorize_plain_confirmed description desc_lower :
  (categorize_plain description desc_lower = "Finance & Banking" ->
   any_in finance_terms desc_lower = true)
  /\ (categorize_plain description desc_lower = "Technology" ->
      any_in technology_terms desc_lower = true).
Proof.
  unfold categorize_plain.
  destruct (_ || _ || _); [split; discriminate |].
  destruct (any_in salary_signals desc_lower); [split; discriminate |].
  destruct (scan_categories desc_lower category_priority) eqn:E.
  - exact (scan_categories_confirmed _ _ _ E).
  - repeat (match goal with |- context [if ?b then _ else _] => destruct b end;
            [split; discriminate |]).
    destruct (scan_merchants desc_lower merchant_patterns) eqn:M; [| split; discriminate].
    exact (scan_merchants_confirmed _ _ _ merchant_patterns_confirmed M).
Qed.

(** The merchant the Square pattern captures is a part of the text. *)
Lemma square_group_part s m :
  re_match false (re_square "sq") s = Some m -> part_of (grp 1 m) s.
Proof.
  intros H. destruct (re_match_sound _ _ _ _ H) as (p' & s' & M). clear H.
  unfold re_square, star, plus in M. cbn [cat lit] in M.
  invert_matches.
  repeat match goal with
  | |- context [take (String.length (?w ++ ?s) - String.length ?s) (?w ++ ?s)] =>
      rewrite (take_app_exact w s)
  end.
  cbn [grp group Nat.eqb].
  match goal with
  | |- part_of ?g (String ?a (String ?b (?w1 ++ String ?c (?w2 ++ ?g ++ ?r)))) =>
      exists (String a (String b (w1 ++ String c w2))), r
  end.
  cbn [append]. rewrite !string_app_assoc. reflexivity.
Qed.

(** The text the nested call works on is a part of the text of the call. *)
Lemma square_merchant_part description m :
  re_match false (re_square "sq") (strip (lower description)) = Some m ->
  part_of (strip (lower (strip (grp 1 m)))) (strip (lower description)).
Proof.
  intros H. apply square_group_part in H.
  rewrite strip_lower, strip_idem.
  apply (part_of_trans _ (lower (grp 1 m))).
  - rewrite <- strip_lower. apply strip_part.
  - rewrite <- (lower_twice description), strip_lower.
    apply smap_part. exact H.
Qed.

Lemma categorize_depth_confirmed depth :
  forall description c, String.length description < depth ->
  categorize_depth depth description = Some c ->
  (c = "Finance & Banking" -> any_in finance_terms (strip (lower description)) = true)
  /\ (c = "Technology" -> any_in technology_terms (strip (lower description)) = true).
Proof.
  induction depth as [|depth IH]; intros description c L; [lia |].
  cbn [categorize_depth].
  destruct (re_match false (re_square "sq") (strip (lower description))) as [m|] eqn:E.
  - assert (S : String.length (strip (grp 1 m)) < depth).
    { pose proof (anchored_groups_shorter _ _ _ _ _ _ 1 E) as G.
      pose proof (strip_length (grp 1 m)).
      pose proof (strip_length (lower description)).
      unfold lower in *. rewrite smap_length in *. lia. }
    destruct (categorize_depth depth (strip (grp 1 m))) as [cat |] eqn:R; [| discriminate].
    destruct (IH _ _ S R) as [F T].
    pose proof (square_merchant_part _ _ E) as P.
    destruct (cat =? "Other") eqn:O; cbn [negb]; intros [= <-].
    + split; discriminate.
    + split; intros C; [apply (any_in_part _ _ _ P), F, C | apply (any_in_part _ _ _ P), T, C].
  - intros [= <-]. apply categorize_plain_confirmed.
Qed.

(** X10: Finance & Banking and Technology are given only with a confirming
    term: when the classifier answers one of the two, a term of the list
    that confirms it occurs in the lower-cased description. *)
Theorem confirming_term_present (description c : string) (terms : list string) :
  categorize_transaction description = Some c ->
  In (c, terms) [("Finance & Banking", finance_terms); ("Technology", technology_terms)] ->
  any_in terms (strip (lower description)) = true.
Proof.
  intros H I.
  destruct (categorize_depth_confirmed _ description c (Nat.lt_succ_diag_r _) H) as [F T].
  destruct I as [[= <- <-] | [[= <- <-] | []]]; [apply F | apply T]; reflexivity.
Qed.

Lemma confirming_term_present_witness :
  any_in technology_terms (strip (lower "SQ *NETFLIX.COM")) = true.
Proof.
  apply (confirming_term_present "SQ *NETFLIX.COM" "Technology" technology_terms).
  - vm_compute. reflexivity.
  - right. left. reflexivity.
Defined.

(** * More on the date resolver *)

Lemma dash_is_dash : Ascii.eqb "-" "-" = true.
Proof. reflexivity. Qed.

Lemma dash_not_digit : is_digit "-" = false.
Proof. reflexivity. Qed.

Lemma dash_not_space : is_space "-" = false.
Proof. reflexivity. Qed.

Lemma slash_not_dash : Ascii.eqb "/" "-" = false.
Proof. reflexivity. Qed.

Lemma dash_not_newline : Ascii.eqb "-" "010" = false.
Proof. reflexivity. Qed.

Ltac use_date_facts :=
  repeat match goal with
  | H : ?l = true |- context [?l] => rewrite H
  | H : ?l = false |- context [?l] => rewrite H
  end;
  rewrite ?slash_not_digit, ?slash_is_slash, ?dash_not_slash, ?slash_not_space,
    ?dash_is_dash, ?dash_not_digit, ?dash_not_space, ?slash_not_dash, ?dash_not_newline.

Lemma two_digits s :
  digits s = true -> String.length s = 2 ->
  exists c1 c2, s = String c1 (String c2 "") /\ is_digit c1 = true /\ is_digit c2 = true.
Proof.
  intros D L. destruct (one_or_two_digits s D) as [(c1 & -> & _) | H]; [lia | | exact H].
  cbn in L. lia.
Qed.

Lemma zfill_two a b : zfill 2 (String a (String b "")) = String a (String b "").
Proof. reflexivity. Qed.

Lemma iso_shape_chars s :
  iso_shape s = true ->
  exists y1 y2 y3 y4 m1 m2 d1 d2,
    s = String y1 (String y2 (String y3 (String y4 (String "-"
          (String m1 (String m2 (String "-" (String d1 (String d2 "")))))))))
    /\ is_digit y1 = true /\ is_digit y2 = true /\ is_digit y3 = true
    /\ is_digit y4 = true /\ is_digit m1 = true /\ is_digit m2 = true
    /\ is_digit d1 = true /\ is_digit d2 = true.
Proof.
  destruct s as [|y1 [|y2 [|y3 [|y4 [|h1 [|m1 [|m2 [|h2 [|d1 [|d2 [|x s]]]]]]]]]]];
    cbn [iso_shape]; try discriminate.
  intros H.
  do 9 (apply andb_prop in H; let X := fresh "X" in destruct H as [H X]).
  apply Ascii.eqb_eq in X1, X4. subst h1 h2.
  exists y1, y2, y3, y4, m1, m2, d1, d2.
  split; [reflexivity | repeat split; assumption].
Qed.

Section DateTexts.

Variable str_num : Q -> string.
Variable now : datetime.

Local Opaque is_digit is_space Ascii.eqb int zfill.

(** X11: a text [A/B/YY] with a two-digit year is read month first
    whatever the currency: the result is the year, [A], [B].  The year is
    put in the century 2000 when it is below 50, in 1900 otherwise. *)
Theorem detect_date_format_short_year (a b y currency : string) :
  digits a = true -> 1 <= String.length a <= 2 ->
  digits b = true -> 1 <= String.length b <= 2 ->
  digits y = true -> String.length y = 2 ->
  detect_date_format str_num now (VStr (a ++ "/" ++ b ++ "/" ++ y)) currency =
    (if (int y <? 50)%nat then "20" ++ y else "19" ++ y)
      ++ "-" ++ zfill 2 a ++ "-" ++ zfill 2 b.
Proof.
  intros Da La Db Lb Dy Ly.
  destruct (two_digits y Dy Ly) as (y1 & y2 & -> & Hy1 & Hy2).
  destruct (one_or_two_digits a Da La) as [(a1 & -> & Ha1) | (a1 & a2 & -> & Ha1 & Ha2)];
  destruct (one_or_two_digits b Db Lb) as [(b1 & -> & Hb1) | (b1 & b2 & -> & Hb1 & Hb2)];
    digit_facts;
    unfold detect_date_format, str, re_match, here, re_mdy_short, digit;
    repeat (cbn; use_date_facts); reflexivity.
Qed.

(** X12: a text [YYYY-A-B] keeps its order whatever the currency: the
    year, then [A] and [B] filled with zeros to two digits. *)
Theorem detect_date_format_iso_text (y a b currency : string) :
  digits y = true -> String.length y = 4 ->
  digits a = true -> 1 <= String.length a <= 2 ->
  digits b = true -> 1 <= String.length b <= 2 ->
  detect_date_format str_num now (VStr (y ++ "-" ++ a ++ "-" ++ b)) currency =
    y ++ "-" ++ zfill 2 a ++ "-" ++ zfill 2 b.
Proof.
  intros Dy Ly Da La Db Lb.
  destruct (four_digits y Dy Ly) as (y1 & y2 & y3 & y4 & -> & Hy1 & Hy2 & Hy3 & Hy4).
  destruct (one_or_two_digits a Da La) as [(a1 & -> & Ha1) | (a1 & a2 & -> & Ha1 & Ha2)];
  destruct (one_or_two_digits b Db Lb) as [(b1 & -> & Hb1) | (b1 & b2 & -> & Hb1 & Hb2)];
    digit_facts;
    unfold detect_date_format, str, re_match, here, re_mdy_short, re_iso, digit;
    repeat (cbn; use_date_facts); reflexivity.
Qed.

Lemma iso_text_fixed (s currency : string) :
  iso_shape s = true -> detect_date_format str_num now (VStr s) currency = s.
Proof.
  intros H.
  destruct (iso_shape_chars s H)
    as (y1 & y2 & y3 & y4 & m1 & m2 & d1 & d2 & -> & ? & ? & ? & ? & ? & ? & ? & ?).
  digit_facts.
  unfold detect_date_format, str, re_match, here, re_mdy_short, re_iso, digit.
  repeat (cbn; use_date_facts). rewrite !zfill_two. reflexivity.
Qed.

(** X13: when the years of the current date and of a native date have
    four digits and the text of the cell is ASCII text, the resolver leaves
    its own result alone: the result given back to it as a text comes out
    unchanged, whatever the currency of either call. *)
Theorem detect_date_format_idempotent (v : cell) (currency currency' : string) :
  well_formed now -> (forall d, v = VDate d -> well_formed d) ->
  ascii_text (date_text str_num v) = true ->
  detect_date_format str_num now
    (VStr (detect_date_format str_num now v currency)) currency'
  = detect_date_format str_num now v currency.
Proof.
  intros Wn Wv _. apply iso_text_fixed.
  destruct v as [| s | q | d] eqn:Ev;
    try (apply text_date_shape; [assumption | intros d0; discriminate]).
  cbn [detect_date_format]. apply strftime_ymd_shape. apply Wv. reflexivity.
Qed.

End DateTexts.

Lemma detect_date_format_short_year_witness :
  detect_date_format show_number example_now (VStr "31/12/24") "AED" = "2024-31-12"
  /\ detect_date_format show_number example_now (VStr "1/2/99") "USD" = "1999-01-02".
Proof.
  split.
  - exact (detect_date_format_short_year show_number example_now "31" "12" "24" "AED"
             eq_refl ltac:(cbn; lia) eq_refl ltac:(cbn; lia) eq_refl eq_refl).
  - exact (detect_date_format_short_year show_number example_now "1" "2" "99" "USD"
             eq_refl ltac:(cbn; lia) eq_refl ltac:(cbn; lia) eq_refl eq_refl).
Defined.

Lemma detect_date_format_iso_text_witness :
  detect_date_format show_number example_now (VStr "2025-1-5") "USD" = "2025-01-05".
Proof.
  exact (detect_date_format_iso_text show_number example_now "2025" "1" "5" "USD"
           eq_refl eq_refl eq_refl ltac:(cbn; lia) eq_refl ltac:(cbn; lia)).
Defined.

Lemma detect_date_format_idempotent_witness :
  detect_date_format show_number example_now
    (VStr (detect_date_format show_number example_now (VStr "3/4/2024") "AED")) "USD"
  = "2024-04-03".
Proof.
  exact (detect_date_format_idempotent show_number example_now (VStr "3/4/2024")
           "AED" "USD"
           ltac:(unfold well_formed; cbn; lia) ltac:(intros d H; discriminate H)
           eq_refl).
Defined.

(** * More on the header locator *)

Section HeaderBounds.

Variable str_num : Q -> string.
Variable ws : worksheet.

Lemma find_in_rows_found : forall rows row_data,
  find_in_rows str_num ws rows = Some row_data ->
  exists row, In row rows
    /\ row_data = set_key header_row row (fst (scan_row str_num ws row)).
Proof.
  induction rows as [|a rows IH]; intros row_data; cbn [find_in_rows]; [discriminate |].
  destruct (scan_row str_num ws a) as [rd header_count] eqn:E.
  destruct (3 <=? header_count)%nat.
  - intros [= <-]. exists a. split; [left; reflexivity |]. rewrite E. reflexivity.
  - intros H. destruct (IH _ H) as (row & I & R). exists row. split; [right |]; assumption.
Qed.

Lemma header_row_found :
  exists row, find_data_headers str_num ws header_row = Some row /\ 1 <= row <= 19.
Proof.
  unfold find_data_headers.
  destruct (find_in_rows str_num ws (scanned_rows ws)) as [row_data |] eqn:E.
  - destruct (find_in_rows_found _ _ E) as (row & I & ->).
    unfold scanned_rows, range in I. apply in_seq in I.
    exists row. split; [reflexivity | lia].
  - exists 1. split; [reflexivity | lia].
Qed.

(** X14: the header row the locator reports lies between 1 and 19 and every
    column it reports between 1 and 9, whatever the sheet holds: the scans
    stop one short of twenty rows and ten columns, and the default map
    lies within the same bounds. *)
Theorem find_data_headers_bounds :
  (exists row, find_data_headers str_num ws header_row = Some row /\ 1 <= row <= 19)
  /\ forall k col, find_data_headers str_num ws k = Some col -> k <> header_row ->
       1 <= col <= 9.
Proof.
  split; [exact header_row_found |].
  unfold find_data_headers.
  destruct (find_in_rows str_num ws (scanned_rows ws)) as [row_data |] eqn:E.
  - destruct (find_in_rows_found _ _ E) as (row & I & ->).
    intros k col H Nk.
    assert (R : fst (scan_row str_num ws row) k = Some col).
    { unfold set_key in H. destruct k; try exact H. contradiction. }
    apply scan_row_role in R. destruct R as (Ic & _).
    unfold scanned_columns, range in Ic. apply in_seq in Ic. lia.
  - intros k col H _. destruct k; cbn in H; try discriminate;
      injection H as <-; lia.
Qed.

(** X15: when no scanned row holds three header cells the locator answers
    with the default map: header in row 1, date in column 1, description
    in 2, debit in 4, credit in 5, and no type, amount or reference column. *)
Theorem find_data_headers_no_header :
  (forall r, In r (scanned_rows ws) -> hits str_num ws r < 3) ->
  let column_map := find_data_headers str_num ws in
  column_map header_row = Some 1 /\ column_map date_col = Some 1
  /\ column_map description_col = Some 2 /\ column_map debit_col = Some 4
  /\ column_map credit_col = Some 5 /\ column_map type_col = None
  /\ column_map amount_col = None /\ column_map reference_col = None.
Proof.
  intros H column_map. unfold column_map.
  rewrite !(find_data_headers_default str_num ws H). repeat split.
Qed.

End HeaderBounds.

Lemma find_data_headers_no_header_witness :
  find_data_headers show_number bare_sheet debit_col = Some 4.
Proof.
  refine (proj1 (proj2 (proj2 (proj2
            (find_data_headers_no_header show_number bare_sheet _))))).
  intros r I. unfold scanned_rows, range in I. cbn in I.
  destruct I as [<- | [<- | []]]; vm_compute; lia.
Defined.

(** * The records of a workbook *)

Lemma extract_merchant_name_length description :
  String.length (extract_merchant_name description) <= 60.
Proof.
  unfold extract_merchant_name. destruct (negb _); apply take_length_le.
Qed.

(** X16: the merchant name [extract_merchant_name] returns has at most
    sixty characters, and is empty only when the description is empty. *)
Theorem extract_merchant_name_bounds (description : string) :
  String.length (extract_merchant_name description) <= 60
  /\ (extract_merchant_name description = "" <-> description = "").
Proof.
  split; [apply extract_merchant_name_length |].
  split.
  - intros E. destruct description as [|c d]; [reflexivity | exfalso].
    pose proof (extract_merchant_name_nonempty (String c d) eq_refl) as N.
    rewrite E in N. discriminate.
  - intros ->. reflexivity.
Qed.

Lemma sheet_of_text (rows : list (list cell)) :
  Forall (Forall (fun c => forall d, c <> VDate d)) rows ->
  forall row col d, cell_at (sheet_of rows) row col <> VDate d.
Proof.
  intros F row col d. cbn [sheet_of cell_at].
  destruct row as [|r]; [discriminate |]. destruct col as [|c]; [discriminate |].
  destruct (nth_in_or_default r rows []) as [I | E].
  - rewrite Forall_forall in F. specialize (F _ I).
    destruct (nth_in_or_default c (nth r rows []) VNone) as [J | E'].
    + rewrite Forall_forall in F. exact (F _ J d).
    + rewrite E'. discriminate.
  - rewrite E. destruct c; discriminate.
Qed.

Lemma sheet_of_ascii (str_num : Q -> string) (rows : list (list cell)) :
  Forall (Forall (fun c => ascii_text (date_text str_num c) = true)) rows ->
  forall row col, ascii_text (date_text str_num (cell_at (sheet_of rows) row col)) = true.
Proof.
  intros F row col. cbn [sheet_of cell_at].
  destruct row as [|r]; [reflexivity |]. destruct col as [|c]; [reflexivity |].
  destruct (nth_in_or_default r rows []) as [I | E].
  - rewrite Forall_forall in F. specialize (F _ I).
    destruct (nth_in_or_default c (nth r rows []) VNone) as [J | E'].
    + rewrite Forall_forall in F. exact (F _ J).
    + rewrite E'. reflexivity.
  - rewrite E. destruct c; reflexivity.
Qed.

Section Records.

Variable float : string -> option pyfloat.
Variable str_num : Q -> string.
Variable now : datetime.

Lemma process_row_well_built ws cols cur count row tx :
  well_formed now ->
  (forall r c d, cell_at ws r c = VDate d -> well_formed d) ->
  process_row float str_num now ws cols cur count row = Some tx ->
  well_built tx.
Proof.
  intros Wn Wd H.
  destruct (process_row_some _ _ _ _ _ _ _ _ _ H) as (_ & a & c & A & Z & C & ->).
  unfold well_built. cbn [Amount Date MerchantName Description Subcategory Category].
  split; [exact Z |]. split; [| split; [reflexivity |
    split; [apply extract_merchant_name_length | reflexivity]]].
  destruct (date_cell ws cols row) as [| s | q | d] eqn:E;
    try (apply text_date_shape; [assumption | intros d0; discriminate]).
  cbn [detect_date_format]. apply strftime_ymd_shape.
  unfold date_cell, read in E. cbn [given] in E.
  destruct (c_date cols =? 0)%nat; [discriminate |].
  exact (Wd _ _ _ E).
Qed.

Lemma scan_rows_cons ws cols cur row rows acc :
  scan_rows float str_num now ws cols cur (row :: rows) acc
  = scan_rows float str_num now ws cols cur rows
      match process_row float str_num now ws cols cur (List.length acc) row with
      | Some tx => (acc ++ [tx])%list
      | None => acc
      end.
Proof. reflexivity. Qed.

(** The row loop only appends, one record for a row at most. *)
Lemma scan_rows_appends ws cols cur : forall rows acc,
  exists added,
    scan_rows float str_num now ws cols cur rows acc = (acc ++ added)%list
    /\ List.length added <= List.length rows
    /\ ((well_formed now /\ forall r c d, cell_at ws r c = VDate d -> well_formed d) ->
        Forall well_built added).
Proof.
  unfold scan_rows. induction rows as [|row rows IH]; intros acc; cbn [fold_left].
  - exists []. rewrite app_nil_r. repeat split; [cbn; lia | constructor].
  - destruct (process_row float str_num now ws cols cur (List.length acc) row)
      as [tx |] eqn:E.
    + destruct (IH (acc ++ [tx])%list) as (added & -> & L & W).
      exists (tx :: added). rewrite <- app_assoc. repeat split; [cbn; lia |].
      intros [Wn Wd]. constructor; [| apply W; split; assumption].
      exact (process_row_well_built _ _ _ _ _ _ Wn Wd E).
    + destruct (IH acc) as (added & -> & L & W).
      exists added. repeat split; [cbn; lia | exact W].
Qed.

(** X17: a sheet only adds records to those of the sheets before it, and
    at most one for each row below its header row.  The header row is at
    least 1, so the first row of a sheet never gives a record, also when
    the sheet has no header. *)
Theorem process_sheet_appends (cur : string) (all_transactions : list transaction)
    (ws : worksheet) :
  let header := c_header (columns_of (find_data_headers str_num ws)) in
  1 <= header
  /\ exists added,
       process_sheet float str_num now cur all_transactions ws
       = (all_transactions ++ added)%list
       /\ List.length added <= max_row ws - header.
Proof.
  intros header.
  assert (H1 : 1 <= header).
  { unfold header, columns_of, get_or. cbn [c_header].
    destruct (header_row_found str_num ws) as (row & -> & L). lia. }
  split; [exact H1 |].
  unfold process_sheet. fold header.
  destruct (scan_rows_appends ws (columns_of (find_data_headers str_num ws)) cur
              (range (header + 1) (max_row ws + 1)) all_transactions)
    as (added & E & L & _).
  exists added. split; [exact E |].
  unfold range in L. rewrite length_seq in L. lia.
Qed.

(** X19: on a sheet of ASCII text, without an amount column and without a
    type cell, a row that
    gives a record has a filled debit cell and minus the absolute value of
    that cell for amount, or else a filled credit cell and its absolute
    value for amount: the debit cell is looked at first, and a row with
    neither is dropped.  When the cell does not read as nan the amount of
    a debit is negative and its type Withdrawal, the amount of a credit
    positive and its type Deposit.  A debit cell that reads as nan gives
    the amount nan and the type Deposit. *)
Theorem debit_credit_columns ws cols cur count row tx :
  ascii_sheet str_num ws ->
  process_row float str_num now ws cols cur count row = Some tx ->
  given (c_amount cols) = None ->
  truthy (type_cell ws cols row) = false ->
  (filled str_num (debit_cell ws cols row) = true
   /\ exists x,
        float (remove_commas (str str_num (debit_cell ws cols row))) = Some x
        /\ Amount tx = fneg (fabs x)
        /\ (is_nan x = false ->
            is_negative (Amount tx) = true /\ Type_ tx = "Withdrawal")
        /\ (is_nan x = true -> Amount tx = NaN /\ Type_ tx = "Deposit"))
  \/ (filled str_num (debit_cell ws cols row) = false
      /\ filled str_num (credit_cell ws cols row) = true
      /\ exists x,
           float (remove_commas (str str_num (credit_cell ws cols row))) = Some x
           /\ Amount tx = fabs x
           /\ Type_ tx = "Deposit"
           /\ (is_nan x = false -> is_positive (Amount tx) = true)).
Proof.
  intros _ H G T.
  destruct (process_row_some _ _ _ _ _ _ _ _ _ H) as (_ & a & c & A & Z & _ & ->).
  cbn [Amount Type_]. rewrite T in *.
  unfold apply_type in *. rewrite T in *.
  unfold amount_of_columns, column_amount in A. rewrite G in A.
  destruct (filled str_num (debit_cell ws cols row)) eqn:D.
  - left. split; [reflexivity |].
    destruct (float (remove_commas (str str_num (debit_cell ws cols row)))) as [x |];
      [| discriminate].
    injection A as <-. exists x. split; [reflexivity |]. split; [reflexivity |].
    split.
    + intros N. rewrite (neg_abs_negative x N Z). split; reflexivity.
    + intros N. destruct x; try discriminate N. split; reflexivity.
  - right. split; [reflexivity |].
    destruct (filled str_num (credit_cell ws cols row)) eqn:C.
    + split; [reflexivity |].
      destruct (float (remove_commas (str str_num (credit_cell ws cols row)))) as [x |];
        [| discriminate].
      injection A as <-. exists x. split; [reflexivity |]. split; [reflexivity |].
      split.
      * destruct x as [[n d] | neg |]; cbn; try reflexivity.
        destruct (Z.abs n <? 0)%Z eqn:S; [| reflexivity].
        apply Z.ltb_lt in S. lia.
      * intros N. exact (abs_positive x N Z).
    + injection A as <-. discriminate Z.
Qed.

(** X20: the record at position [i] of the list was built when the list
    held [i] records, from one of the rows of the scan: a record made for
    a row without description is called [Transaction i+1], the number of
    its own place in the list, counted over all sheets. *)
Theorem placeholder_numbers_position ws cols cur : forall rows acc i tx,
  nth_error (scan_rows float str_num now ws cols cur rows acc) i = Some tx ->
  List.length acc <= i ->
  exists row,
    In row rows
    /\ process_row float str_num now ws cols cur i row = Some tx
    /\ (truthy (description_cell ws cols row) = false ->
        Description tx = "Transaction " ++ str_nat (i + 1)).
Proof.
  induction rows as [|row rows IH]; intros acc i tx E L.
  - cbn in E. assert (N : nth_error acc i = None) by (apply nth_error_None; lia).
    congruence.
  - rewrite scan_rows_cons in E.
    destruct (process_row float str_num now ws cols cur (List.length acc) row)
      as [tx0 |] eqn:P.
    + destruct (Nat.eq_dec i (List.length acc)) as [-> | Ne].
      * destruct (scan_rows_appends ws cols cur rows (acc ++ [tx0])%list)
          as (added & A & _ & _).
        rewrite A in E. rewrite <- app_assoc in E.
        rewrite nth_error_app2 in E by lia. rewrite Nat.sub_diag in E.
        cbn in E. injection E as <-.
        exists row. split; [left; reflexivity |]. split; [exact P |].
        intros D.
        destruct (process_row_some _ _ _ _ _ _ _ _ _ P) as (_ & a & c & _ & _ & _ & ->).
        cbn [Description]. unfold raw_description_of. rewrite D. reflexivity.
      * destruct (IH _ _ _ E) as (r & I & Q & D).
        { rewrite length_app. cbn. lia. }
        exists r. split; [right; exact I | split; assumption].
    + destruct (IH _ _ _ E L) as (r & I & Q & D).
      exists r. split; [right; exact I | split; assumption].
Qed.

(** The category of a record the row loop builds is a name of the rules. *)
Lemma process_row_rule_name ws cols cur count row tx :
  process_row float str_num now ws cols cur count row = Some tx ->
  exists c, Category tx = JStr c /\ In c (category_priority ++ ["Other"]).
Proof.
  unfold process_row.
  repeat match goal with
         | |- (if ?b then None else _) = Some _ -> _ => destruct b; [discriminate |]
         end.
  destruct (column_amount _ _ _ _ _ _ _) as [a |]; [| discriminate].
  destruct (is_zero _); [discriminate |].
  set (raw := if truthy _ then _ else _).
  destruct (categorize_transaction_rule_name (extract_merchant_name raw))
    as (c1 & -> & C1).
  destruct (categorize_transaction_rule_name raw) as (c2 & E2 & C2).
  destruct (c1 =? "Other").
  - rewrite E2. intros [= <-]. exists c2. split; [reflexivity | exact C2].
  - intros [= <-]. exists c1. split; [reflexivity | exact C1].
Qed.

Lemma scan_rows_forall (P : transaction -> Prop) ws cols cur :
  (forall count row tx,
     process_row float str_num now ws cols cur count row = Some tx -> P tx) ->
  forall rows acc, Forall P acc ->
  Forall P (scan_rows float str_num now ws cols cur rows acc).
Proof.
  intros H. induction rows as [|row rows IH]; intros acc F; [exact F |].
  rewrite scan_rows_cons. apply IH.
  destruct (process_row float str_num now ws cols cur (List.length acc) row)
    as [tx |] eqn:E; [| exact F].
  apply Forall_app. split; [exact F |]. constructor; [exact (H _ _ _ E) | constructor].
Qed.

(** X21: without a key for the external classifier the category of every
    record [process_excel_file] returns is one of the eleven names of the
    rules: Travel & Tourism, Professional Services, Real Estate and
    Education are never given. *)
Theorem process_excel_file_rule_names (wb : workbook)
    (classify : nat -> list transaction -> outcome) :
  Forall (fun tx =>
            exists c, Category tx = JStr c
              /\ In c [ "Internal Transfer"; "Salary & Income"; "Finance & Banking";
                        "Technology"; "Food & Beverage"; "Transportation & Logistics";
                        "Healthcare"; "Utilities"; "Entertainment & Media";
                        "Retail & Shopping"; "Other" ])
    (transactions (process_excel_file float str_num now wb false classify)).
Proof.
  unfold process_excel_file. cbn [transactions]. unfold process_sheets.
  assert (F : forall sheets acc,
            Forall (fun tx => exists c, Category tx = JStr c
                                /\ In c (category_priority ++ ["Other"])) acc ->
            Forall (fun tx => exists c, Category tx = JStr c
                                /\ In c (category_priority ++ ["Other"]))
              (fold_left
                 (process_sheet float str_num now
                    (currency (read_account_info str_num wb))) sheets acc)).
  { induction sheets as [|ws sheets IH]; intros acc A; cbn [fold_left]; [exact A |].
    apply IH. unfold process_sheet. apply scan_rows_forall; [| exact A].
    intros count row tx. apply process_row_rule_name. }
  specialize (F (transaction_sheets wb) [] (Forall_nil _)).
  destruct (0 <? _)%nat; exact F.
Qed.

Lemma fold_sheets_well_built cur : forall sheets acc,
  well_formed now ->
  (forall ws r c d, In ws sheets -> cell_at ws r c = VDate d -> well_formed d) ->
  Forall well_built acc ->
  Forall well_built (fold_left (process_sheet float str_num now cur) sheets acc).
Proof.
  induction sheets as [|ws sheets IH]; intros acc Wn Wd F; cbn [fold_left]; [exact F |].
  apply IH; [exact Wn | intros w r c d I; apply Wd; right; exact I |].
  unfold process_sheet.
  destruct (scan_rows_appends ws (columns_of (find_data_headers str_num ws)) cur
              (range (c_header (columns_of (find_data_headers str_num ws)) + 1)
                 (max_row ws + 1)) acc) as (added & -> & _ & W).
  apply Forall_app. split; [exact F |].
  apply W. split; [exact Wn |]. intros r c d. apply Wd. left. reflexivity.
Qed.

Lemma refined_well_built o tx tx' : refined o tx tx' -> well_built tx -> well_built tx'.
Proof.
  intros [-> | (c & -> & _)]; [auto |].
  unfold well_built. cbn. intros (Z & D & M & L & _). repeat split; assumption.
Qed.

Lemma refiner_well_built api_key classify txs :
  Forall well_built txs ->
  Forall well_built (ai_categorize_transactions api_key classify txs).
Proof.
  intros F.
  refine (Forall2_Forall_r _ _ _ _ _ _
            (ai_categorize_transactions_records api_key classify txs) F).
  intros t t' W (i & _ & R). exact (refined_well_built _ _ _ R W).
Qed.

Lemma transaction_sheets_in (wb : workbook) ws :
  In ws (transaction_sheets wb) -> exists name, In (name, ws) wb.
Proof.
  unfold transaction_sheets. intros I. apply in_map_iff in I.
  destruct I as ([name w] & <- & J). apply filter_In in J. exists name. exact (proj1 J).
Qed.

Lemma process_excel_file_well_built wb api_key classify :
  well_formed now -> dates_well_formed wb ->
  Forall well_built
    (transactions (process_excel_file float str_num now wb api_key classify)).
Proof.
  intros Wn Wd. unfold process_excel_file. cbn [transactions]. unfold process_sheets.
  assert (F : Forall well_built
                (fold_left
                   (process_sheet float str_num now
                      (currency (read_account_info str_num wb)))
                   (transaction_sheets wb) [])).
  { apply fold_sheets_well_built; [exact Wn | | constructor].
    intros ws r c d I. destruct (transaction_sheets_in _ _ I) as (name & J).
    exact (Wd name ws r c d J). }
  destruct (0 <? _)%nat; [apply refiner_well_built |]; exact F.
Qed.

(** X18: when the cells of the workbook print as ASCII text and the years
    of its native dates and of the current date have four digits, every
    record [process_excel_file] returns, with or without the external
    classifier and whatever it answers, has an amount other than zero, a
    date of the shape YYYY-MM-DD, the merchant name [extract_merchant_name]
    gives for its description, of at most sixty characters, and a
    subcategory equal to its category; [total_rows] is the number of the
    records. *)
Theorem process_excel_file_records (wb : workbook) (api_key : bool)
    (classify : nat -> list transaction -> outcome) :
  well_formed now -> dates_well_formed wb -> ascii_cells str_num wb ->
  let result := process_excel_file float str_num now wb api_key classify in
  Forall (fun tx =>
            is_zero (Amount tx) = false
            /\ iso_shape (Date tx) = true
            /\ MerchantName tx = extract_merchant_name (Description tx)
            /\ String.length (MerchantName tx) <= 60
            /\ Subcategory tx = Category tx)
    (transactions result)
  /\ total_rows result = List.length (transactions result).
Proof.
  intros Wn Wd _ result. split; [| reflexivity].
  exact (process_excel_file_well_built wb api_key classify Wn Wd).
Qed.

End Records.

Lemma debit_credit_columns_witness :
  exists tx,
    process_row decimal show_number example_now missing_description_sheet
      missing_description_columns "AED" 1 3 = Some tx
    /\ is_negative (Amount tx) = true /\ Type_ tx = "Withdrawal".
Proof.
  eexists. split; [vm_compute; reflexivity |].
  match goal with
  | |- is_negative (Amount ?t) = true /\ _ =>
      destruct (debit_credit_columns decimal show_number example_now
                  missing_description_sheet missing_description_columns "AED" 1 3 t
                  ltac:(apply sheet_of_ascii_sheet; repeat constructor)
                  ltac:(vm_compute; reflexivity) ltac:(vm_compute; reflexivity)
                  ltac:(vm_compute; reflexivity))
        as [(_ & x & X & _ & N & _) | (F & _)]
  end.
  - apply N. vm_compute in X. injection X as <-. reflexivity.
  - vm_compute in F. discriminate F.
Defined.

(** A debit cell with the text [nan]: the amount is nan and the type
    Deposit. *)
Lemma debit_credit_columns_nan :
  exists tx,
    process_row decimal show_number example_now nan_debit_sheet nan_debit_columns
      "AED" 0 2 = Some tx
    /\ Amount tx = NaN /\ Type_ tx = "Deposit".
Proof.
  eexists. split; [vm_compute; reflexivity |]. split; reflexivity.
Qed.

Lemma placeholder_numbers_position_witness :
  exists row tx,
    In row [2; 3]
    /\ process_row decimal show_number example_now missing_description_sheet
         missing_description_columns "AED" 0 row = Some tx
    /\ Description tx = "Transaction 1".
Proof.
  destruct (placeholder_numbers_position decimal show_number example_now
              missing_description_sheet missing_description_columns "AED"
              [2; 3] [] 0
              (mkTx "2025-01-15" (Finite (500000 # 100)) "Transaction 1" "Transaction 1"
                 "Deposit" (JStr "Other") (JStr "Other"))
              ltac:(vm_compute; reflexivity) ltac:(cbn; lia))
    as (row & I & P & D).
  exists row. eexists. split; [exact I |]. split; [exact P | reflexivity].
Defined.

Lemma process_excel_file_records_witness :
  Forall (fun tx => is_zero (Amount tx) = false /\ Subcategory tx = Category tx)
    (transactions
       (process_excel_file decimal show_number example_now typed_workbook true
          short_answer)).
Proof.
  refine (Forall_impl _ _
            (proj1 (process_excel_file_records decimal show_number example_now
                      typed_workbook true short_answer _ _ _))).
  - intros tx (Z & _ & _ & _ & S). split; assumption.
  - unfold well_formed. cbn. lia.
  - intros name ws row col d [[= <- <-] | []] E. exfalso. revert E.
    apply sheet_of_text. repeat constructor; discriminate.
  - intros name ws row col [[= <- <-] | []].
    apply sheet_of_ascii. repeat constructor.
Defined.

(** * The answers of the external classifier *)

Section Answers.

Variable classify : nat -> list transaction -> outcome.
Variable transactions : list transaction.

(** X22: with a key, when the answer for a batch is a JSON array, each
    record of the batch the array reaches gets the entry at its place as
    category and as subcategory, whatever JSON value the entry is: the
    entry is not compared with the list of categories.  The other fields
    of the record stay as they were. *)
Theorem answer_entry_is_written (k j : nat) (items : list json) (tx : transaction)
    (c : json) :
  j < batch_size ->
  classify (k * batch_size)
    (slice (k * batch_size) (k * batch_size + batch_size) transactions)
  = Parsed (JArr items) ->
  nth_error transactions (k * batch_size + j) = Some tx ->
  nth_error items j = Some c ->
  nth_error (ai_categorize_transactions true classify transactions) (k * batch_size + j)
  = Some {| Date := Date tx; Amount := Amount tx; Description := Description tx;
            MerchantName := MerchantName tx; Type_ := Type_ tx;
            Category := c; Subcategory := c |}.
Proof.
  intros J P E C.
  assert (K : k * batch_size < List.length transactions).
  { assert (N : nth_error transactions (k * batch_size + j) <> None) by congruence.
    apply nth_error_Some in N. lia. }
  rewrite (refined_place true classify transactions k j J K).
  unfold refined_at, batch_at. rewrite P. cbn [refine_batch].
  rewrite apply_from_nth, (nth_error_slice _ _ _ _ J), E. cbn [option_map Nat.add].
  rewrite pad_nth.
  assert (L : (j <? List.length items)%nat = true).
  { apply Nat.ltb_lt. apply nth_error_Some. congruence. }
  rewrite L, C. reflexivity.
Qed.

(** X23: the answer for one batch changes nothing outside the batch: two
    classifiers that differ only on the batch number [k] give the same
    records at every place outside that batch. *)
Theorem batches_are_independent (classify' : nat -> list transaction -> outcome)
    (api_key : bool) (k p : nat) :
  (forall i batch, i <> k * batch_size -> classify' i batch = classify i batch) ->
  p / batch_size <> k ->
  nth_error (ai_categorize_transactions api_key classify' transactions) p
  = nth_error (ai_categorize_transactions api_key classify transactions) p.
Proof.
  intros Same Other.
  destruct (Nat.lt_ge_cases p (List.length transactions)) as [L | G].
  - pose proof (Nat.div_mod_eq p batch_size) as D.
    assert (M : p mod batch_size < batch_size)
      by (apply Nat.mod_upper_bound; discriminate).
    assert (E : p = p / batch_size * batch_size + p mod batch_size) by lia.
    rewrite E.
    assert (K : p / batch_size * batch_size < List.length transactions) by lia.
    assert (R := refined_place api_key classify transactions (p / batch_size) (p mod batch_size) M K).
    rewrite R. clear R.
    assert (N : p / batch_size * batch_size <> k * batch_size).
    { unfold batch_size in *. lia. }
    transitivity (nth_error
                    (refined_at api_key classify' transactions
                       (p / batch_size * batch_size)) (p mod batch_size)).
    + rewrite <- (nth_error_slice _ (p / batch_size * batch_size) batch_size _ M).
      f_equal.
      assert (I : In (p / batch_size * batch_size)
                    (batch_starts (List.length transactions))).
      { apply batch_starts_spec. exists (p / batch_size). split; [reflexivity | exact K]. }
      exact (ai_categorize_transactions_slice api_key classify' transactions _ I).
    + unfold refined_at. rewrite (Same _ _ N). reflexivity.
  - assert (L1 : List.length (ai_categorize_transactions api_key classify transactions)
                 = List.length transactions).
    { symmetry.
      exact (Forall2_length
               (ai_categorize_transactions_records api_key classify transactions)). }
    assert (L2 : List.length (ai_categorize_transactions api_key classify' transactions)
                 = List.length transactions).
    { symmetry.
      exact (Forall2_length
               (ai_categorize_transactions_records api_key classify' transactions)). }
    rewrite (proj2 (nth_error_None _ _)) by lia.
    rewrite (proj2 (nth_error_None _ _)) by lia. reflexivity.
Qed.

End Answers.

Lemma answer_entry_is_written_witness :
  nth_error (ai_categorize_transactions true foreign_answer example_records) 0
  = Some (mkTx "2025-01-15" (Finite (-15000 # 100)) "CARREFOUR DXB" "Carrefour Dxb" "Withdrawal"
            (JStr "Groceries") (JStr "Groceries")).
Proof.
  exact (answer_entry_is_written foreign_answer example_records 0 0
           [JStr "Groceries"; JStr "Utilities"]
           (mkTx "2025-01-15" (Finite (-15000 # 100)) "CARREFOUR DXB" "Carrefour Dxb"
              "Withdrawal" (JStr "Food & Beverage") (JStr "Food & Beverage"))
           (JStr "Groceries")
           ltac:(unfold batch_size; lia) eq_refl eq_refl eq_refl).
Defined.

Lemma batches_are_independent_witness :
  nth_error (ai_categorize_transactions true
               (fun i batch => if (i =? 50)%nat then Raised else foreign_answer i batch)
               example_records) 0
  = nth_error (ai_categorize_transactions true foreign_answer example_records) 0.
Proof.
  apply (batches_are_independent foreign_answer example_records
           (fun i batch => if (i =? 50)%nat then Raised else foreign_answer i batch)
           true 1 0).
  - intros i batch N. destruct (i =? 50)%nat eqn:E; [| reflexivity].
    apply Nat.eqb_eq in E. unfold batch_size in N. lia.
  - cbn. lia.
Defined.

(** * The file type check of the upload *)

Lemma split_char_nonempty sep s : split_char sep s <> [].
Proof.
  destruct s as [|c s]; cbn; [discriminate |].
  destruct (Ascii.eqb c sep); [discriminate |].
  destruct (split_char sep s); discriminate.
Qed.

(** The last part of a text that holds no separator is the text. *)
Lemma split_char_none sep s :
  any_char (fun c => Ascii.eqb c sep) s = false -> split_char sep s = [s].
Proof.
  induction s as [|c s IH]; cbn; [reflexivity |].
  intros H. apply orb_false_iff in H. destruct H as [C H].
  rewrite C, (IH H). reflexivity.
Qed.

(** A text with a separator has two parts at least. *)
Lemma split_char_two sep stem e :
  2 <= List.length (split_char sep (stem ++ String sep e)).
Proof.
  induction stem as [|x stem IH]; cbn [append split_char].
  - rewrite Ascii.eqb_refl. cbn.
    pose proof (split_char_nonempty sep e).
    destruct (split_char sep e); [congruence | cbn; lia].
  - destruct (Ascii.eqb x sep); [cbn; lia |].
    destruct (split_char sep (stem ++ String sep e)); cbn in *; lia.
Qed.

Lemma last_cons {A} (x : A) l d : l <> [] -> last (x :: l) d = last l d.
Proof. destruct l; [congruence | reflexivity]. Qed.

(** The last part is what follows the last separator. *)
Lemma last_split_char sep stem e :
  any_char (fun c => Ascii.eqb c sep) e = false ->
  last (split_char sep (stem ++ String sep e)) "" = e.
Proof.
  intros H. induction stem as [|c stem IH]; cbn [append split_char].
  - rewrite Ascii.eqb_refl. rewrite (split_char_none sep e H). reflexivity.
  - destruct (Ascii.eqb c sep).
    + rewrite last_cons by apply split_char_nonempty. exact IH.
    + destruct (split_char sep (stem ++ String sep e)) as [|part parts] eqn:E.
      * exfalso. exact (split_char_nonempty _ _ E).
      * destruct parts as [|p ps].
        -- exfalso. pose proof (split_char_two sep stem e) as L.
           rewrite E in L. cbn in L. lia.
        -- exact IH.
Qed.

(** The text is its parts, joined by the separator. *)
Lemma split_char_last sep s :
  any_char (fun c => Ascii.eqb c sep) (last (split_char sep s) "") = false
  /\ (s = last (split_char sep s) ""
      \/ exists stem, s = stem ++ String sep (last (split_char sep s) "")).
Proof.
  induction s as [|c s (N & IH)]; cbn [split_char].
  - split; [reflexivity | left; reflexivity].
  - destruct (Ascii.eqb c sep) eqn:C.
    + apply Ascii.eqb_eq in C. subst c.
      rewrite last_cons by apply split_char_nonempty.
      split; [exact N |]. right.
      destruct IH as [E | (stem & E)].
      * exists "". cbn [append]. f_equal. exact E.
      * exists (String sep stem). cbn [append]. f_equal. exact E.
    + destruct (split_char sep s) as [|part parts] eqn:E.
      * exfalso. exact (split_char_nonempty _ _ E).
      * destruct parts as [|p ps].
        -- cbn [last] in *. split; [cbn; rewrite C, N; reflexivity |].
           left. destruct IH as [-> | (stem & F)]; [reflexivity |].
           exfalso. pose proof (split_char_two sep stem part) as L.
           rewrite <- F, E in L. cbn in L. lia.
        -- change (last (String c part :: p :: ps) "") with (last (p :: ps) "").
           change (last (part :: p :: ps) "") with (last (p :: ps) "") in *.
           split; [exact N |]. right.
           destruct IH as [F | (stem & F)].
           ++ exfalso.
              assert (X : split_char sep s = [s]) by (apply split_char_none; rewrite F; exact N).
              rewrite E in X. discriminate.
           ++ exists (String c stem). cbn [append]. f_equal. exact F.
Qed.

(** X25: [upload_file] accepts a file by the text after the last dot of its
    lower-cased name: the name is accepted exactly when it is [xlsx], [xls]
    or [pdf], or ends with a dot and one of the three, in any letter case. *)
Theorem upload_accepts_by_extension (filename : string) :
  App.accepted filename = true
  <-> exists ext, In ext ["xlsx"; "xls"; "pdf"]
        /\ (lower filename = ext \/ exists stem, lower filename = stem ++ "." ++ ext).
Proof.
  unfold App.accepted, App.file_ext. split.
  - intros M.
    destruct (split_char_last "." (lower filename)) as (_ & S).
    exists (last (split_char "." (lower filename)) ""). split; [| exact S].
    unfold mem in M. cbn [existsb] in M.
    repeat match goal with
           | H : (_ || _) = true |- _ => apply orb_true_iff in H; destruct H as [H | H]
           | H : String.eqb _ _ = true |- _ => apply String.eqb_eq in H
           end; try discriminate; rewrite M; cbn; tauto.
  - intros (ext & I & [E | (stem & E)]).
    + rewrite E.
      destruct I as [<- | [<- | [<- | []]]]; reflexivity.
    + rewrite E. change ("." ++ ext) with (String "." ext).
      destruct I as [<- | [<- | [<- | []]]];
        rewrite last_split_char by reflexivity; reflexivity.
Qed.

Example upload_accepts_examples :
  App.accepted "Statement.XLSX" = true
  /\ App.accepted "statement.xlsx.exe" = false
  /\ App.accepted "pdf" = true
  /\ App.accepted "statement" = false.
Proof. repeat split. Qed.

(** * The case of the letters *)

Lemma orelse_map {A B} (h : A -> B) (a b : option A) :
  orelse (option_map h a) (option_map h b) = option_map h (orelse a b).
Proof. destruct a; reflexivity. Qed.

Lemma take_smap f n : forall s, take n (smap f s) = smap f (take n s).
Proof. induction n as [|n IH]; intros [|c s]; cbn; try reflexivity. rewrite IH. reflexivity. Qed.

Section Blind.

Variable ic : bool.
Variable f : ascii -> ascii.
Hypothesis kinds : keeps_kinds f.

Lemma at_end_smap s : at_end (smap f s) = at_end s.
Proof.
  destruct s as [|c [|c' s]]; cbn; try reflexivity.
  apply (proj2 (proj2 kinds)).
Qed.

Lemma word_before_map prev : word_before (option_map f prev) = word_before prev.
Proof. destruct prev; cbn; [apply (proj1 kinds) | reflexivity]. Qed.

Lemma word_after_smap s : word_after (smap f s) = word_after s.
Proof. destruct s; cbn; [reflexivity | apply (proj1 kinds)]. Qed.

Lemma rep_blind {A B} (h : A -> B) g p
    (k : option ascii -> string -> option A) (k' : option ascii -> string -> option B) :
  (forall x, cls_ok ic p (f x) = cls_ok ic p x) ->
  (forall p' s', k' (option_map f p') (smap f s') = option_map h (k p' s')) ->
  forall s lo hi prev,
  rep ic g lo hi p (option_map f prev) (smap f s) k'
  = option_map h (rep ic g lo hi p prev s k).
Proof.
  intros Hp Hk.
  induction s as [|x s IH]; intros lo hi prev; cbn [rep smap].
  - destruct lo as [|lo].
    + pose proof (Hk prev "") as E. cbn [smap] in E. rewrite E.
      destruct g; cbn [orelse]; destruct (k prev ""); reflexivity.
    + destruct g; reflexivity.
  - rewrite Hp.
    destruct (cls_ok ic p x && room hi).
    + pose proof (IH (pred lo) (dec hi) (Some x)) as R. cbn [option_map] in R.
      rewrite R. clear R.
      pose proof (Hk prev (String x s)) as E. cbn [smap] in E.
      destruct lo as [|lo]; [rewrite E |];
        destruct g; try apply orelse_map;
        change (@None B) with (option_map h (@None A)); apply orelse_map.
    + pose proof (Hk prev (String x s)) as E. cbn [smap] in E.
      destruct lo as [|lo]; [rewrite E |];
        change (@None B) with (option_map h (@None A));
        destruct g; apply orelse_map.
Qed.

Lemma run_blind r : blind ic f r ->
  forall {A B} (h : A -> B) prev s cs
    (k : option ascii -> string -> caps -> option A)
    (k' : option ascii -> string -> caps -> option B),
  (forall p' s' cs',
     k' (option_map f p') (smap f s') (cmap f cs') = option_map h (k p' s' cs')) ->
  run ic r (option_map f prev) (smap f s) (cmap f cs) k'
  = option_map h (run ic r prev s cs k).
Proof.
  induction r as [ |c|p| | | |r1 IH1 r2 IH2|r1 IH1 r2 IH2|r1 IH1|g lo hi p|n r1 IH1];
    intros Hb A B h prev s cs k k' Hk; cbn [run].
  - apply Hk.
  - destruct s as [|x s]; [reflexivity |]. cbn [smap]. cbn [blind] in Hb. rewrite Hb.
    destruct (chr_ok ic c x); [apply (Hk (Some x)) | reflexivity].
  - destruct s as [|x s]; [reflexivity |]. cbn [smap]. cbn [blind] in Hb. rewrite Hb.
    destruct (cls_ok ic p x); [apply (Hk (Some x)) | reflexivity].
  - destruct prev; [reflexivity | apply (Hk None)].
  - rewrite at_end_smap. destruct (at_end s); [apply Hk | reflexivity].
  - rewrite word_before_map, word_after_smap.
    destruct (xorb _ _); [apply Hk | reflexivity].
  - destruct Hb as [H1 H2]. apply (IH1 H1). intros p' s' cs'. apply (IH2 H2). exact Hk.
  - destruct Hb as [H1 H2].
    rewrite (IH1 H1 _ _ h prev s cs k k' Hk), (IH2 H2 _ _ h prev s cs k k' Hk).
    apply orelse_map.
  - cbn [blind] in Hb. rewrite (IH1 Hb _ _ h prev s cs k k' Hk), Hk. apply orelse_map.
  - cbn [blind] in Hb.
    apply (rep_blind h g p (fun p' s' => k p' s' cs) (fun p' s' => k' p' s' (cmap f cs)) Hb).
    intros p' s'. apply Hk.
  - cbn [blind] in Hb. apply (IH1 Hb). intros p' s' cs'.
    rewrite !smap_length, take_smap.
    apply (Hk p' s' ((n, take (String.length s - String.length s') s) :: cs')).
Qed.

Lemma here_blind r prev s : blind ic f r ->
  here ic r (option_map f prev) (smap f s)
  = option_map (fun rc => (smap f (fst rc), cmap f (snd rc))) (here ic r prev s).
Proof.
  intros Hb. unfold here.
  apply (run_blind r Hb (fun rc => (smap f (fst rc), cmap f (snd rc))) prev s []).
  reflexivity.
Qed.

Lemma re_match_blind r s : blind ic f r ->
  re_match ic r (smap f s) = option_map (cmap f) (re_match ic r s).
Proof.
  intros Hb. unfold re_match.
  pose proof (here_blind r None s Hb) as R. cbn [option_map] in R. rewrite R.
  destruct (here ic r None s) as [[rest cs] |]; reflexivity.
Qed.

Lemma sub_from_blind r : blind ic f r ->
  forall s prev skip,
  sub_from ic r (fun _ => "") (option_map f prev) (smap f s) skip
  = smap f (sub_from ic r (fun _ => "") prev s skip).
Proof.
  intros Hb. induction s as [|c s IH]; intros prev skip.
  - destruct skip; cbn [sub_from smap]; [| reflexivity].
    pose proof (here_blind r prev "" Hb) as R. cbn [smap] in R. rewrite R.
    destruct (here ic r prev "") as [[rest cs] |]; reflexivity.
  - assert (Next : forall n,
              sub_from ic r (fun _ => "") (Some (f c)) (smap f s) n
              = smap f (sub_from ic r (fun _ => "") (Some c) s n))
      by (intros n; exact (IH (Some c) n)).
    destruct skip as [|n]; cbn [sub_from smap].
    + pose proof (here_blind r prev (String c s) Hb) as R. cbn [smap] in R. rewrite R.
      destruct (here ic r prev (String c s)) as [[rest cs] |]; cbn [option_map fst snd].
      * cbn [String.length]. rewrite !smap_length.
        destruct (S (String.length s) - String.length rest) as [|m];
          cbn [append smap]; rewrite Next; reflexivity.
      * rewrite Next. reflexivity.
    + apply Next.
Qed.

Lemma strip_smap s : strip (smap f s) = smap f (strip s).
Proof.
  unfold strip. rewrite lstrip_smap, rstrip_smap by apply (proj1 (proj2 kinds)).
  reflexivity.
Qed.

End Blind.

Ltac blind_by_cases :=
  cbv [blind re_ref_suffix re_hex_ref cat star upto atleast];
  repeat split; try exact I;
  let x := fresh "x" in intros x; by_cases_on_char x.

Lemma upper_keeps_kinds : keeps_kinds upper_char.
Proof. repeat split; intros c; by_cases_on_char c. Qed.

Lemma lower_keeps_kinds : keeps_kinds lower_char.
Proof. repeat split; intros c; by_cases_on_char c. Qed.

Lemma upper_blind_suffix : blind false upper_char re_ref_suffix.
Proof. blind_by_cases. Qed.

Lemma lower_blind_suffix : blind false lower_char re_ref_suffix.
Proof. blind_by_cases. Qed.

Lemma upper_blind_hex : blind true upper_char re_hex_ref.
Proof. blind_by_cases. Qed.

Lemma lower_blind_hex : blind true lower_char re_hex_ref.
Proof. blind_by_cases. Qed.

(** The reference check cannot tell a text from its image. *)
Lemma is_ibft_reference_blind f description :
  keeps_kinds f -> blind false f re_ref_suffix -> blind true f re_hex_ref ->
  _is_ibft_reference (smap f description) = _is_ibft_reference description.
Proof.
  intros K S H. unfold _is_ibft_reference, remove, sub.
  rewrite (strip_smap f K).
  pose proof (sub_from_blind false f K re_ref_suffix S (strip description) None 0) as R.
  cbn [option_map] in R. rewrite R.
  rewrite (re_match_blind true f K re_hex_ref _ H).
  destruct (re_match true re_hex_ref _); reflexivity.
Qed.

Lemma categorize_depth_blind f frames description :
  keeps_kinds f -> blind false f re_ref_suffix -> blind true f re_hex_ref ->
  lower (smap f description) = lower description ->
  categorize_depth frames (smap f description) = categorize_depth frames description.
Proof.
  intros K S H L. destruct frames as [|frames]; [reflexivity |].
  cbn [categorize_depth]. rewrite L.
  unfold categorize_plain. rewrite (is_ibft_reference_blind f description K S H).
  reflexivity.
Qed.

(** X26: on ASCII text the rule classifier does not look at the case of
    the letters: a description in upper case or in lower case gets the
    category of the description itself, and uses up the nested calls the
    interpreter allows on the same descriptions. *)
Theorem categorize_transaction_ignores_case (frames : nat) (description : string) :
  ascii_text description = true ->
  categorize_depth frames (Py.upper description) = categorize_depth frames description
  /\ categorize_depth frames (lower description) = categorize_depth frames description
  /\ categorize_transaction (Py.upper description) = categorize_transaction description
  /\ categorize_transaction (lower description) = categorize_transaction description.
Proof.
  intros _.
  assert (U : forall n, categorize_depth n (Py.upper description)
                        = categorize_depth n description).
  { intros n. apply (categorize_depth_blind upper_char);
      [exact upper_keeps_kinds | exact upper_blind_suffix | exact upper_blind_hex |].
    apply lower_upper. }
  assert (L : forall n, categorize_depth n (lower description)
                        = categorize_depth n description).
  { intros n. apply (categorize_depth_blind lower_char);
      [exact lower_keeps_kinds | exact lower_blind_suffix | exact lower_blind_hex |].
    apply lower_twice. }
  split; [apply U |]. split; [apply L |].
  unfold categorize_transaction, Py.upper, lower. rewrite !smap_length.
  split; [apply U | apply L].
Qed.

Lemma categorize_transaction_ignores_case_witness :
  categorize_depth 1000 (Py.upper "Carrefour Market")
  = categorize_depth 1000 "Carrefour Market".
Proof.
  apply (categorize_transaction_ignores_case 1000 "Carrefour Market"). reflexivity.
Defined.

(** * The normalizer on a plain name *)

(** ** Where a pattern cannot match *)

Lemma here_sound ic r prev s rest cs :
  here ic r prev s = Some (rest, cs) -> exists p', matches ic r prev s [] p' rest cs.
Proof.
  unfold here. intros H.
  destruct (run_sound _ _ _ _ _ _ _ H) as (p' & s' & cs' & M & [= <- <-]).
  exists p'. exact M.
Qed.

Lemma last_char_app prev a c : last_char prev (a ++ String c "") = Some c.
Proof. revert prev. induction a as [|x a IH]; intros prev; [reflexivity | apply IH]. Qed.

(** The substitution changes nothing in a text the pattern matches at no
    place of. *)
Lemma sub_from_unchanged ic pat repl r :
  (forall pre t, r = pre ++ t -> here ic pat (last_char None pre) t = None) ->
  forall t pre, r = pre ++ t -> sub_from ic pat repl (last_char None pre) t 0 = t.
Proof.
  intros H. induction t as [|c t IH]; intros pre E; cbn [sub_from].
  - rewrite (H pre "" E). reflexivity.
  - rewrite (H pre (String c t) E). f_equal.
    rewrite <- (last_char_app None pre c). apply IH.
    rewrite E, string_app_assoc. reflexivity.
Qed.

Lemma sub_unchanged ic pat repl r :
  (forall pre t, r = pre ++ t -> here ic pat (last_char None pre) t = None) ->
  sub ic pat repl r = r.
Proof. intros H. exact (sub_from_unchanged ic pat repl r H r "" eq_refl). Qed.

Lemma all_chars_app p a b : all_chars p (a ++ b) = all_chars p a && all_chars p b.
Proof.
  induction a as [|c a IH]; cbn; [reflexivity |]. rewrite IH. apply andb_assoc.
Qed.

(** A match of a pattern that needs a character of a class takes one. *)
Lemma needs_sound ic P r p s cs p' s' cs' :
  matches ic r p s cs p' s' cs' -> needs ic P r ->
  exists w, s = w ++ s' /\ all_chars (fun c => negb (P c)) w = false.
Proof.
  induction 1 as [ | c x prev s cs C | q x prev s cs C | | | |
                   r1 r2 p s cs p1 s1 cs1 p2 s2 cs2 M1 IH1 M2 IH2 |
                   r1 r2 p s cs p' s' cs' M IH | r1 r2 p s cs p' s' cs' M IH |
                   r1 p s cs p' s' cs' M IH | |
                   g lo hi q prev w s cs W L B |
                   n r1 p s cs p' s' cs' M IH ];
    cbn [needs]; intros N; try contradiction.
  - exists (String x ""). split; [reflexivity |]. cbn. rewrite (N x C). reflexivity.
  - exists (String x ""). split; [reflexivity |]. cbn. rewrite (N x C). reflexivity.
  - destruct N as [N | N].
    + destruct (IH1 N) as (w1 & -> & F).
      destruct (matches_consumed _ _ _ _ _ _ _ _ M2) as (w2 & ->).
      exists (w1 ++ w2). split; [symmetry; apply string_app_assoc |].
      rewrite all_chars_app, F. reflexivity.
    + destruct (IH2 N) as (w2 & -> & F).
      destruct (matches_consumed _ _ _ _ _ _ _ _ M1) as (w1 & ->).
      exists (w1 ++ w2). split; [symmetry; apply string_app_assoc |].
      rewrite all_chars_app, F. apply andb_false_r.
  - apply IH. apply N.
  - apply IH. apply N.
  - destruct N as (L1 & N). exists w. split; [reflexivity |].
    destruct w as [|x w]; [cbn in L; lia |].
    cbn in W. apply andb_prop in W. destruct W as [X _].
    cbn. rewrite (N x X). reflexivity.
  - apply IH. exact N.
Qed.

(** Such a pattern matches nowhere in a text without a character of the
    class. *)
Lemma here_needs ic P pat r :
  needs ic P pat -> all_chars (fun c => negb (P c)) r = true ->
  forall prev pre t, r = pre ++ t -> here ic pat prev t = None.
Proof.
  intros N A prev pre t E.
  destruct (here ic pat prev t) as [[rest cs]|] eqn:H; [exfalso | reflexivity].
  destruct (here_sound _ _ _ _ _ _ H) as (p' & M).
  destruct (needs_sound ic P _ _ _ _ _ _ _ M N) as (w & -> & F).
  rewrite E, !all_chars_app, F in A. rewrite andb_false_r in A. discriminate.
Qed.

Lemma sub_needs ic P pat repl r :
  needs ic P pat -> all_chars (fun c => negb (P c)) r = true -> sub ic pat repl r = r.
Proof.
  intros N A. apply sub_unchanged. intros pre t E.
  exact (here_needs ic P pat r N A _ pre t E).
Qed.

(** A pattern that starts with [^] matches at the start of the text or
    nowhere. *)
Lemma sub_anchored ic pat repl r :
  here ic (Cat Bol pat) None r = None -> sub ic (Cat Bol pat) repl r = r.
Proof.
  intros H. apply sub_unchanged. intros [|c pre] t E.
  - cbn in E. subst t. exact H.
  - change (String c pre) with (String c "" ++ pre)%string.
    destruct (last_char None (String c "" ++ pre)) as [x|] eqn:L.
    + reflexivity.
    + exfalso. clear - L. cbn in L. revert L. generalize c.
      induction pre as [|y pre IH]; intros c0 L; [discriminate | exact (IH y L)].
Qed.

(** ** Literals and white space *)

Lemma forall_ascii (P : ascii -> bool) :
  forallb P (map ascii_of_nat (seq 0 256)) = true -> forall x, P x = true.
Proof.
  intros H x. rewrite forallb_forall in H. apply H.
  rewrite <- (ascii_nat_embedding x). apply in_map. apply in_seq.
  pose proof (nat_ascii_bounded x). lia.
Qed.

(** Under IGNORECASE a literal takes a character that is the same letter. *)
Lemma chr_ok_upper c x : chr_ok true c x = true -> upper_char x = upper_char c.
Proof.
  intros H.
  assert (T1 : forall c0,
             forallb (fun x0 => implb (chr_ok true c0 x0)
                                  (Ascii.eqb (upper_char x0) (upper_char c0)))
               (map ascii_of_nat (seq 0 256)) = true).
  { apply (forall_ascii
             (fun c0 => forallb (fun x0 => implb (chr_ok true c0 x0)
                                         (Ascii.eqb (upper_char x0) (upper_char c0)))
                          (map ascii_of_nat (seq 0 256)))).
    vm_compute. reflexivity. }
  pose proof (forall_ascii _ (T1 c) x) as T. cbn beta in T.
  rewrite H in T. cbn in T. apply Ascii.eqb_eq. exact T.
Qed.

Lemma cls_ok_space ic x : cls_ok ic space x = true -> is_space x = true.
Proof. destruct ic; by_cases_on_char x. Qed.

(** What a literal takes, under IGNORECASE, is the literal in some letter
    case. *)
Lemma lit_matches W : forall p s cs p' s' cs',
  matches true (lit W) p s cs p' s' cs' ->
  exists w, s = w ++ s' /\ String.length w = String.length W /\ upper w = upper W.
Proof.
  induction W as [|c W IH]; intros p s cs p' s' cs' M; cbn [lit] in M.
  - inversion M; subst. exists "". auto.
  - inversion M as [| | | | | |? ? ? ? ? ? ? ? ? ? ? M1 M2| | | | | |]; subst; clear M.
    inversion M1 as [|? ? ? ? ? C| | | | | | | | | | |]; subst; clear M1.
    destruct (IH _ _ _ _ _ _ M2) as (w & -> & L & U).
    exists (String x w). cbn. unfold upper in U. rewrite L, U, (chr_ok_upper _ _ C).
    auto.
Qed.

(** [\s+] takes a white space character. *)
Lemma gap_matches ic p s cs p' s' cs' :
  matches ic gap p s cs p' s' cs' ->
  exists c t, s = String c t /\ is_space c = true.
Proof.
  intros M. inversion M as [| | | | | | | | | | |? ? ? ? ? w ? ? W L B|]; subst; clear M.
  destruct w as [|c w]; [cbn in L; lia |].
  cbn in W. apply andb_prop in W. destruct W as [X _].
  exists c, (w ++ s'). split; [reflexivity | exact (cls_ok_space _ _ X)].
Qed.

Lemma drop_app w t : drop (String.length w) (w ++ t) = t.
Proof. induction w as [|c w IH]; cbn; [destruct t; reflexivity | exact IH]. Qed.

(** A match of a word of the pattern and white space at the start of the
    text: the text begins with the word. *)
Lemma word_gap_begins W rest p s cs p' s' cs' :
  upper W = W ->
  matches true (Cat (lit W) (Cat gap rest)) p s cs p' s' cs' ->
  prefix W (upper s) = true
  /\ exists c t, drop (String.length W) s = String c t /\ is_space c = true.
Proof.
  intros UW M.
  inversion M as [| | | | | |? ? ? ? ? ? ? ? ? ? ? M1 M2| | | | | |]; subst; clear M.
  inversion M2 as [| | | | | |? ? ? ? ? ? ? ? ? ? ? M3 M4| | | | | |]; subst; clear M2.
  destruct (lit_matches _ _ _ _ _ _ _ M1) as (w & -> & L & U).
  destruct (gap_matches _ _ _ _ _ _ _ M3) as (c & t & -> & S).
  split.
  - apply prefix_app. exists (upper (String c t)).
    unfold upper in *. rewrite smap_app, U, UW. reflexivity.
  - exists c, t. rewrite <- L, drop_app. auto.
Qed.

Lemma word_gap_begins_word W rest p s cs p' s' cs' :
  upper W = W ->
  matches true (Cat (lit W) (Cat gap rest)) p s cs p' s' cs' ->
  begins_word W s = true.
Proof.
  intros UW M. destruct (word_gap_begins _ _ _ _ _ _ _ _ UW M) as (P & c & t & D & S).
  unfold begins_word. rewrite P, D, S. reflexivity.
Qed.

(** A prefix pattern, [^], a word, white space and the rest, changes
    nothing in a text that does not begin with the word and white space. *)
Lemma prefix_pattern_unchanged W rest r :
  upper W = W -> begins_word W r = false ->
  remove true (Cat Bol (Cat (lit W) (Cat gap rest))) r = r.
Proof.
  intros UW B. unfold remove. apply sub_anchored.
  destruct (here true _ None r) as [[t cs]|] eqn:H; [exfalso | reflexivity].
  destruct (here_sound _ _ _ _ _ _ H) as (p' & M).
  inversion M as [| | | | | |? ? ? ? ? ? ? ? ? ? ? M1 M2| | | | | |]; subst; clear M.
  inversion M1; subst; clear M1.
  rewrite (word_gap_begins_word _ _ _ _ _ _ _ _ UW M2) in B. discriminate.
Qed.

(** ** Title-cased text *)

(** No two capital letters follow each other in a title-cased text. *)
Lemma title_from_capitals pre c1 c2 post : forall b,
  is_upper c1 = true -> is_upper c2 = true ->
  title_from b (pre ++ String c1 (String c2 post)) = pre ++ String c1 (String c2 post) ->
  False.
Proof.
  induction pre as [|x pre IH]; intros b U1 U2; cbn [append title_from].
  - assert (A1 : is_alpha c1 = true) by (unfold is_alpha; rewrite U1; reflexivity).
    assert (A2 : is_alpha c2 = true) by (unfold is_alpha; rewrite U2; reflexivity).
    rewrite A1, A2. intros H. injection H. intros _ E _. revert U2 E. clear.
    by_cases_on_char c2.
  - destruct (is_alpha x); intros H;
      apply (f_equal (fun s => match s with String _ t => t | EmptyString => s end)) in H;
      exact (IH _ U1 U2 H).
Qed.

(** ** Runs of characters *)

Lemma begins_run_app p w t n :
  all_chars p w = true -> n <= String.length w -> begins_run p n (w ++ t) = true.
Proof.
  revert w. induction n as [|n IH]; intros w W L; [reflexivity |].
  destruct w as [|c w]; [cbn in L; lia |].
  cbn in W. apply andb_prop in W. destruct W as [C W].
  cbn. rewrite C. apply IH; [exact W | cbn in L; lia].
Qed.

Lemma has_run_app p n pre t : begins_run p n t = true -> has_run p n (pre ++ t) = true.
Proof.
  intros B. induction pre as [|c pre IH].
  - destruct t; cbn in *; rewrite B; reflexivity.
  - cbn [append has_run]. rewrite IH. apply orb_true_r.
Qed.

(** ** The steps on a plain name *)

Section Plain.

Variable r : string.
Hypothesis plain : plain_name r = true.

Lemma plain_parts :
  is_empty r = false /\ String.length r <= 60 /\ strip r = r /\ title r = r
  /\ all_chars (fun c => negb (marker c)) r = true
  /\ (forall w, In w prefix_words -> begins_word w r = false)
  /\ contains "RECURRING" (upper r) = false
  /\ has_run hexdigit 10 r = false.
Proof.
  pose proof plain as P. unfold plain_name in P.
  repeat match type of P with
         | _ && _ = true => apply andb_prop in P; destruct P as [P ?]
         end.
  repeat match goal with
         | H : negb _ = true |- _ => apply negb_true_iff in H
         end.
  repeat split; try assumption.
  - apply Nat.leb_le. assumption.
  - apply String.eqb_eq. assumption.
  - apply String.eqb_eq. assumption.
  - intros w I.
    match goal with
    | H : forallb _ prefix_words = true |- _ =>
        rewrite forallb_forall in H; specialize (H w I);
        apply negb_true_iff in H; exact H
    end.
Qed.

Lemma plain_stripped : strip r = r.
Proof. exact (proj1 (proj2 (proj2 plain_parts))). Qed.

Lemma plain_unmarked : all_chars (fun c => negb (marker c)) r = true.
Proof. exact (proj1 (proj2 (proj2 (proj2 (proj2 plain_parts))))). Qed.

(** Step 1. *)
Lemma plain_prefix_patterns :
  fold_left (fun s pattern => strip (remove true pattern s)) prefix_patterns r = r.
Proof.
  destruct plain_parts as (_ & _ & S & _ & _ & W & _).
  unfold prefix_patterns. cbn [fold_left].
  repeat match goal with
         | |- context [remove true (cat (Bol :: lit ?w :: gap :: ?rest)) r] =>
             change (cat (Bol :: lit w :: gap :: rest))
               with (Cat Bol (Cat (lit w) (Cat gap (cat rest))));
             rewrite (prefix_pattern_unchanged w (cat rest) r eq_refl
                        (W w ltac:(cbn; tauto))), S
         end.
  reflexivity.
Qed.

(** Step 2. *)
Lemma plain_square : re_match true (re_square "SQ") r = None.
Proof.
  unfold re_match.
  rewrite (here_needs true marker (re_square "SQ") r) with (pre := "");
    [reflexivity | | exact plain_unmarked | reflexivity].
  cbn. right. right. right. left. intros x. by_cases_on_char x.
Qed.

(** Step 3. *)
Lemma plain_state_zip : remove false re_state_zip r = r.
Proof.
  apply (sub_needs false marker); [| exact plain_unmarked].
  cbn. right. right. right. left. split; [lia |]. intros x. by_cases_on_char x.
Qed.

Lemma plain_state : remove false re_state r = r.
Proof.
  destruct plain_parts as (_ & _ & _ & T & _).
  apply sub_unchanged. intros pre t E.
  destruct (here false re_state _ t) as [[rest cs]|] eqn:H; [exfalso | reflexivity].
  destruct (here_sound _ _ _ _ _ _ H) as (p' & M).
  inversion M as [| | | | | |? ? ? ? ? ? ? ? ? ? ? M1 M2| | | | | |]; subst; clear M.
  inversion M2 as [| | | | | |? ? ? ? ? ? ? ? ? ? ? M3 M4| | | | | |]; subst; clear M2.
  destruct (matches_consumed _ _ _ _ _ _ _ _ M1) as (g & ->).
  inversion M3 as [| | | | | | | | | | |? ? ? ? ? w ? ? W L B|]; subst; clear M3.
  destruct w as [|c1 [|c2 w]]; cbn in L; try lia.
  cbn in W. apply andb_prop in W. destruct W as [U1 W].
  apply andb_prop in W. destruct W as [U2 _].
  unfold title in T.
  rewrite <- string_app_assoc in T.
  exact (title_from_capitals _ c1 c2 _ false U1 U2 T).
Qed.

(** Step 4. *)
Lemma plain_long_number : remove false re_long_number r = r.
Proof.
  apply (sub_needs false marker); [| exact plain_unmarked].
  cbn. right. left. split; [lia |]. intros x. by_cases_on_char x.
Qed.

Lemma plain_hex_code : remove false re_hex_code r = r.
Proof.
  destruct plain_parts as (_ & _ & _ & _ & _ & _ & _ & R).
  apply sub_unchanged. intros pre t E.
  destruct (here false re_hex_code _ t) as [[rest cs]|] eqn:H; [exfalso | reflexivity].
  destruct (here_sound _ _ _ _ _ _ H) as (p' & M).
  inversion M as [| | | | | |? ? ? ? ? ? ? ? ? ? ? M1 M2| | | | | |]; subst; clear M.
  inversion M1; subst; clear M1.
  inversion M2 as [| | | | | |? ? ? ? ? ? ? ? ? ? ? M3 M4| | | | | |]; subst; clear M2.
  inversion M3 as [| | | | | | | | | | |? ? ? ? ? w ? ? W L B|]; subst; clear M3.
  rewrite (has_run_app hexdigit 10 pre _ (begins_run_app hexdigit w _ 10 W L)) in R.
  discriminate.
Qed.

(** Step 5. *)
Lemma plain_recurring : remove true re_recurring r = r.
Proof.
  destruct plain_parts as (_ & _ & _ & _ & _ & _ & C & _).
  apply sub_unchanged. intros pre t E.
  destruct (here true re_recurring _ t) as [[rest cs]|] eqn:H; [exfalso | reflexivity].
  destruct (here_sound _ _ _ _ _ _ H) as (p' & M).
  inversion M as [| | | | | |? ? ? ? ? ? ? ? ? ? ? M1 M2| | | | | |]; subst; clear M.
  inversion M2 as [| | | | | |? ? ? ? ? ? ? ? ? ? ? M3 M4| | | | | |]; subst; clear M2.
  destruct (matches_consumed _ _ _ _ _ _ _ _ M1) as (g & ->).
  destruct (lit_matches "RECURRING" _ _ _ _ _ _ M3) as (w & -> & _ & U).
  match type of C with
  | contains _ (upper (pre ++ g ++ w ++ ?t)) = false =>
      assert (P : part_of "RECURRING" (upper (pre ++ g ++ w ++ t)));
      [ exists (upper (pre ++ g)), (upper t); unfold upper in *;
        rewrite !smap_app, U, !string_app_assoc; reflexivity |]
  end.
  apply contains_part in P. rewrite P in C. discriminate.
Qed.

(** Step 6. *)
Lemma plain_store_number : remove false re_store_number r = r.
Proof.
  apply (sub_needs false marker); [| exact plain_unmarked].
  cbn. right. left. intros x. by_cases_on_char x.
Qed.

(** Step 7. *)
Lemma plain_junk_tail : sub false re_junk_tail (grp 1) r = r.
Proof.
  apply (sub_needs false marker); [| exact plain_unmarked].
  cbn. right. right. right. left. split; [lia |]. intros x. by_cases_on_char x.
Qed.

(** Steps 1 to 7 leave a plain name as it is. *)
Lemma plain_strip_stages : strip_stages r = r.
Proof.
  unfold strip_stages.
  rewrite plain_stripped, plain_prefix_patterns, plain_square, plain_state_zip,
    plain_stripped, plain_state, plain_stripped, plain_long_number, plain_stripped,
    plain_hex_code, plain_stripped, plain_recurring, plain_stripped,
    plain_store_number, plain_stripped, plain_junk_tail.
  exact plain_stripped.
Qed.

(** A plain name is returned as it is. *)
Lemma plain_name_fixed : extract_merchant_name r = r.
Proof.
  destruct plain_parts as (N & L & S & T & _).
  unfold extract_merchant_name. rewrite plain_strip_stages, T, S, N. cbn [negb].
  apply take_all. exact L.
Qed.

End Plain.

(** C4, amended.  Running the normalizer on its own output returns that
    output unchanged, steps 1 to 7 stripping nothing from it, when the
    output is a plain name: ASCII text of at most 60 characters, not
    empty, with no white space around it, title-cased, without digit,
    number sign or star, not beginning with one of the prefix words
    (CHECKCARD, MOBILE, POS, RECURRING, ONLINE, DEBIT, ACH, WIRE, ZELLE,
    VENMO, PAYPAL, DIRECT, ATM) and white space, not holding the word
    RECURRING, and with no ten hexadecimal digits in a row.  It also
    returns the output unchanged when the first run fell back to a raw
    text of at most 60 characters. *)
Theorem extract_merchant_name_stable (s : string) :
  (plain_name (extract_merchant_name s) = true ->
   strip_stages (extract_merchant_name s) = extract_merchant_name s
   /\ extract_merchant_name (extract_merchant_name s) = extract_merchant_name s)
  /\ (is_empty (strip (title (strip_stages s))) = true ->
      String.length s <= 60 ->
      extract_merchant_name s = s
      /\ extract_merchant_name (extract_merchant_name s) = extract_merchant_name s).
Proof.
  split.
  - intros P. split.
    + exact (plain_strip_stages _ P).
    + exact (plain_name_fixed _ P).
  - intros E L.
    assert (F : extract_merchant_name s = s).
    { unfold extract_merchant_name. rewrite E. cbn [negb]. apply take_all. exact L. }
    split; [exact F |]. rewrite F. exact F.
Qed.

Lemma extract_merchant_name_stable_witness :
  extract_merchant_name "CHECKCARD 1205 CARREFOUR DXB" = "Carrefour Dxb"
  /\ extract_merchant_name (extract_merchant_name "CHECKCARD 1205 CARREFOUR DXB")
     = extract_merchant_name "CHECKCARD 1205 CARREFOUR DXB"
  /\ extract_merchant_name (extract_merchant_name "ABCDEF0123456789")
     = extract_merchant_name "ABCDEF0123456789".
Proof.
  split; [vm_compute; reflexivity |]. split.
  - apply (proj1 (extract_merchant_name_stable "CHECKCARD 1205 CARREFOUR DXB")).
    vm_compute. reflexivity.
  - apply (proj2 (extract_merchant_name_stable "ABCDEF0123456789")).
    + vm_compute. reflexivity.
    + cbn. lia.
Defined.

